(** * AutoScholar: the orchestration core, embedded and verified

    A shallow embedding of [app/services/orchestrator.py],
    [app/services/llm_service.py], [app/services/crawler.py],
    [app/utils/retry.py], the trigger routes of [app/api/routes.py], the
    file naming of [app/services/document_generator.py] and the provider
    lookup of [app/core/config.py].

    Python strings are sequences of Unicode code points; exceptions are
    values; every awaited call on the database session, the LLM client, the
    HTTP client and the document writer is answered by an environment that
    says, for the k-th call, whether it succeeds or raises. *)

From Stdlib Require Import ZArith NArith List String Ascii Bool Lia DecimalString.
From stdpp Require Import base list.

Set Warnings "-register-all".
Open Scope Z_scope.

(** ** Python strings *)

Module PyStr.

(** A [str] is a list of code points. *)
Definition str := list N.

(** The code points of a sequence of UTF-8 bytes. *)
Fixpoint utf8_decode (bs : list N) : str :=
  match bs with
  | [] => []
  | b :: r =>
    if (b <? 192)%N then b :: utf8_decode r
    else if (b <? 224)%N then
      match r with
      | b1 :: r' => ((b - 192) * 64 + (b1 - 128))%N :: utf8_decode r'
      | [] => [b]
      end
    else if (b <? 240)%N then
      match r with
      | b1 :: b2 :: r' =>
        (((b - 224) * 64 + (b1 - 128)) * 64 + (b2 - 128))%N :: utf8_decode r'
      | _ => [b]
      end
    else
      match r with
      | b1 :: b2 :: b3 :: r' =>
        ((((b - 240) * 64 + (b1 - 128)) * 64 + (b2 - 128)) * 64 + (b3 - 128))%N
          :: utf8_decode r'
      | _ => [b]
      end
  end.

(** A literal: the code points of a Rocq string, read as UTF-8. *)
Definition lit (s : string) : str :=
  utf8_decode (map N_of_ascii (list_ascii_of_string s)).

Definition str_eqb (a b : str) : bool := bool_decide (a = b).

(** A literal in which each apostrophe stands for a double quote, for JSON
    text. *)
Definition qlit (s : string) : str :=
  map (fun c => if (c =? 39)%N then 34%N else c) (lit s).

(** [str(n)] for a non-negative integer. *)
Definition str_of_nat (n : nat) : str :=
  lit (NilEmpty.string_of_uint (Nat.to_uint n)).

(** [s.startswith(sub)], on the text that begins at the current position. *)
Fixpoint startswith (sub s : str) : bool :=
  match sub, s with
  | [], _ => true
  | _ :: _, [] => false
  | c :: sub', d :: s' => (c =? d)%N && startswith sub' s'
  end.

(** The lowest index [>= i] at which [sub] occurs, [s] being the text from
    index [i] on. *)
Fixpoint find_from (sub s : str) (i : nat) : option nat :=
  if startswith sub s then Some i
  else match s with
       | [] => None
       | _ :: s' => find_from sub s' (S i)
       end.

(** [s.find(sub, start)]: the lowest index at or after [start] where [sub]
    occurs, or -1. *)
Definition find (s sub : str) (start : nat) : Z :=
  if (length s <? start)%nat then -1
  else match find_from sub (drop start s) start with
       | Some i => Z.of_nat i
       | None => -1
       end.

(** [sub in s]. *)
Definition contains (sub s : str) : bool := negb (find s sub 0 =? -1).

(** [s[start:stop]] with Python's treatment of negative and out-of-range
    bounds. *)
Definition slice {A} (s : list A) (start stop : Z) : list A :=
  let len := Z.of_nat (length s) in
  let norm i := if i <? 0 then Z.max 0 (i + len) else Z.min i len in
  let a := norm start in
  let b := norm stop in
  take (Z.to_nat (b - a)) (drop (Z.to_nat a) s).

(** The code points [str.strip()] removes (those for which [str.isspace]
    holds). *)
Definition isspace (c : N) : bool :=
  ((9 <=? c) && (c <=? 13) || (28 <=? c) && (c <=? 32)
   || (c =? 133) || (c =? 160) || (c =? 5760)
   || (8192 <=? c) && (c <=? 8202)
   || (c =? 8232) || (c =? 8233) || (c =? 8239) || (c =? 8287)
   || (c =? 12288))%N.

Fixpoint lstrip (s : str) : str :=
  match s with
  | c :: s' => if isspace c then lstrip s' else s
  | [] => []
  end.

Definition rstrip (s : str) : str := rev (lstrip (rev s)).

Definition strip (s : str) : str := rstrip (lstrip s).

(** [sep.join(l)]. *)
Fixpoint join (sep : str) (l : list str) : str :=
  match l with
  | [] => []
  | [x] => x
  | x :: l' => x ++ sep ++ join sep l'
  end.

(** [repr] of a list of plain identifiers, as an f-string prints it:
    ['a', 'b']. *)
Definition repr_list (l : list str) : str :=
  lit "[" ++ join (lit ", ") (map (fun k => lit "'" ++ k ++ lit "'") l) ++ lit "]".

End PyStr.
Export PyStr.


(** ** JSON values and the decoder behind [json.loads] *)

Module Json.

(** A decoded JSON value. A number keeps its token; a Python [dict] is an
    association list in insertion order. *)
Inductive json :=
| JNull
| JBool (b : bool)
| JNum (raw : str)
| JStr (s : str)
| JArr (l : list json)
| JObj (d : list (str * json)).

(** [json.JSONDecodeError(msg, doc, pos)]. *)
Record JSONDecodeError := { jmsg : str; jpos : nat }.

Definition DecodeResult (A : Type) : Type := A + JSONDecodeError.

Definition jerr {A} (m : string) (p : nat) : DecodeResult A :=
  inr {| jmsg := lit m; jpos := p |}.

(** [str(e)] for a decode error on document [doc]:
    "msg: line L column C (char P)". *)
Definition decode_error_text (doc : str) (e : JSONDecodeError) : str :=
  let before := take (jpos e) doc in
  let nl := length (filter (fun c => c = 10%N) before) in
  let col := match find_from [10%N] (rev before) 0 with
             | Some k => S k
             | None => jpos e
             end in
  jmsg e ++ lit ": line " ++ str_of_nat (S nl) ++ lit " column "
    ++ str_of_nat (if (nl =? 0)%nat then S (jpos e) else col)
    ++ lit " (char " ++ str_of_nat (jpos e) ++ lit ")".

Definition is_ws (c : N) : bool :=
  ((c =? 32) || (c =? 9) || (c =? 10) || (c =? 13))%N.

Fixpoint skip_ws (s : str) (pos : nat) : str * nat :=
  match s with
  | c :: s' => if is_ws c then skip_ws s' (S pos) else (s, pos)
  | [] => ([], pos)
  end.

Definition is_digit (c : N) : bool := ((48 <=? c) && (c <=? 57))%N.

Definition hex_digit (c : N) : option N :=
  if is_digit c then Some (c - 48)%N
  else if ((97 <=? c) && (c <=? 102))%N then Some (c - 87)%N
  else if ((65 <=? c) && (c <=? 70))%N then Some (c - 55)%N
  else None.

Definition hex4 (a b c d : N) : option N :=
  match hex_digit a, hex_digit b, hex_digit c, hex_digit d with
  | Some x, Some y, Some z, Some w => Some (((x * 16 + y) * 16 + z) * 16 + w)%N
  | _, _, _, _ => None
  end.

Definition escape_char (c : N) : option N :=
  if (c =? 34)%N then Some 34%N
  else if (c =? 92)%N then Some 92%N
  else if (c =? 47)%N then Some 47%N
  else if (c =? 98)%N then Some 8%N
  else if (c =? 102)%N then Some 12%N
  else if (c =? 110)%N then Some 10%N
  else if (c =? 114)%N then Some 13%N
  else if (c =? 116)%N then Some 9%N
  else None.

Definition is_high_surrogate (c : N) : bool := ((55296 <=? c) && (c <=? 56319))%N.
Definition is_low_surrogate (c : N) : bool := ((56320 <=? c) && (c <=? 57343))%N.
Definition join_surrogates (hi lo : N) : N :=
  (65536 + (hi - 55296) * 1024 + (lo - 56320))%N.

(** The string scanner, started after the opening quote ([begin] is the
    quote's index); strict mode, so a raw control character is an error.
    Result: the text, the input after the closing quote, its index. *)
Fixpoint scanstring (s : str) (pos begin : nat) (acc : str)
  : DecodeResult (str * str * nat) :=
  match s with
  | [] => jerr "Unterminated string starting at" begin
  | c :: s' =>
    if (c =? 34)%N then inl (rev acc, s', S pos)
    else if (c <? 32)%N then jerr "Invalid control character at" pos
    else if (c =? 92)%N then
      match s' with
      | [] => jerr "Unterminated string starting at" begin
      | e :: s'' =>
        if (e =? 117)%N then
          match s'' with
          | h1 :: h2 :: h3 :: h4 :: ((_ :: _) as rest) =>
            match hex4 h1 h2 h3 h4 with
            | None => jerr "Invalid \uXXXX escape" (S pos)
            | Some u =>
              match rest with
              | b :: v :: g1 :: g2 :: g3 :: g4 :: ((_ :: _) as rest2) =>
                if is_high_surrogate u && (b =? 92)%N && (v =? 117)%N then
                  match hex4 g1 g2 g3 g4 with
                  | None => jerr "Invalid \uXXXX escape" (pos + 7)
                  | Some u2 =>
                    if is_low_surrogate u2
                    then scanstring rest2 (pos + 12) begin (join_surrogates u u2 :: acc)
                    else scanstring rest (pos + 6) begin (u :: acc)
                  end
                else scanstring rest (pos + 6) begin (u :: acc)
              | _ => scanstring rest (pos + 6) begin (u :: acc)
              end
            end
          | _ => jerr "Invalid \uXXXX escape" (S pos)
          end
        else
          match escape_char e with
          | Some x => scanstring s'' (pos + 2) begin (x :: acc)
          | None => jerr "Invalid \escape" pos
          end
      end
    else scanstring s' (S pos) begin (c :: acc)
  end.

Fixpoint span_digits (s : str) : str * str :=
  match s with
  | c :: s' => if is_digit c
               then let '(ds, r) := span_digits s' in (c :: ds, r)
               else ([], s)
  | [] => ([], [])
  end.

(** The number token at the head of [s], if any: an optional minus sign; a
    zero or a digit string that does not start with zero; an optional
    fraction (a dot and digits); an optional exponent (e or E, an optional
    sign, digits). *)
Definition match_number (s : str) : option (str * str) :=
  let '(sign, s1) := match s with
                     | c :: t => if (c =? 45)%N then ([c], t) else ([], s)
                     | [] => ([], s)
                     end in
  match s1 with
  | [] => None
  | d :: t =>
    let int_part :=
      if (d =? 48)%N then Some ([d], t)
      else if is_digit d then let '(ds, r) := span_digits t in Some (d :: ds, r)
      else None in
    match int_part with
    | None => None
    | Some (ip, r1) =>
      let '(frac, r2) :=
        match r1 with
        | dot :: ((f :: _) as t1) =>
          if (dot =? 46)%N && is_digit f
          then let '(ds, r) := span_digits t1 in (dot :: ds, r)
          else ([], r1)
        | _ => ([], r1)
        end in
      let exp_digits (pre t2 : str) :=
        match t2 with
        | f :: _ => if is_digit f
                    then let '(ds, r) := span_digits t2 in Some (pre ++ ds, r)
                    else None
        | [] => None
        end in
      let '(ex, r3) :=
        match r2 with
        | e :: t2 =>
          if ((e =? 101) || (e =? 69))%N then
            match t2 with
            | sg :: t3 =>
              if ((sg =? 45) || (sg =? 43))%N
              then match exp_digits [e; sg] t3 with Some x => x | None => ([], r2) end
              else match exp_digits [e] t2 with Some x => x | None => ([], r2) end
            | [] => ([], r2)
            end
          else ([], r2)
        | [] => ([], r2)
        end in
      Some (sign ++ ip ++ frac ++ ex, r3)
    end
  end.

(** [d[k] = v]: an existing key keeps its place. *)
Fixpoint dict_set (d : list (str * json)) (k : str) (v : json) : list (str * json) :=
  match d with
  | [] => [(k, v)]
  | (k', v') :: d' =>
    if str_eqb k k' then (k', v) :: d' else (k', v') :: dict_set d' k v
  end.

(** [dict(pairs)]. *)
Definition dict_of_pairs (pairs : list (str * json)) : list (str * json) :=
  fold_left (fun d kv => dict_set d (fst kv) (snd kv)) pairs [].

(** A keyword constant of [n] letters at the head of the input. *)
Definition keyword (w : string) (v : json) (s : str) (pos : nat)
  : option (json * str * nat) :=
  if startswith (lit w) s
  then Some (v, drop (length (lit w)) s, (pos + length (lit w))%nat)
  else None.

(** The scanner. Every call spends one unit of [fuel]; a call of the scanner
    and a turn of an array or object loop each consume a character of the
    document, so twice its length, which [loads] supplies, is enough. *)
Fixpoint scan_once (fuel : nat) (s : str) (pos : nat) {struct fuel}
  : DecodeResult (json * str * nat) :=
  match fuel with
  | O => jerr "maximum recursion depth exceeded" pos
  | S fuel' =>
    match s with
    | [] => jerr "Expecting value" pos
    | c :: s' =>
      if (c =? 34)%N then
        match scanstring s' (S pos) pos [] with
        | inl (t, r, p) => inl (JStr t, r, p)
        | inr e => inr e
        end
      else if (c =? 123)%N then
        let '(r, p) := skip_ws s' (S pos) in
        match r with
        | c1 :: r1 => if (c1 =? 125)%N then inl (JObj [], r1, S p)
                      else parse_object fuel' r p []
        | [] => parse_object fuel' r p []
        end
      else if (c =? 91)%N then
        let '(r, p) := skip_ws s' (S pos) in
        match r with
        | c1 :: r1 => if (c1 =? 93)%N then inl (JArr [], r1, S p)
                      else parse_array fuel' r p []
        | [] => parse_array fuel' r p []
        end
      else
        match keyword "null" JNull s pos, keyword "true" (JBool true) s pos,
              keyword "false" (JBool false) s pos, keyword "NaN" (JNum (lit "NaN")) s pos,
              keyword "Infinity" (JNum (lit "Infinity")) s pos,
              keyword "-Infinity" (JNum (lit "-Infinity")) s pos with
        | Some x, _, _, _, _, _ | _, Some x, _, _, _, _ | _, _, Some x, _, _, _
        | _, _, _, Some x, _, _ | _, _, _, _, Some x, _ | _, _, _, _, _, Some x => inl x
        | None, None, None, None, None, None =>
          match match_number s with
          | Some (raw, r) => inl (JNum raw, r, (pos + length raw)%nat)
          | None => jerr "Expecting value" pos
          end
        end
    end
  end
with parse_object (fuel : nat) (s : str) (pos : nat) (pairs : list (str * json))
  {struct fuel} : DecodeResult (json * str * nat) :=
  match fuel with
  | O => jerr "maximum recursion depth exceeded" pos
  | S fuel' =>
    match s with
    | q :: s1 =>
      if (q =? 34)%N then
        match scanstring s1 (S pos) pos [] with
        | inr e => inr e
        | inl (key, r, p) =>
          let '(r, p) := skip_ws r p in
          match r with
          | colon :: r1 =>
            if (colon =? 58)%N then
              let '(r2, p2) := skip_ws r1 (S p) in
              match scan_once fuel' r2 p2 with
              | inr e => inr e
              | inl (v, r3, p3) =>
                let pairs' := pairs ++ [(key, v)] in
                let '(r4, p4) := skip_ws r3 p3 in
                match r4 with
                | d :: r5 =>
                  if (d =? 125)%N then inl (JObj (dict_of_pairs pairs'), r5, S p4)
                  else if (d =? 44)%N then
                    let '(r6, p6) := skip_ws r5 (S p4) in
                    parse_object fuel' r6 p6 pairs'
                  else jerr "Expecting ',' delimiter" p4
                | [] => jerr "Expecting ',' delimiter" p4
                end
              end
            else jerr "Expecting ':' delimiter" p
          | [] => jerr "Expecting ':' delimiter" p
          end
        end
      else jerr "Expecting property name enclosed in double quotes" pos
    | [] => jerr "Expecting property name enclosed in double quotes" pos
    end
  end
with parse_array (fuel : nat) (s : str) (pos : nat) (items : list json)
  {struct fuel} : DecodeResult (json * str * nat) :=
  match fuel with
  | O => jerr "maximum recursion depth exceeded" pos
  | S fuel' =>
    match scan_once fuel' s pos with
    | inr e => inr e
    | inl (v, r, p) =>
      let items' := items ++ [v] in
      let '(r1, p1) := skip_ws r p in
      match r1 with
      | d :: r2 =>
        if (d =? 93)%N then inl (JArr items', r2, S p1)
        else if (d =? 44)%N then
          let '(r3, p3) := skip_ws r2 (S p1) in
          parse_array fuel' r3 p3 items'
        else jerr "Expecting ',' delimiter" p1
      | [] => jerr "Expecting ',' delimiter" p1
      end
    end
  end.

(** [json.loads(doc)] for a [str] document. *)
Definition loads (doc : str) : DecodeResult json :=
  match doc with
  | 65279%N :: _ => jerr "Unexpected UTF-8 BOM (decode using utf-8-sig)" 0
  | _ =>
    let '(s, p) := skip_ws doc 0 in
    match scan_once (2 * length doc + 2) s p with
    | inr e => inr e
    | inl (v, r, p1) =>
      let '(r1, p2) := skip_ws r p1 in
      match r1 with
      | [] => inl v
      | _ :: _ => jerr "Extra data" p2
      end
    end
  end.

End Json.
Export Json.

(** ** Exceptions *)

Module Exn.

(** The exception classes that occur; every one derives from [Exception]. *)
Inductive exc_class :=
| ValueError
| TypeError
| AttributeError
| HTTPError              (* httpx.HTTPError *)
| TimeoutException       (* httpx.TimeoutException, a subclass of HTTPError *)
| SQLAlchemyError        (* raised by the database session *)
| MultipleResultsFound   (* a subclass of SQLAlchemyError *)
| OSError                (* raised by the document writer *)
| LLMError               (* raised by the LLM client *)
| HTTPException (status_code : nat).   (* fastapi.HTTPException *)

#[export] Instance exc_class_eq_dec : EqDecision exc_class.
Proof. solve_decision. Defined.

(** An exception value; [exc_text] is [str(e)]. *)
Record exn := { exc_cls : exc_class; exc_text : str }.

#[export] Instance exn_eq_dec : EqDecision exn.
Proof. solve_decision. Defined.

(** [issubclass(c, d)]. *)
Definition issubclass (c d : exc_class) : bool :=
  bool_decide (c = d)
  || match c, d with
     | TimeoutException, HTTPError => true
     | MultipleResultsFound, SQLAlchemyError => true
     | _, _ => false
     end.

(** An entry of the [exceptions] tuple given to a retry decorator. *)
Inductive exc_pattern :=
| AnyException
| OfClass (c : exc_class).

(** [isinstance(e, exceptions)]. *)
Definition isinstance (e : exn) (exceptions : list exc_pattern) : bool :=
  existsb (fun pt => match pt with
                     | AnyException => true
                     | OfClass d => issubclass (exc_cls e) d
                     end) exceptions.

(** The outcome of a call: a value or a raised exception. *)
Inductive result (A : Type) :=
| Ok (a : A)
| Raise (e : exn).
Arguments Ok {A} a.
Arguments Raise {A} e.

Definition is_ok {A} (r : result A) : bool :=
  match r with Ok _ => true | Raise _ => false end.

End Exn.
Export Exn.

(** ** Rows of the three tables *)

Module Models.

(** [app/models/paper.py]. Dates are opaque time stamps. *)
Record Paper := {
  p_id : nat;
  p_paper_id : str;
  p_title : str;
  p_authors : list str;
  p_abstract : str;
  p_publication_date : option N;
  p_source : str;
  p_pdf_url : option str;
  p_categories : option (list str);
  p_raw_data : json;
  p_status : str
}.

Definition with_status (s : str) (p : Paper) : Paper :=
  {| p_id := p_id p; p_paper_id := p_paper_id p; p_title := p_title p;
     p_authors := p_authors p; p_abstract := p_abstract p;
     p_publication_date := p_publication_date p; p_source := p_source p;
     p_pdf_url := p_pdf_url p; p_categories := p_categories p;
     p_raw_data := p_raw_data p; p_status := s |}.

(** The record the page parser builds for one entry ([paper_data] in
    [_parse_paper_article]). *)
Record RawPaper := {
  rp_paper_id : str;
  rp_title : str;
  rp_authors : list str;
  rp_abstract : str;
  rp_publication_date : option N;
  rp_source : str;
  rp_pdf_url : option str;
  rp_categories : option (list str);
  rp_raw_data : json
}.

(** [app/schemas/schemas.py], [PaperCreate]. *)
Record PaperCreate := {
  pc_paper_id : str;
  pc_title : str;
  pc_authors : list str;
  pc_abstract : str;
  pc_publication_date : option N;
  pc_source : str;
  pc_pdf_url : option str;
  pc_categories : option (list str);
  pc_raw_data : json;
  pc_status : str
}.

Record TokenUsage := {
  prompt_tokens : Z;
  completion_tokens : Z;
  total_tokens : Z
}.

(** [app/models/report.py]. *)
Record Report := {
  r_id : nat;
  r_paper_id : nat;
  r_llm_provider : str;
  r_llm_model : str;
  r_report_content : json;
  r_markdown_path : str;
  r_generation_time : option Z;
  r_token_usage : option TokenUsage;
  r_status : str
}.

(** What a task reports on success. *)
Inductive Summary :=
| CrawlSummary (total_crawled saved duplicates failed : nat)
| BatchSummary (total_processed success failed : nat)
| SingleSummary (paper_id : str) (report_id : nat).

(** [app/models/task.py]. *)
Record Task := {
  t_id : nat;
  t_task_type : str;
  t_status : str;
  t_trigger_type : str;
  t_end_time : option N;
  t_result_summary : option Summary;
  t_error_message : option str
}.

End Models.
Export Models.

(** ** The world and its environment *)

Module Runtime.

(** A chat message sent to the model. *)
Inductive Message :=
| SystemMessage (content : str)
| HumanMessage (content : str).

(** What the model of one provider answers to one request. *)
Record LLMResponse := {
  content : str;
  usage : option TokenUsage;    (* response_metadata["token_usage"] *)
  elapsed : Z                   (* int(time.time() - start_time) *)
}.

(** [settings]: the options the orchestration core reads. *)
Record Settings := {
  crawler_max_retries : Z;
  crawler_retry_delay : Z;
  llm_default_provider : str;
  llm_model_of : str -> str     (* get_provider_config(provider)["model"] *)
}.

(** The environment: for the k-th database operation whether it raises,
    for the k-th LLM request (and its messages), document write and HTTP
    fetch its outcome, the JSON decoder, the clock and the settings. *)
Record Env := {
  db_fault : nat -> option exn;
  llm_reply : nat -> list Message -> result LLMResponse;
  doc_reply : nat -> result str;
  http_reply : nat -> result (list RawPaper);
  json_loads : str -> DecodeResult json;
  now : N;
  settings : Settings
}.

(** A log record: the message and the paper identifier or error text it
    carries. *)
Record LogRecord := { log_msg : string; log_arg : str }.

(** The mutable state: the tables (a row is referred to by its position,
    rows are never deleted here), the counters of calls made so far, the
    delays slept by the retry decorator, and the log. *)
Record World := {
  papers : list Paper;
  reports : list Report;
  tasks : list Task;
  db_ops : nat;
  llm_calls : nat;
  doc_calls : nat;
  http_calls : nat;
  sleeps : list Z;
  log : list LogRecord
}.

Definition set_papers (f : list Paper -> list Paper) (w : World) : World :=
  {| papers := f (papers w); reports := reports w; tasks := tasks w;
     db_ops := db_ops w; llm_calls := llm_calls w; doc_calls := doc_calls w;
     http_calls := http_calls w; sleeps := sleeps w; log := log w |}.

Definition set_reports (f : list Report -> list Report) (w : World) : World :=
  {| papers := papers w; reports := f (reports w); tasks := tasks w;
     db_ops := db_ops w; llm_calls := llm_calls w; doc_calls := doc_calls w;
     http_calls := http_calls w; sleeps := sleeps w; log := log w |}.

Definition set_tasks (f : list Task -> list Task) (w : World) : World :=
  {| papers := papers w; reports := reports w; tasks := f (tasks w);
     db_ops := db_ops w; llm_calls := llm_calls w; doc_calls := doc_calls w;
     http_calls := http_calls w; sleeps := sleeps w; log := log w |}.

Definition set_db_ops (f : nat -> nat) (w : World) : World :=
  {| papers := papers w; reports := reports w; tasks := tasks w;
     db_ops := f (db_ops w); llm_calls := llm_calls w; doc_calls := doc_calls w;
     http_calls := http_calls w; sleeps := sleeps w; log := log w |}.

Definition set_llm_calls (f : nat -> nat) (w : World) : World :=
  {| papers := papers w; reports := reports w; tasks := tasks w;
     db_ops := db_ops w; llm_calls := f (llm_calls w); doc_calls := doc_calls w;
     http_calls := http_calls w; sleeps := sleeps w; log := log w |}.

Definition set_doc_calls (f : nat -> nat) (w : World) : World :=
  {| papers := papers w; reports := reports w; tasks := tasks w;
     db_ops := db_ops w; llm_calls := llm_calls w; doc_calls := f (doc_calls w);
     http_calls := http_calls w; sleeps := sleeps w; log := log w |}.

Definition set_http_calls (f : nat -> nat) (w : World) : World :=
  {| papers := papers w; reports := reports w; tasks := tasks w;
     db_ops := db_ops w; llm_calls := llm_calls w; doc_calls := doc_calls w;
     http_calls := f (http_calls w); sleeps := sleeps w; log := log w |}.

Definition set_sleeps (f : list Z -> list Z) (w : World) : World :=
  {| papers := papers w; reports := reports w; tasks := tasks w;
     db_ops := db_ops w; llm_calls := llm_calls w; doc_calls := doc_calls w;
     http_calls := http_calls w; sleeps := f (sleeps w); log := log w |}.

Definition set_log (f : list LogRecord -> list LogRecord) (w : World) : World :=
  {| papers := papers w; reports := reports w; tasks := tasks w;
     db_ops := db_ops w; llm_calls := llm_calls w; doc_calls := doc_calls w;
     http_calls := http_calls w; sleeps := sleeps w; log := f (log w) |}.

(** A computation: it transforms the world and returns or raises. What it
    did to the world before raising stays done. *)
Definition M (A : Type) : Type := World -> World * result A.

Definition ret {A} (a : A) : M A := fun w => (w, Ok a).

Definition raise {A} (e : exn) : M A := fun w => (w, Raise e).

Definition bind {A B} (m : M A) (k : A -> M B) : M B :=
  fun w => match m w with
           | (w', Ok a) => k a w'
           | (w', Raise e) => (w', Raise e)
           end.

(** [try: m except Exception as e: h e]. *)
Definition try_except {A} (m : M A) (h : exn -> M A) : M A :=
  fun w => match m w with
           | (w', Ok a) => (w', Ok a)
           | (w', Raise e) => h e w'
           end.

Definition get {A} (f : World -> A) : M A := fun w => (w, Ok (f w)).

Definition modify (f : World -> World) : M unit := fun w => (f w, Ok tt).

End Runtime.
Export Runtime.

Notation "x <- c1 ;; c2" := (bind c1 (fun x => c2))
  (at level 100, c1 at next level, right associativity).
Notation "c1 ;; c2" := (bind c1 (fun _ => c2))
  (at level 100, right associativity).

(** Python truthiness of an optional integer and of an optional string. *)
Definition truthy_int (o : option Z) : bool :=
  match o with Some n => negb (n =? 0) | None => false end.

Definition truthy_str (o : option str) : bool :=
  match o with Some (_ :: _) => true | _ => false end.

Section Services.

Variable env : Env.

(** *** Primitive effects *)

(** One awaited operation on the database session ([execute], [flush],
    [commit]): the environment decides whether it raises. *)
Definition db_op : M unit :=
  fun w => let w' := set_db_ops S w in
           match db_fault env (db_ops w) with
           | Some e => (w', Raise e)
           | None => (w', Ok tt)
           end.

(** [logger.info/debug/warning/error(msg, ...)]. *)
Definition logger (msg : string) (arg : str) : M unit :=
  modify (set_log (fun l => l ++ [{| log_msg := msg; log_arg := arg |}])).

(** [await self.llm.ainvoke(messages)]. *)
Definition ainvoke (messages : list Message) : M LLMResponse :=
  fun w => (set_llm_calls S w, llm_reply env (llm_calls w) messages).

(** [await asyncio.sleep(d)], as the retry decorator does between attempts. *)
Definition sleep (d : Z) : M unit := modify (set_sleeps (fun l => l ++ [d])).

(** *** [app/utils/retry.py] *)

(** tenacity's [wait_exponential(multiplier, min, max)] for the attempt that
    just failed. *)
Definition wait_exponential (multiplier mn mx attempt_number : Z) : Z :=
  Z.max (Z.max 0 mn) (Z.min (multiplier * 2 ^ (attempt_number - 1)) mx).

(** The loop of tenacity's [retry(stop=stop_after_attempt(max_attempts),
    wait=wait_exponential(...), retry=retry_if_exception_type(exceptions),
    reraise=True)]: [more] is the number of attempts still allowed after
    this one. *)
Fixpoint retrying {A} (more : nat) (retry_delay attempt_number : Z)
    (exceptions : list exc_pattern) (func : M A) : M A :=
  try_except func (fun e =>
    if isinstance e exceptions then
      match more with
      | O => raise e
      | S more' =>
        let d := wait_exponential retry_delay retry_delay 60 attempt_number in
        logger "Retrying" (exc_text e) ;;
        sleep d ;;
        retrying more' retry_delay (attempt_number + 1) exceptions func
      end
    else raise e).

Definition async_retry {A} (max_attempts retry_delay : option Z)
    (exceptions : list exc_pattern) (func : M A) : M A :=
  let max_attempts := match max_attempts with
                      | Some n => n
                      | None => crawler_max_retries (settings env)
                      end in
  let retry_delay := match retry_delay with
                     | Some d => d
                     | None => crawler_retry_delay (settings env)
                     end in
  retrying (Z.to_nat (max_attempts - 1)) retry_delay 1 exceptions func.

(** *** [app/services/llm_service.py] *)

Definition fence_json : str := lit "```json".
Definition fence : str := lit "```".

(** The text [_parse_llm_response] hands to [json.loads]. *)
Definition extract_json_str (response : str) : str :=
  if contains fence_json response then
    let json_start := find response fence_json 0 + 7 in
    let json_end := find response fence (Z.to_nat json_start) in
    strip (slice response json_start json_end)
  else if contains fence response then
    let json_start := find response fence 0 + 3 in
    let json_end := find response fence (Z.to_nat json_start) in
    strip (slice response json_start json_end)
  else strip response.

Definition parse_error (json_str : str) (e : JSONDecodeError) : exn :=
  {| exc_cls := ValueError;
     exc_text := lit "Failed to parse LLM response as JSON: "
                   ++ decode_error_text json_str e |}.

Definition _parse_llm_response (response : str) : M json :=
  let json_str := extract_json_str response in
  match json_loads env json_str with
  | inl report_content => ret report_content
  | inr e =>
    logger "Failed to parse JSON from LLM response" (decode_error_text json_str e) ;;
    raise (parse_error json_str e)
  end.

Definition required_fields : list str :=
  [ lit "core_summary"; lit "research_background"; lit "technical_innovation";
    lit "experiments_results"; lit "application_value"; lit "limitations";
    lit "recommended_audience" ].

(** [type(v).__name__] of a decoded value. *)
Definition type_name (v : json) : str :=
  match v with
  | JNull => lit "NoneType"
  | JBool _ => lit "bool"
  | JNum raw => if forallb (fun c => is_digit c || (c =? 45)%N) raw
                then lit "int" else lit "float"
  | JStr _ => lit "str"
  | JArr _ => lit "list"
  | JObj _ => lit "dict"
  end.

(** [field in content]. *)
Definition py_in (field : str) (content : json) : result bool :=
  match content with
  | JObj d => Ok (existsb (str_eqb field) (map fst d))
  | JArr l => Ok (existsb (fun v => match v with
                                    | JStr s => str_eqb field s
                                    | _ => false
                                    end) l)
  | JStr s => Ok (contains field s)
  | _ => Raise {| exc_cls := TypeError;
                  exc_text := lit "argument of type '" ++ type_name content
                                ++ lit "' is not iterable" |}
  end.

(** [[field for field in fields if field not in content]]. *)
Fixpoint missing_of (fields : list str) (content : json) : result (list str) :=
  match fields with
  | [] => Ok []
  | field :: rest =>
    match py_in field content with
    | Raise e => Raise e
    | Ok present =>
      match missing_of rest content with
      | Raise e => Raise e
      | Ok l => Ok (if present then l else field :: l)
      end
    end
  end.

(** [not isinstance(value, str) or not value.strip()]. *)
Definition bad_value (value : json) : bool :=
  match value with
  | JStr s => match strip s with [] => true | _ :: _ => false end
  | _ => true
  end.

Definition empty_field_error (field : str) : exn :=
  {| exc_cls := ValueError;
     exc_text := lit "Field '" ++ field ++ lit "' must be a non-empty string" |}.

(** The loop over [content.items()]. *)
Fixpoint check_items (items : list (str * json)) : result unit :=
  match items with
  | [] => Ok tt
  | (field, value) :: rest =>
    if bad_value value then Raise (empty_field_error field) else check_items rest
  end.

Definition missing_fields_error (missing_fields : list str) : exn :=
  {| exc_cls := ValueError;
     exc_text := lit "Missing required fields: " ++ repr_list missing_fields |}.

Definition _validate_report_content (content : json) : result unit :=
  match missing_of required_fields content with
  | Raise e => Raise e
  | Ok missing_fields =>
    match missing_fields with
    | _ :: _ => Raise (missing_fields_error missing_fields)
    | [] =>
      match content with
      | JObj d => check_items d
      | _ => Raise {| exc_cls := AttributeError;
                      exc_text := lit "'" ++ type_name content
                                    ++ lit "' object has no attribute 'items'" |}
      end
    end
  end.

(** What [generate_report] returns. *)
Record LLMResult := {
  lr_content : json;
  lr_generation_time : Z;
  lr_token_usage : option TokenUsage;
  lr_llm_provider : str;
  lr_llm_model : str
}.

Definition lift_result {A} (r : result A) : M A := fun w => (w, r).

(** [REPORT_GENERATION_PROMPT.format(title=..., authors=..., abstract=...,
    source=..., categories=...)]. *)
Definition REPORT_GENERATION_PROMPT (title authors abstract source categories : str)
  : str :=
  lit "你是一位资深的学术研究分析专家，擅长解读人工智能和机器学习领域的前沿论文。

请根据以下论文信息，生成一份高质量的中文分析报告。报告应该专业、准确、易读，帮助读者快速理解论文的核心价值。

论文信息：
- 标题：" ++ title ++ lit "
- 作者：" ++ authors ++ lit "
- 摘要：" ++ abstract ++ lit "
- 来源：" ++ source ++ lit "
- 分类：" ++ categories ++ lit "

请按以下结构生成报告，并以 JSON 格式返回：

1. core_summary (核心观点总结): 用 1-2 句话概括论文最重要的贡献（50-100字）
2. research_background (研究背景): 论文解决的问题及研究动机（100-200字）
3. technical_innovation (技术创新点): 论文提出的新方法、新技术（200-300字）
4. experiments_results (实验与结果): 主要实验设置和关键结果（150-250字）
5. application_value (应用价值): 研究的实际应用场景和意义（100-150字）
6. limitations (局限性分析): 论文的不足和未来改进方向（100-150字）
7. recommended_audience (推荐阅读人群): 适合哪些领域的研究者或从业者（50字以内）

请确保：
- 内容准确、专业，基于论文摘要进行合理推断
- 语言流畅，避免生硬翻译
- 突出论文的创新点和实用价值
- 客观分析局限性

请以 JSON 格式返回，键名使用英文（如上述结构），值使用中文内容。
".

(** The messages of one request: the first five authors (with "et al."
    when there are more), the categories or a placeholder, the prompt. *)
Definition report_messages (title : str) (authors : list str) (abstract source : str)
    (categories : option (list str)) : list Message :=
  let authors_str :=
    join (lit ", ") (take 5 authors)
      ++ (if (5 <? length authors)%nat then lit " et al." else []) in
  let categories_str :=
    match categories with
    | Some (c :: l) => join (lit ", ") (c :: l)
    | _ => lit "未分类"
    end in
  let prompt :=
    REPORT_GENERATION_PROMPT title authors_str abstract source categories_str in
  [SystemMessage (lit "You are an expert academic research analyst.");
   HumanMessage prompt].

(** The body of [LLMService.generate_report]: one attempt. *)
Definition generate_report_attempt (provider : str) (title : str) (authors : list str)
    (abstract source : str) (categories : option (list str)) : M LLMResult :=
  let messages := report_messages title authors abstract source categories in
  logger "Generating report with LLM" (take 100 title) ;;
  try_except
    (response <- ainvoke messages ;;
     report_content <- _parse_llm_response (content response) ;;
     lift_result (_validate_report_content report_content) ;;
     logger "Report generated successfully" provider ;;
     ret {| lr_content := report_content;
            lr_generation_time := elapsed response;
            lr_token_usage := usage response;
            lr_llm_provider := provider;
            lr_llm_model := llm_model_of (settings env) provider |})
    (fun e =>
       logger "Failed to generate report" (exc_text e) ;;
       raise e).

(** [@async_retry(max_attempts=2, exceptions=(Exception,))]. *)
Definition generate_report (provider : str) (title : str) (authors : list str)
    (abstract source : str) (categories : option (list str)) : M LLMResult :=
  async_retry (Some 2) None [AnyException]
    (generate_report_attempt provider title authors abstract source categories).

(** [LLMService(provider=provider)] takes the default provider when none is
    given, then [generate_report] is called with the paper's fields. *)
Definition generate_paper_report (paper : Paper) (provider : option str) : M LLMResult :=
  let provider := match provider with
                  | Some (c :: p) => c :: p
                  | _ => llm_default_provider (settings env)
                  end in
  generate_report provider (p_title paper) (p_authors paper) (p_abstract paper)
    (p_source paper) (p_categories paper).

(** *** [app/services/crawler.py] *)

(** The body of [fetch_daily_papers]: the GET, [raise_for_status] and the
    page parser, whose joint outcome the environment supplies. *)
Definition fetch_daily_papers_attempt (date : option str) : M (list RawPaper) :=
  logger "Fetching Hugging Face daily papers" (default [] date) ;;
  papers <- (fun w => (set_http_calls S w, http_reply env (http_calls w))) ;;
  logger "Fetched papers from Hugging Face" (str_of_nat (length papers)) ;;
  ret papers.

(** [@async_retry(exceptions=(httpx.HTTPError, httpx.TimeoutException))]. *)
Definition fetch_daily_papers (date : option str) : M (list RawPaper) :=
  async_retry None None [OfClass HTTPError; OfClass TimeoutException]
    (fetch_daily_papers_attempt date).

(** [PaperCreate] built from the keys of [paper_data]: the status takes its
    default. *)
Definition convert_to_paper_schema (p : RawPaper) : PaperCreate :=
  {| pc_paper_id := rp_paper_id p; pc_title := rp_title p;
     pc_authors := rp_authors p; pc_abstract := rp_abstract p;
     pc_publication_date := rp_publication_date p; pc_source := rp_source p;
     pc_pdf_url := rp_pdf_url p; pc_categories := rp_categories p;
     pc_raw_data := rp_raw_data p; pc_status := lit "NEW" |}.

Definition crawl_huggingface_papers (date : option str) (limit : option Z)
  : M (list PaperCreate) :=
  raw_papers <- fetch_daily_papers date ;;
  let raw_papers := if truthy_int limit
                    then slice raw_papers 0 (default 0 limit)
                    else raw_papers in
  ret (map convert_to_paper_schema raw_papers).

(** *** The database session *)

(** The positions, from [i] on, of the rows that satisfy [f]. *)
Fixpoint where_from {A} (f : A -> bool) (l : list A) (i : nat) : list nat :=
  match l with
  | [] => []
  | x :: l' => if f x then i :: where_from f l' (S i) else where_from f l' (S i)
  end.

Definition multiple_rows : exn :=
  {| exc_cls := MultipleResultsFound;
     exc_text := lit "Multiple rows were found when one or none was required" |}.

(** [await db.execute(select(Paper).where(Paper.paper_id == pid))] followed
    by [scalar_one_or_none()]. *)
Definition select_paper_by_paper_id (pid : str) : M (option nat) :=
  db_op ;;
  rows <- get (fun w => where_from (fun p => str_eqb (p_paper_id p) pid) (papers w) 0) ;;
  match rows with
  | [] => ret None
  | [i] => ret (Some i)
  | _ :: _ :: _ => raise multiple_rows
  end.

(** [select(Paper).where(Paper.status == "NEW")], with [.limit(limit)] when
    [limit] is truthy, executed; rows come in table order. PostgreSQL, the
    configured store, rejects a negative LIMIT. *)
Definition select_new_papers (limit : option Z) : M (list nat) :=
  db_op ;;
  rows <- get (fun w => where_from (fun p => str_eqb (p_status p) (lit "NEW")) (papers w) 0) ;;
  if truthy_int limit then
    let n := default 0 limit in
    if n <? 0
    then raise {| exc_cls := SQLAlchemyError; exc_text := lit "LIMIT must not be negative" |}
    else ret (take (Z.to_nat n) rows)
  else ret rows.

(** [db.add(paper)] and the [await db.flush()] that follows it: when the
    flush raises the pending row is dropped and the table is as before;
    otherwise the row is appended and gets the next primary key. The
    result is the row's position. *)
Definition flush_new_paper (mk : nat -> Paper) : M nat :=
  db_op ;;
  i <- get (fun w => length (papers w)) ;;
  modify (set_papers (fun l => l ++ [mk (S (length l))])) ;;
  ret i.

Definition flush_new_report (mk : nat -> Report) : M nat :=
  db_op ;;
  i <- get (fun w => length (reports w)) ;;
  modify (set_reports (fun l => l ++ [mk (S (length l))])) ;;
  ret i.

Definition flush_new_task (mk : nat -> Task) : M nat :=
  db_op ;;
  i <- get (fun w => length (tasks w)) ;;
  modify (set_tasks (fun l => l ++ [mk (S (length l))])) ;;
  ret i.

(** [paper.status = s] on the row at position [i]. *)
Definition set_status (i : nat) (s : str) : M unit :=
  modify (set_papers (alter (with_status s) i)).

Definition dummy_paper : Paper :=
  {| p_id := 0; p_paper_id := []; p_title := []; p_authors := [];
     p_abstract := []; p_publication_date := None; p_source := [];
     p_pdf_url := None; p_categories := None; p_raw_data := JNull;
     p_status := [] |}.

(** Reading the attributes of the row at position [i]. *)
Definition paper_at (i : nat) : M Paper :=
  get (fun w => default dummy_paper (papers w !! i)).

(** *** [app/services/document_generator.py] *)

(** [await create_markdown_report(...)]: the file name is derived, the
    template rendered and the file written; the environment supplies the
    saved path or the exception. *)
Definition create_markdown_report (paper : Paper) (report_content : json)
    (llm_model : str) : M str :=
  r <- (fun w => (set_doc_calls S w, doc_reply env (doc_calls w))) ;;
  logger "Created Markdown report" (p_paper_id paper) ;;
  ret r.

(** *** [app/services/orchestrator.py] *)

Record CrawlCounts := {
  saved_count : nat;
  duplicate_count : nat;
  failed_count : nat
}.

(** [Paper(paper_id=paper_data.paper_id, ..., status="NEW")]; the primary key
    [k] is assigned by the flush. *)
Definition new_paper (paper_data : PaperCreate) (k : nat) : Paper :=
  {| p_id := k; p_paper_id := pc_paper_id paper_data;
     p_title := pc_title paper_data; p_authors := pc_authors paper_data;
     p_abstract := pc_abstract paper_data;
     p_publication_date := pc_publication_date paper_data;
     p_source := pc_source paper_data; p_pdf_url := pc_pdf_url paper_data;
     p_categories := pc_categories paper_data;
     p_raw_data := pc_raw_data paper_data; p_status := lit "NEW" |}.

(** The body of the loop of [crawl_and_save_papers]. *)
Definition save_one (c : CrawlCounts) (paper_data : PaperCreate) : M CrawlCounts :=
  try_except
    (existing_paper <- select_paper_by_paper_id (pc_paper_id paper_data) ;;
     match existing_paper with
     | Some _ =>
       logger "Paper already exists" (pc_paper_id paper_data) ;;
       ret {| saved_count := saved_count c;
              duplicate_count := S (duplicate_count c);
              failed_count := failed_count c |}
     | None =>
       flush_new_paper (new_paper paper_data) ;;
       logger "Saved new paper" (pc_paper_id paper_data) ;;
       ret {| saved_count := S (saved_count c);
              duplicate_count := duplicate_count c;
              failed_count := failed_count c |}
     end)
    (fun e =>
       logger "Failed to save paper" (pc_paper_id paper_data) ;;
       ret {| saved_count := saved_count c;
              duplicate_count := duplicate_count c;
              failed_count := S (failed_count c) |}).

(** [for x in l: s = body(s, x)]. *)
Fixpoint for_each {A S} (l : list A) (body : S -> A -> M S) (s : S) : M S :=
  match l with
  | [] => ret s
  | x :: l' => s' <- body s x ;; for_each l' body s'
  end.

Record CrawlResult := {
  total_crawled : nat;
  saved : nat;
  duplicates : nat;
  failed : nat
}.

(** The part of [crawl_and_save_papers] that follows the fetch. *)
Definition save_papers (papers : list PaperCreate) : M CrawlResult :=
  c <- for_each papers save_one
         {| saved_count := 0; duplicate_count := 0; failed_count := 0 |} ;;
  db_op ;;
  let result := {| total_crawled := length papers; saved := saved_count c;
                   duplicates := duplicate_count c; failed := failed_count c |} in
  logger "Paper crawl completed" [] ;;
  ret result.

Definition crawl_and_save_papers (source : str) (date : option str)
    (limit : option Z) : M CrawlResult :=
  logger "Starting paper crawl" source ;;
  papers <- (if str_eqb source (lit "huggingface")
             then crawl_huggingface_papers date limit
             else raise {| exc_cls := ValueError;
                           exc_text := lit "Unsupported source: " ++ source |}) ;;
  save_papers papers.

(** The [try] block of [_generate_single_report]. *)
Definition analysis_steps (paper : nat) (llm_provider : option str) : M nat :=
  paper_data <- paper_at paper ;;
  llm_result <- generate_paper_report paper_data llm_provider ;;
  filepath <- create_markdown_report paper_data (lr_content llm_result)
                (lr_llm_model llm_result) ;;
  set_status paper (lit "COMPLETED") ;;
  report <- flush_new_report (fun k =>
    {| r_id := k; r_paper_id := p_id paper_data;
       r_llm_provider := lr_llm_provider llm_result;
       r_llm_model := lr_llm_model llm_result;
       r_report_content := lr_content llm_result;
       r_markdown_path := filepath;
       r_generation_time := Some (lr_generation_time llm_result);
       r_token_usage := lr_token_usage llm_result;
       r_status := lit "SUCCESS" |}) ;;
  logger "Report generated successfully" (p_paper_id paper_data) ;;
  ret report.

(** Its [except Exception as e] handler. *)
Definition analysis_failed (paper : nat) (e : exn) : M nat :=
  set_status paper (lit "FAILED") ;;
  db_op ;;
  logger "Failed to generate report" (exc_text e) ;;
  raise e.

(** The statements before the [try]: the log record, the status set to
    PROCESSING and flushed. *)
Definition analysis_prologue (paper : nat) : M unit :=
  p <- paper_at paper ;;
  logger "Generating report for paper" (p_paper_id p) ;;
  set_status paper (lit "PROCESSING") ;;
  db_op.

Definition _generate_single_report (paper : nat) (llm_provider : option str) : M nat :=
  analysis_prologue paper ;;
  try_except (analysis_steps paper llm_provider) (analysis_failed paper).

Record BatchResult := {
  total_processed : nat;
  success : nat;
  batch_failed : nat
}.

(** The body of the loop of [generate_reports_batch]; the counters are
    (success_count, failed_count). *)
Definition batch_one (llm_provider : option str) (c : nat * nat) (paper : nat)
  : M (nat * nat) :=
  try_except
    (_generate_single_report paper llm_provider ;;
     ret (S (fst c), snd c))
    (fun e =>
       p <- paper_at paper ;;
       logger "Failed to generate report for paper" (p_paper_id p) ;;
       set_status paper (lit "FAILED") ;;
       ret (fst c, S (snd c))).

Definition generate_reports_batch (llm_provider : option str) (limit : option Z)
  : M BatchResult :=
  logger "Starting batch report generation" [] ;;
  papers <- select_new_papers limit ;;
  match papers with
  | [] =>
    logger "No unprocessed papers found" [] ;;
    ret {| total_processed := 0; success := 0; batch_failed := 0 |}
  | _ :: _ =>
    c <- for_each papers (batch_one llm_provider) (0%nat, 0%nat) ;;
    db_op ;;
    let result := {| total_processed := length papers; success := fst c;
                     batch_failed := snd c |} in
    logger "Batch report generation completed" [] ;;
    ret result
  end.

Definition not_found_error (paper_id : str) : exn :=
  {| exc_cls := ValueError; exc_text := lit "Paper not found: " ++ paper_id |}.

Definition regenerate_report (paper_id : str) (llm_provider : option str) : M nat :=
  paper <- select_paper_by_paper_id paper_id ;;
  match paper with
  | None => raise (not_found_error paper_id)
  | Some paper =>
    report <- _generate_single_report paper llm_provider ;;
    db_op ;;
    ret report
  end.

(** *** [app/api/routes.py]: the task wrapper of [POST /tasks/generate] *)

Record GenerateReportRequest := {
  req_paper_id : option str;
  req_llm_provider : option str;
  req_force_regenerate : bool
}.

Record GenerateReportResponse := {
  resp_task_id : nat;
  resp_message : str;
  resp_status : str
}.

Definition update_task (t : nat) (f : Task -> Task) : M unit :=
  modify (set_tasks (alter f t)).

Definition finish_task (st : str) (summary : option Summary) (err : option str)
    (t : Task) : Task :=
  {| t_id := t_id t; t_task_type := t_task_type t; t_status := st;
     t_trigger_type := t_trigger_type t; t_end_time := Some (now env);
     t_result_summary := match summary with Some _ => summary | None => t_result_summary t end;
     t_error_message := match err with Some _ => err | None => t_error_message t end |}.

(** [TaskModel(task_type=..., status="RUNNING", trigger_type="MANUAL")]; the
    primary key [k] is assigned by the flush. *)
Definition running_task (request : GenerateReportRequest) (k : nat) : Task :=
  {| t_id := k;
     t_task_type := if truthy_str (req_paper_id request)
                    then lit "GENERATE_SINGLE" else lit "GENERATE_BATCH";
     t_status := lit "RUNNING"; t_trigger_type := lit "MANUAL";
     t_end_time := None; t_result_summary := None; t_error_message := None |}.

Definition generate_reports (request : GenerateReportRequest) : M GenerateReportResponse :=
  logger "Manual report generation triggered" (default [] (req_paper_id request)) ;;
  task <- flush_new_task (running_task request) ;;
  try_except
    (rm <- (if truthy_str (req_paper_id request) then
              let pid := default [] (req_paper_id request) in
              report <- regenerate_report pid (req_llm_provider request) ;;
              ret (SingleSummary pid (S report),
                   lit "Generated report for paper " ++ pid)
            else
              result <- generate_reports_batch (req_llm_provider request) None ;;
              ret (BatchSummary (total_processed result) (success result)
                     (batch_failed result),
                   lit "Generated " ++ str_of_nat (success result) ++ lit " reports")) ;;
     update_task task (finish_task (lit "SUCCESS") (Some (fst rm)) None) ;;
     db_op ;;
     ret {| resp_task_id := S task; resp_message := snd rm;
            resp_status := lit "SUCCESS" |})
    (fun e =>
       update_task task (finish_task (lit "FAILED") None (Some (exc_text e))) ;;
       db_op ;;
       logger "Report generation task failed" (exc_text e) ;;
       raise {| exc_cls := HTTPException 500;
                exc_text := lit "Generation failed: " ++ exc_text e |}).

End Services.

(** ** Vocabulary of the statements *)

Module Vocabulary.

(** The status of the row at position [i], if there is one. *)
Definition status_at (w : World) (i : nat) : option str :=
  p_status <$> (papers w !! i).

Definition is_new (p : Paper) : bool := str_eqb (p_status p) (lit "NEW").

(** The rows batch analysis selects in world [w]. *)
Definition selected_rows (limit : option Z) (w : World) : list nat :=
  let rows := where_from is_new (papers w) 0 in
  if truthy_int limit then take (Z.to_nat (default 0 limit)) rows else rows.

(** The paper identifiers for which single-paper analysis was started,
    oldest first, as the log records them. *)
Definition attempted (l : list LogRecord) : list str :=
  map log_arg
    (List.filter (fun r => String.eqb (log_msg r) "Generating report for paper") l).

(** A computation is stable for a relation between worlds when every run
    relates the world it starts in to the world it ends in. *)
Definition stable (R : World -> World -> Prop) {A} (m : M A) : Prop :=
  forall w, R w (fst (m w)).

(** What a relation between worlds must tolerate for the steps of
    single-paper analysis to be stable for it: counters moving, reports
    and tasks changing, and log records that start no analysis. *)
Record Tolerant (R : World -> World -> Prop) : Prop := {
  tol_db : forall f w, R w (set_db_ops f w);
  tol_llm : forall f w, R w (set_llm_calls f w);
  tol_doc : forall f w, R w (set_doc_calls f w);
  tol_http : forall f w, R w (set_http_calls f w);
  tol_sleeps : forall f w, R w (set_sleeps f w);
  tol_reports : forall f w, R w (set_reports f w);
  tol_tasks : forall f w, R w (set_tasks f w);
  tol_log : forall msg arg w,
    msg <> "Generating report for paper"%string ->
    R w (set_log (fun l => l ++ [{| log_msg := msg; log_arg := arg |}]) w)
}.

(** Between [w] and [w'] each row is unchanged or, if it is one of [S], has
    at most changed its status; rows are neither added nor removed. *)
Definition rows_evolve (S : nat -> Prop) (w w' : World) : Prop :=
  forall j, papers w' !! j = papers w !! j
            \/ (S j /\ exists p s, papers w !! j = Some p
                                    /\ papers w' !! j = Some (with_status s p)).

(** The log has grown by records that start no analysis. *)
Definition log_quiet (w w' : World) : Prop :=
  exists l, log w' = log w ++ l /\ attempted l = [].

Definition evolves (S : nat -> Prop) (w w' : World) : Prop :=
  rows_evolve S w w' /\ log_quiet w w'.

(** The identifier of the row at position [i]. *)
Definition pid_at (w : World) (i : nat) : str :=
  p_paper_id (default dummy_paper (papers w !! i)).

(** The identifiers a run of ingest stores, saves and meets again, given
    the identifiers in the store and those fetched, when no database
    operation fails: the new store, saved, duplicates. *)
Fixpoint ingest_ids (store fetched : list str) : list str * nat * nat :=
  match fetched with
  | [] => (store, 0%nat, 0%nat)
  | x :: rest =>
    if bool_decide (x ∈ store)
    then let '(s, a, d) := ingest_ids store rest in (s, a, S d)
    else let '(s, a, d) := ingest_ids (store ++ [x]) rest in (s, S a, d)
  end.

(** The number of records the ingest counters account for. *)
Definition count_total (c : CrawlCounts) : nat :=
  (saved_count c + duplicate_count c + failed_count c)%nat.

(** A value that is a string with at least one character. *)
Definition non_empty_string (v : json) : Prop :=
  exists s, v = JStr s /\ s <> [].

(** The outcome of one attempt of [generate_report] when the k-th LLM
    request, with these messages, is the one it makes. *)
Definition attempt_outcome (env : Env) (provider : str) (messages : list Message)
    (k : nat) : result LLMResult :=
  match llm_reply env k messages with
  | Raise e => Raise e
  | Ok response =>
    let json_str := extract_json_str (content response) in
    match json_loads env json_str with
    | inr e => Raise (parse_error json_str e)
    | inl report_content =>
      match _validate_report_content report_content with
      | Raise e => Raise e
      | Ok _ => Ok {| lr_content := report_content;
                      lr_generation_time := elapsed response;
                      lr_token_usage := usage response;
                      lr_llm_provider := provider;
                      lr_llm_model := llm_model_of (settings env) provider |}
      end
    end
  end.

End Vocabulary.
Export Vocabulary.

(** ** Concrete environments and worlds *)

Module Fixtures.

Definition settings0 : Settings :=
  {| crawler_max_retries := 3; crawler_retry_delay := 5;
     llm_default_provider := lit "openai";
     llm_model_of := fun _ => lit "gpt-4" |}.

Definition raw_paper (pid : string) : RawPaper :=
  {| rp_paper_id := lit pid; rp_title := lit "A title"; rp_authors := [lit "Unknown"];
     rp_abstract := lit "No abstract available"; rp_publication_date := None;
     rp_source := lit "HUGGINGFACE"; rp_pdf_url := None; rp_categories := None;
     rp_raw_data := JObj [] |}.

Definition paper_row (k : nat) (pid st : string) : Paper :=
  {| p_id := k; p_paper_id := lit pid; p_title := lit "A title";
     p_authors := [lit "Unknown"]; p_abstract := lit "No abstract available";
     p_publication_date := None; p_source := lit "HUGGINGFACE"; p_pdf_url := None;
     p_categories := None; p_raw_data := JObj []; p_status := lit st |}.

(** A well-formed answer: the seven fields in a tagged fenced block. *)
Definition good_answer : str :=
  qlit "```json
{'core_summary': 'a', 'research_background': 'b', 'technical_innovation': 'c',
 'experiments_results': 'd', 'application_value': 'e', 'limitations': 'f',
 'recommended_audience': 'g'}
```".

Definition reply (c : str) : result LLMResponse :=
  Ok {| content := c; usage := None; elapsed := 3 |}.

(** The error with which the k-th database operation fails. *)
Definition db_error (k : nat) : exn :=
  {| exc_cls := SQLAlchemyError;
     exc_text := lit "database operation " ++ str_of_nat k ++ lit " failed" |}.

(** Everything works; the page lists A, B and C. *)
Definition env_ok : Env :=
  {| db_fault := fun _ => None;
     llm_reply := fun _ _ => reply good_answer;
     doc_reply := fun _ => Ok (lit "reports/2024/01/x.md");
     http_reply := fun _ => Ok [raw_paper "A"; raw_paper "B"; raw_paper "C"];
     json_loads := loads; now := 7%N; settings := settings0 |}.

(** As [env_ok], but the database operations listed in [bad] raise and the
    LLM answers [answers] in turn (then well-formed answers). *)
Definition env_with (bad : list nat) (answers : list str) : Env :=
  {| db_fault := fun k => if bool_decide (k ∈ bad) then Some (db_error k) else None;
     llm_reply := fun k _ => reply (default good_answer (answers !! k));
     doc_reply := doc_reply env_ok; http_reply := http_reply env_ok;
     json_loads := loads; now := 7%N; settings := settings0 |}.

Definition world_of (ps : list Paper) : World :=
  {| papers := ps; reports := []; tasks := []; db_ops := 0; llm_calls := 0;
     doc_calls := 0; http_calls := 0; sleeps := []; log := [] |}.

(** A store that holds paper A, and the records A, B and C as fetched. *)
Definition world_a : World := world_of [paper_row 1 "A" "NEW"].

Definition fetched_abc : list PaperCreate :=
  map convert_to_paper_schema [raw_paper "A"; raw_paper "B"; raw_paper "C"].

End Fixtures.
Export Fixtures.

(** The first [n] fetches fail with an HTTP error, the next with a
    read timeout, the following ones succeed. *)
Definition env_flaky (n : nat) : Env :=
  {| db_fault := fun _ => None;
     llm_reply := fun _ _ => Fixtures.reply Fixtures.good_answer;
     doc_reply := fun _ => Ok (lit "reports/2024/01/x.md");
     http_reply := fun k =>
       if (k <? n)%nat
       then Raise {| exc_cls := HTTPError; exc_text := lit "503 Service Unavailable" |}
       else if (k =? n)%nat
            then Raise {| exc_cls := TimeoutException; exc_text := lit "read timed out" |}
            else Ok [Fixtures.raw_paper "A"];
     json_loads := loads; now := 7%N; settings := Fixtures.settings0 |}.

(** ** The crawl route *)

(** [app/schemas/schemas.py], [CrawlPapersRequest] and
    [CrawlPapersResponse]. *)
Record CrawlPapersRequest := {
  creq_source : str;
  creq_limit : option Z
}.

Record CrawlPapersResponse := {
  cresp_task_id : nat;
  cresp_message : str;
  cresp_status : str
}.

Section Routes.

Variable env : Env.

(** [TaskModel(task_type="CRAWL", status="RUNNING", trigger_type="MANUAL")]. *)
Definition crawl_task (k : nat) : Task :=
  {| t_id := k; t_task_type := lit "CRAWL"; t_status := lit "RUNNING";
     t_trigger_type := lit "MANUAL"; t_end_time := None;
     t_result_summary := None; t_error_message := None |}.

(** [app/api/routes.py], POST /tasks/crawl. *)
Definition crawl_papers (request : CrawlPapersRequest) : M CrawlPapersResponse :=
  logger "Manual crawl task triggered" (creq_source request) ;;
  task <- flush_new_task env crawl_task ;;
  try_except
    (result <- crawl_and_save_papers env (creq_source request) None
                 (creq_limit request) ;;
     update_task task
       (finish_task env (lit "SUCCESS")
          (Some (CrawlSummary (total_crawled result) (saved result)
                   (duplicates result) (failed result))) None) ;;
     db_op env ;;
     ret {| cresp_task_id := S task;
            cresp_message := lit "Crawled " ++ str_of_nat (saved result)
                               ++ lit " new papers";
            cresp_status := lit "SUCCESS" |})
    (fun e =>
       update_task task (finish_task env (lit "FAILED") None (Some (exc_text e))) ;;
       db_op env ;;
       logger "Crawl task failed" (exc_text e) ;;
       raise {| exc_cls := HTTPException 500;
                exc_text := lit "Crawl failed: " ++ exc_text e |}).

End Routes.

(** ** The page parser of the crawler *)

(** [s.split(sep)] for a separator of one code point. *)
Fixpoint split_on (sep : N) (s : str) : list str :=
  match s with
  | [] => [[]]
  | c :: s' =>
    if (c =? sep)%N then [] :: split_on sep s'
    else match split_on sep s' with
         | [] => [[c]]
         | x :: l => (c :: x) :: l
         end
  end.

(** Truthiness of a string. *)
Definition nonempty (s : str) : bool :=
  match s with [] => false | _ :: _ => true end.

(** Truthiness of a list. *)
Definition nonempty_list {A} (l : list A) : bool :=
  match l with [] => false | _ :: _ => true end.

(** What the BeautifulSoup queries of [_parse_paper_article] find in one
    article element: the [href] of the first link to arxiv.org, the text
    of the first [h3] and [h2], of the first paragraph whose class matches
    author and abstract|description, and of every span whose class matches
    tag|badge. Texts are as [get_text(strip=True)] returns them. *)
Record Article := {
  arxiv_href : option str;
  h3_text : option str;
  h2_text : option str;
  authors_text : option str;
  abstract_text : option str;
  tag_texts : list str
}.

Section PageParser.

(** The code points above ASCII that [\d] matches. *)
Variable unicode_decimal : N -> bool.

Variable env : Env.

Definition is_decimal (c : N) : bool :=
  is_digit c || ((128 <=? c)%N && unicode_decimal c).

(** A match of the pattern \d{4}\.\d{4,5} at the start of [s]; the last
    quantifier is greedy. *)
Definition match_arxiv_id (s : str) : option str :=
  match s with
  | a :: b :: c :: d :: dot :: e :: f :: g :: h :: rest =>
    if is_decimal a && is_decimal b && is_decimal c && is_decimal d
       && (dot =? 46)%N
       && is_decimal e && is_decimal f && is_decimal g && is_decimal h
    then Some ([a; b; c; d; dot; e; f; g; h]
                 ++ match rest with
                    | i :: _ => if is_decimal i then [i] else []
                    | [] => []
                    end)
    else None
  | _ => None
  end.

(** [re.search] with that pattern: the leftmost match, group 1. *)
Fixpoint search_arxiv_id (s : str) : option str :=
  match match_arxiv_id s with
  | Some m => Some m
  | None =>
    match s with
    | [] => None
    | _ :: s' => search_arxiv_id s'
    end
  end.

Definition BASE_URL : str := lit "https://huggingface.co/papers".

(** [app/services/crawler.py], [_parse_paper_article]; its [except] clause
    is not reached by these statements. *)
Definition _parse_paper_article (article : Article) : option RawPaper :=
  match arxiv_href article with
  | None => None
  | Some arxiv_url =>
    match search_arxiv_id arxiv_url with
    | None => None
    | Some paper_id =>
      let title :=
        default [] (match h3_text article with
                    | Some t => Some t
                    | None => h2_text article
                    end) in
      let authors_text := default [] (authors_text article) in
      let authors := List.filter nonempty (map strip (split_on 44 authors_text)) in
      let abstract := default [] (abstract_text article) in
      let pdf_url := lit "https://arxiv.org/pdf/" ++ paper_id ++ lit ".pdf" in
      let categories := List.filter nonempty (tag_texts article) in
      Some {| rp_paper_id := lit "arxiv-" ++ paper_id;
              rp_title := title;
              rp_authors := if nonempty_list authors then authors else [lit "Unknown"];
              rp_abstract := if nonempty abstract then abstract
                             else lit "No abstract available";
              rp_publication_date := Some (now env);
              rp_source := lit "HUGGINGFACE";
              rp_pdf_url := Some pdf_url;
              rp_categories := if nonempty_list categories then Some categories else None;
              rp_raw_data := JObj [(lit "arxiv_id", JStr paper_id);
                                   (lit "arxiv_url", JStr arxiv_url);
                                   (lit "huggingface_url", JStr BASE_URL)] |}
    end
  end.

(** [_parse_papers_page]: [articles] is what the first [find_all] returns,
    [fallback] what the second one would. *)
Definition _parse_papers_page (articles fallback : list Article) : list RawPaper :=
  let paper_articles := match articles with [] => fallback | _ :: _ => articles end in
  omap _parse_paper_article paper_articles.

End PageParser.

(** An arXiv identifier as the pattern matches it: four digits, a dot,
    four or five digits. *)
Definition arxiv_id_shape (decimal : N -> bool) (m : str) : Prop :=
  (length m = 9%nat \/ length m = 10%nat)
  /\ m !! 4%nat = Some 46%N
  /\ forall k c, m !! k = Some c -> k <> 4%nat -> decimal c = true.

(** ** File names and paths of the document writer *)

(** A [datetime], as far as the writer reads it. *)
Record Date := { d_year : nat; d_month : nat; d_day : nat }.

(** A [pathlib.Path] on POSIX: whether it is absolute, and its parts. *)
Record Path := { absolute : bool; parts : list str }.

(** The parts of a path string: empty parts and "." are dropped. *)
Definition path_parts (s : str) : list str :=
  List.filter (fun x => nonempty x && negb (str_eqb x (lit "."))) (split_on 47 s).

(** [p / s]: an absolute [s] replaces [p]. *)
Definition path_div (p : Path) (s : str) : Path :=
  match s with
  | 47%N :: _ => {| absolute := true; parts := path_parts s |}
  | _ => {| absolute := absolute p; parts := parts p ++ path_parts s |}
  end.

(** The ASCII code points [\w] matches. *)
Definition ascii_word (c : N) : bool :=
  (is_digit c || (65 <=? c) && (c <=? 90) || (97 <=? c) && (c <=? 122)
   || (c =? 95))%N.

(** [f"{n:02d}"]. *)
Definition pad2 (n : nat) : str :=
  let s := str_of_nat n in
  if (length s <? 2)%nat then lit "0" ++ s else s.

Section DocumentGenerator.

(** The code points above ASCII that [\w] matches, [str.lower], and
    [date.strftime("%Y%m%d")]. *)
Variable unicode_word : N -> bool.
Variable lower : str -> str.
Variable strftime_Ymd : Date -> str.

(** [datetime.now()], [settings.storage.reports_path] and the outcome of
    [mkdir(parents=True, exist_ok=True)]. *)
Variable today : Date.
Variable reports_path : Path.
Variable mkdir : Path -> result unit.

Definition is_word (c : N) : bool :=
  if (c <? 128)%N then ascii_word c else unicode_word c.

(** [re.sub(r"[^\w\-]", "_", s)]. *)
Definition clean_id (s : str) : str :=
  map (fun c => if is_word c || (c =? 45)%N then c else 95%N) s.

(** [re.findall(r"\w+", s)]: the maximal runs of word characters. *)
Fixpoint findall_words (s : str) : list str :=
  match s with
  | [] => []
  | c :: s' =>
    let rest := findall_words s' in
    if is_word c then
      match s', rest with
      | d :: _, w :: ws => if is_word d then (c :: w) :: ws else [c] :: rest
      | _, _ => [c] :: rest
      end
    else rest
  end.

(** [MarkdownGenerator.generate_filename]. *)
Definition generate_filename (paper_id title : str) (publication_date : option Date)
  : str :=
  let date := default today publication_date in
  let date_str := strftime_Ymd date in
  let clean_paper_id := clean_id paper_id in
  let title_words := findall_words (lower title) in
  let keywords := slice (join (lit "_") (take 3 title_words)) 0 30 in
  date_str ++ lit "_" ++ clean_paper_id ++ lit "_" ++ keywords ++ lit ".md".

(** [MarkdownGenerator.generate_filepath]. *)
Definition generate_filepath (filename : str) (publication_date : option Date)
  : result Path :=
  let date := default today publication_date in
  let year := str_of_nat (d_year date) in
  let month := pad2 (d_month date) in
  let report_dir := path_div (path_div reports_path year) month in
  match mkdir report_dir with
  | Raise e => Raise e
  | Ok _ => Ok (path_div report_dir filename)
  end.

End DocumentGenerator.

(** ** The providers of [app/core/config.py] *)

(** What [get_provider_config] returns. *)
Record ProviderConfig := {
  cfg_api_key : str;
  cfg_api_base : str;
  cfg_model : str;
  cfg_temperature : str;
  cfg_max_tokens : Z
}.

(** [LLMSettings]. *)
Record LLMSettings := {
  default_provider : str;
  openai : ProviderConfig;
  qwen : ProviderConfig;
  zhipu : ProviderConfig;
  kimi : ProviderConfig
}.

(** [configs.get(provider, configs["openai"])]. *)
Definition get_provider_config (llm : LLMSettings) (provider : str) : ProviderConfig :=
  if str_eqb provider (lit "openai") then openai llm
  else if str_eqb provider (lit "qwen") then qwen llm
  else if str_eqb provider (lit "zhipu") then zhipu llm
  else if str_eqb provider (lit "kimi") then kimi llm
  else openai llm.

(** The settings the orchestration core reads, given those of the LLM
    and of the crawler. *)
Definition settings_of (llm : LLMSettings) (max_retries retry_delay : Z) : Settings :=
  {| crawler_max_retries := max_retries; crawler_retry_delay := retry_delay;
     llm_default_provider := default_provider llm;
     llm_model_of := fun provider => cfg_model (get_provider_config llm provider) |}.

(** The defaults of [LLMSettings], and an environment configured with
    them in which everything works. *)
Definition llm_defaults : LLMSettings :=
  {| default_provider := lit "openai";
     openai := {| cfg_api_key := []; cfg_api_base := lit "https://api.openai.com/v1";
                  cfg_model := lit "gpt-4"; cfg_temperature := lit "0.7";
                  cfg_max_tokens := 4000 |};
     qwen := {| cfg_api_key := [];
                cfg_api_base := lit "https://dashscope.aliyuncs.com/api/v1";
                cfg_model := lit "qwen-max"; cfg_temperature := lit "0.7";
                cfg_max_tokens := 4000 |};
     zhipu := {| cfg_api_key := [];
                 cfg_api_base := lit "https://open.bigmodel.cn/api/paas/v4";
                 cfg_model := lit "glm-4"; cfg_temperature := lit "0.7";
                 cfg_max_tokens := 4000 |};
     kimi := {| cfg_api_key := []; cfg_api_base := lit "https://api.moonshot.cn/v1";
                cfg_model := lit "moonshot-v1-8k"; cfg_temperature := lit "0.7";
                cfg_max_tokens := 4000 |} |}.

Definition env_defaults : Env :=
  {| db_fault := fun _ => None;
     llm_reply := fun _ _ => Fixtures.reply Fixtures.good_answer;
     doc_reply := fun _ => Ok (lit "reports/2024/01/x.md");
     http_reply := fun _ => Ok [Fixtures.raw_paper "A"];
     json_loads := loads; now := 7%N; settings := settings_of llm_defaults 3 5 |}.

(** ** Frames *)

Module Frames.

(** Two worlds agree on what [f] reads. *)
Definition keeps {A} (f : World -> A) (w w' : World) : Prop := f w' = f w.

(** The report rows a run has added. *)
Definition added_reports (w w' : World) : list Report :=
  drop (length (reports w)) (reports w').

(** A decoded value that validation accepts: an object that has the seven
    required keys and in which every value is a string with a character
    that is not white space. *)
Definition valid_content (v : json) : Prop :=
  exists d, v = JObj d
            /\ (forall k, k ∈ required_fields -> k ∈ map fst d)
            /\ (forall k x, (k, x) ∈ d -> exists s, x = JStr s /\ strip s <> []).

(** The delays of the first [n] retries of a decorator with base delay
    [d], from attempt number [k] on. *)
Fixpoint backoff (d : Z) (k : Z) (n : nat) : list Z :=
  match n with
  | O => []
  | S n' => wait_exponential d d 60 k :: backoff d (k + 1) n'
  end.

End Frames.
Export Frames.

(** * Theorems *)

(** ** The strings *)

Example find_ex1 : find (lit "ab```json{}```") (lit "```") 0 = 2.
Proof. reflexivity. Qed.

Example find_ex2 : find (lit "ab```json{}```") (lit "```") 9 = 11.
Proof. reflexivity. Qed.

Example slice_ex1 : slice (lit "abcdef") 2 (-1) = lit "cde".
Proof. reflexivity. Qed.

Example strip_ex1 : strip (lit "  a b  ") = lit "a b".
Proof. reflexivity. Qed.

Example repr_ex1 : repr_list [lit "a"; lit "b"] = lit "['a', 'b']".
Proof. reflexivity. Qed.

Example loads_ex1 :
  loads (qlit "{'a': 'x', 'b': [1, 2.5e3, true, null], 'a': 'y'}")
  = inl (JObj [(lit "a", JStr (lit "y"));
               (lit "b", JArr [JNum (lit "1"); JNum (lit "2.5e3"); JBool true; JNull])]).
Proof. vm_compute. reflexivity. Qed.

Example loads_ex2 : loads (lit "oops") = jerr "Expecting value" 0.
Proof. vm_compute. reflexivity. Qed.

Example lit_ex1 : lit "未分类" = [26410; 20998; 31867]%N.
Proof. reflexivity. Qed.

Example report_messages_ex1 :
  match report_messages (lit "T") [lit "a"; lit "b"; lit "c"; lit "d"; lit "e"; lit "f"]
          (lit "abstract") (lit "HUGGINGFACE") None with
  | [SystemMessage _; HumanMessage prompt] =>
    contains (lit "- 作者：a, b, c, d, e et al.") prompt
    && contains (lit "- 分类：未分类") prompt
  | _ => false
  end = true.
Proof. vm_compute. reflexivity. Qed.

(** ** Running computations *)

Lemma bind_ok {A B} (m : M A) (k : A -> M B) w w1 a :
  m w = (w1, Ok a) -> bind m k w = k a w1.
Proof. intros H. unfold bind. by rewrite H. Qed.

Lemma bind_raise {A B} (m : M A) (k : A -> M B) w w1 e :
  m w = (w1, Raise e) -> bind m k w = (w1, Raise e).
Proof. intros H. unfold bind. by rewrite H. Qed.

Lemma bind_inv_ok {A B} (m : M A) (k : A -> M B) w w' b :
  bind m k w = (w', Ok b) ->
  exists w1 a, m w = (w1, Ok a) /\ k a w1 = (w', Ok b).
Proof.
  unfold bind. destruct (m w) as [w1 [a | e]]; [| done]. intros H. by exists w1, a.
Qed.

Lemma logger_run msg arg w :
  logger msg arg w
  = (set_log (fun l => l ++ [{| log_msg := msg; log_arg := arg |}]) w, Ok tt).
Proof. reflexivity. Qed.

Lemma sleep_run d w : sleep d w = (set_sleeps (fun l => l ++ [d]) w, Ok tt).
Proof. reflexivity. Qed.

Lemma try_except_ok {A} (m : M A) (h : exn -> M A) w w1 a :
  m w = (w1, Ok a) -> try_except m h w = (w1, Ok a).
Proof. intros H. unfold try_except. by rewrite H. Qed.

Lemma try_except_raise {A} (m : M A) (h : exn -> M A) w w1 e :
  m w = (w1, Raise e) -> try_except m h w = h e w1.
Proof. intros H. unfold try_except. by rewrite H. Qed.

(** ** Stability of computations *)

Section Stability.

Context {R : World -> World -> Prop} `{!PreOrder R}.

Lemma stable_ret {A} (a : A) : stable R (ret a).
Proof. intros w. simpl. reflexivity. Qed.

Lemma stable_raise {A} (e : exn) : stable R (@raise A e).
Proof. intros w. simpl. reflexivity. Qed.

Lemma stable_get {A} (f : World -> A) : stable R (get f).
Proof. intros w. simpl. reflexivity. Qed.

Lemma stable_lift {A} (r : result A) : stable R (lift_result r).
Proof. intros w. simpl. reflexivity. Qed.

Lemma stable_modify (f : World -> World) :
  (forall w, R w (f w)) -> stable R (modify f).
Proof. intros H w. simpl. apply H. Qed.

Lemma stable_bind {A B} (m : M A) (k : A -> M B) :
  stable R m -> (forall a, stable R (k a)) -> stable R (bind m k).
Proof.
  intros Hm Hk w. unfold bind. specialize (Hm w).
  destruct (m w) as [w1 [a | e]]; simpl in *.
  - etransitivity; [exact Hm | apply Hk].
  - exact Hm.
Qed.

Lemma stable_try_except {A} (m : M A) (h : exn -> M A) :
  stable R m -> (forall e, stable R (h e)) -> stable R (try_except m h).
Proof.
  intros Hm Hh w. unfold try_except. specialize (Hm w).
  destruct (m w) as [w1 [a | e]]; simpl in *.
  - exact Hm.
  - etransitivity; [exact Hm | apply Hh].
Qed.

Lemma stable_for_each {A S} (l : list A) (body : S -> A -> M S) :
  (forall s x, stable R (body s x)) -> forall s, stable R (for_each l body s).
Proof.
  intros Hb. induction l as [| x l IH]; intros s; simpl.
  - apply stable_ret.
  - apply stable_bind; [apply Hb | intros s'; apply IH].
Qed.

Hypothesis tol : Tolerant R.

Variable env : Env.

Lemma stable_logger msg arg :
  msg <> "Generating report for paper"%string -> stable R (logger msg arg).
Proof. intros H. apply stable_modify. intros w. by apply tol_log. Qed.

Lemma stable_db_op : stable R (db_op env).
Proof.
  intros w. unfold db_op. destruct (db_fault env (db_ops w)); simpl; apply tol_db; done.
Qed.

Lemma stable_ainvoke messages : stable R (ainvoke env messages).
Proof. intros w. unfold ainvoke. simpl. by apply tol_llm. Qed.

Lemma stable_sleep d : stable R (sleep d).
Proof. apply stable_modify. intros w. by apply tol_sleeps. Qed.

Lemma stable_retrying {A} (func : M A) exceptions :
  stable R func ->
  forall more retry_delay attempt_number,
    stable R (retrying more retry_delay attempt_number exceptions func).
Proof.
  intros Hf more. induction more as [| more IH]; intros d n; simpl.
  - apply stable_try_except; [done |]. intros e.
    destruct (isinstance e exceptions); apply stable_raise.
  - apply stable_try_except; [done |]. intros e.
    destruct (isinstance e exceptions); [| apply stable_raise].
    apply stable_bind; [by apply stable_logger |]. intros _.
    apply stable_bind; [apply stable_sleep |]. intros _. apply IH.
Qed.

Lemma stable_parse response : stable R (_parse_llm_response env response).
Proof.
  unfold _parse_llm_response.
  destruct (json_loads env (extract_json_str response)).
  - apply stable_ret.
  - apply stable_bind; [by apply stable_logger | intros _; apply stable_raise].
Qed.

Lemma stable_generate_report_attempt provider title authors abstract source categories :
  stable R (generate_report_attempt env provider title authors abstract source categories).
Proof.
  unfold generate_report_attempt. cbv zeta.
  apply stable_bind; [by apply stable_logger |]. intros _.
  apply stable_try_except.
  - apply stable_bind; [apply stable_ainvoke |]. intros r.
    apply stable_bind; [apply stable_parse |]. intros c.
    apply stable_bind; [apply stable_lift |]. intros _.
    apply stable_bind; [by apply stable_logger |]. intros _. apply stable_ret.
  - intros e. apply stable_bind; [by apply stable_logger |]. intros _.
    apply stable_raise.
Qed.

Lemma stable_generate_paper_report paper provider :
  stable R (generate_paper_report env paper provider).
Proof.
  unfold generate_paper_report, generate_report, async_retry.
  apply stable_retrying, stable_generate_report_attempt.
Qed.

Lemma stable_create_markdown_report paper c m :
  stable R (create_markdown_report env paper c m).
Proof.
  unfold create_markdown_report.
  apply stable_bind.
  - intros w. simpl. by apply tol_doc.
  - intros r. apply stable_bind; [by apply stable_logger | intros _; apply stable_ret].
Qed.

Lemma stable_flush_new_report mk : stable R (flush_new_report env mk).
Proof.
  unfold flush_new_report.
  apply stable_bind; [apply stable_db_op |]. intros _.
  apply stable_bind; [apply stable_get |]. intros i.
  apply stable_bind; [| intros _; apply stable_ret].
  apply stable_modify. intros w. by apply tol_reports.
Qed.

Lemma stable_paper_at i : stable R (paper_at i).
Proof. apply stable_get. Qed.

End Stability.

(** ** How the rows and the log evolve *)

Lemma attempted_app (l1 l2 : list LogRecord) :
  attempted (l1 ++ l2) = attempted l1 ++ attempted l2.
Proof. unfold attempted. by rewrite List.filter_app, map_app. Qed.

Lemma attempted_quiet msg arg :
  msg <> "Generating report for paper"%string ->
  attempted [{| log_msg := msg; log_arg := arg |}] = [].
Proof.
  intros H. unfold attempted. simpl.
  destruct (String.eqb_spec msg "Generating report for paper"); [done | reflexivity].
Qed.

Lemma rows_evolve_refl S w : rows_evolve S w w.
Proof. intros j. by left. Qed.

Lemma rows_evolve_trans S w1 w2 w3 :
  rows_evolve S w1 w2 -> rows_evolve S w2 w3 -> rows_evolve S w1 w3.
Proof.
  intros H12 H23 j.
  destruct (H12 j) as [E12 | (HS & p & s & Ep & Ep')];
    destruct (H23 j) as [E23 | (HS' & p' & s' & Eq & Eq')].
  - left. congruence.
  - right. split; [done |]. exists p', s'. split; congruence.
  - right. split; [done |]. exists p, s. split; congruence.
  - right. split; [done |]. exists p, s'. split; [done |].
    rewrite Eq'. assert (p' = with_status s p) as -> by congruence. reflexivity.
Qed.

Lemma rows_evolve_same S w w' : papers w' = papers w -> rows_evolve S w w'.
Proof. intros E j. left. by rewrite E. Qed.

Lemma rows_evolve_mono (S S' : nat -> Prop) w w' :
  (forall j, S j -> S' j) -> rows_evolve S w w' -> rows_evolve S' w w'.
Proof.
  intros HS H j. destruct (H j) as [E | (Hj & p & s & Ep & Ep')]; [by left |].
  right. split; [by apply HS |]. by exists p, s.
Qed.

Lemma rows_evolve_outside S w w' j :
  rows_evolve S w w' -> ~ S j -> papers w' !! j = papers w !! j.
Proof. intros H Hj. destruct (H j) as [E | (? & _)]; done. Qed.

Lemma rows_evolve_paper_id S w w' j :
  rows_evolve S w w' -> pid_at w' j = pid_at w j.
Proof.
  intros H. unfold pid_at.
  destruct (H j) as [E | (_ & p & s & Ep & Ep')]; [by rewrite E |].
  by rewrite Ep, Ep'.
Qed.

Lemma rows_evolve_is_Some S w w' j :
  rows_evolve S w w' -> is_Some (papers w' !! j) <-> is_Some (papers w !! j).
Proof.
  intros H. destruct (H j) as [E | (_ & p & s & Ep & Ep')]; [by rewrite E |].
  rewrite Ep, Ep'. split; eauto.
Qed.

Lemma rows_evolve_length S w w' :
  rows_evolve S w w' -> length (papers w') = length (papers w).
Proof.
  intros H.
  assert (forall j, (j < length (papers w'))%nat <-> (j < length (papers w))%nat) as Hlt.
  { intros j. rewrite <- !lookup_lt_is_Some. by eapply rows_evolve_is_Some. }
  destruct (Nat.lt_trichotomy (length (papers w')) (length (papers w))) as [Hl | [Hl | Hl]].
  - apply Hlt in Hl. lia.
  - done.
  - apply Hlt in Hl. lia.
Qed.

Lemma rows_evolve_nowhere w w' :
  rows_evolve (fun _ => False) w w' -> papers w' = papers w.
Proof.
  intros H. apply list_eq. intros j.
  eapply rows_evolve_outside; [exact H | tauto].
Qed.

Lemma log_quiet_attempted w w' :
  log_quiet w w' -> attempted (log w') = attempted (log w).
Proof.
  intros (l & -> & Hl). by rewrite attempted_app, Hl, app_nil_r.
Qed.

#[local] Instance evolves_preorder S : PreOrder (evolves S).
Proof.
  split.
  - intros w. split; [apply rows_evolve_refl |]. exists []. by rewrite app_nil_r.
  - intros w1 w2 w3 [Hr12 (l1 & E1 & Q1)] [Hr23 (l2 & E2 & Q2)]. split.
    + by eapply rows_evolve_trans.
    + exists (l1 ++ l2). rewrite E2, E1, <- app_assoc. split; [done |].
      by rewrite attempted_app, Q1, Q2.
Qed.

Lemma evolves_tolerant S : Tolerant (evolves S).
Proof.
  split; intros; (split; [by apply rows_evolve_same |]);
    try (exists []; simpl; by rewrite app_nil_r).
  eexists. split; [reflexivity |]. by apply attempted_quiet.
Qed.

Lemma set_status_evolves (S : nat -> Prop) i s :
  S i -> stable (evolves S) (set_status i s).
Proof.
  intros Hi w. unfold set_status. simpl. split.
  - intros j. simpl. destruct (decide (j = i)) as [-> | Hne].
    + rewrite list_lookup_alter_eq. destruct (papers w !! i) as [p |] eqn:E.
      * right. split; [done |]. by exists p, s.
      * by left.
    + left. apply list_lookup_alter_ne. congruence.
  - exists []. simpl. by rewrite app_nil_r.
Qed.

(** ** Single-paper analysis *)

Section SingleReport.

Variable env : Env.

Lemma generate_paper_report_papers paper provider w :
  papers (fst (generate_paper_report env paper provider w)) = papers w.
Proof.
  apply rows_evolve_nowhere.
  apply (stable_generate_paper_report (evolves_tolerant (fun _ => False))).
Qed.

Lemma create_markdown_report_papers paper c m w :
  papers (fst (create_markdown_report env paper c m w)) = papers w.
Proof.
  apply rows_evolve_nowhere.
  apply (stable_create_markdown_report (evolves_tolerant (fun _ => False))).
Qed.

Lemma analysis_steps_evolves i provider :
  stable (evolves (eq i)) (analysis_steps env i provider).
Proof.
  pose proof (evolves_tolerant (eq i)) as T.
  unfold analysis_steps.
  apply stable_bind; [apply stable_paper_at |]. intros pd.
  apply stable_bind; [by apply stable_generate_paper_report |]. intros llm.
  apply stable_bind; [by apply stable_create_markdown_report |]. intros fp.
  apply stable_bind; [by apply set_status_evolves |]. intros _.
  apply stable_bind; [by apply stable_flush_new_report |]. intros rp.
  apply stable_bind; [by apply stable_logger | intros _; apply stable_ret].
Qed.

Lemma analysis_failed_evolves i e :
  stable (evolves (eq i)) (analysis_failed env i e).
Proof.
  pose proof (evolves_tolerant (eq i)) as T.
  unfold analysis_failed.
  apply stable_bind; [by apply set_status_evolves |]. intros _.
  apply stable_bind; [by apply stable_db_op |]. intros _.
  apply stable_bind; [by apply stable_logger | intros _; apply stable_raise].
Qed.

(** When the [try] block returns, the row is COMPLETED. *)
Lemma analysis_steps_completed i provider w w' report p :
  papers w !! i = Some p ->
  analysis_steps env i provider w = (w', Ok report) ->
  papers w' !! i = Some (with_status (lit "COMPLETED") p).
Proof.
  intros Hp H. unfold analysis_steps in H.
  apply bind_inv_ok in H as (w0 & pd & H0 & H). injection H0 as <- <-.
  apply bind_inv_ok in H as (w1 & llm & H1 & H).
  apply bind_inv_ok in H as (w2 & fp & H2 & H).
  apply bind_inv_ok in H as (w3 & [] & H3 & H). injection H3 as <-.
  apply bind_inv_ok in H as (w4 & rp & H4 & H).
  apply bind_inv_ok in H as (w5 & [] & H5 & H). injection H5 as <-. injection H as <- _.
  pose proof (generate_paper_report_papers (default dummy_paper (papers w !! i)) provider w) as E1.
  rewrite H1 in E1. simpl in E1.
  pose proof (create_markdown_report_papers (default dummy_paper (papers w !! i))
                (lr_content llm) (lr_llm_model llm) w1) as E2.
  rewrite H2 in E2. simpl in E2.
  pose proof (stable_flush_new_report (evolves_tolerant (fun _ => False)) env
                (fun k => {| r_id := k; r_paper_id := p_id (default dummy_paper (papers w !! i));
                             r_llm_provider := lr_llm_provider llm;
                             r_llm_model := lr_llm_model llm;
                             r_report_content := lr_content llm;
                             r_markdown_path := fp;
                             r_generation_time := Some (lr_generation_time llm);
                             r_token_usage := lr_token_usage llm;
                             r_status := lit "SUCCESS" |})
                (set_papers (alter (with_status (lit "COMPLETED")) i) w2)) as [E4 _].
  rewrite H4 in E4. apply rows_evolve_nowhere in E4. simpl in E4.
  simpl. rewrite E4, list_lookup_alter_eq, E2, E1, Hp. reflexivity.
Qed.

(** The handler leaves the row FAILED, whatever its flush does, and raises:
    the error it was given or, if its flush raises, that one. *)
Lemma analysis_failed_spec i e w p :
  papers w !! i = Some p ->
  papers (fst (analysis_failed env i e w)) !! i = Some (with_status (lit "FAILED") p)
  /\ match db_fault env (db_ops w) with
     | None => snd (analysis_failed env i e w) = Raise e
     | Some e' => snd (analysis_failed env i e w) = Raise e'
     end.
Proof.
  intros Hp. unfold analysis_failed, bind, set_status, modify, db_op. simpl.
  destruct (db_fault env (db_ops w)); simpl;
    rewrite list_lookup_alter_eq, Hp; done.
Qed.

(** The prologue: when its flush succeeds the row is PROCESSING. *)
Lemma analysis_prologue_ok i w p :
  papers w !! i = Some p ->
  db_fault env (db_ops w) = None ->
  exists w1, analysis_prologue env i w = (w1, Ok tt)
             /\ papers w1 !! i = Some (with_status (lit "PROCESSING") p).
Proof.
  intros Hp Hdb. unfold analysis_prologue, bind, paper_at, get, logger, set_status,
    modify, db_op. simpl. rewrite Hdb. eexists. split; [reflexivity |].
  simpl. by rewrite list_lookup_alter_eq, Hp.
Qed.

(** When its flush raises, the row stays PROCESSING and the call raises. *)
Lemma analysis_prologue_fault i provider w p e :
  papers w !! i = Some p ->
  db_fault env (db_ops w) = Some e ->
  status_at (fst (_generate_single_report env i provider w)) i = Some (lit "PROCESSING")
  /\ snd (_generate_single_report env i provider w) = Raise e.
Proof.
  intros Hp Hdb. unfold _generate_single_report, analysis_prologue, bind, paper_at,
    get, logger, set_status, modify, db_op, status_at. simpl. rewrite Hdb. simpl.
  by rewrite list_lookup_alter_eq, Hp.
Qed.

End SingleReport.

Section SingleReportFrame.

Variable env : Env.

Lemma analysis_prologue_frame i w :
  rows_evolve (eq i) w (fst (analysis_prologue env i w))
  /\ log (fst (analysis_prologue env i w))
     = log w ++ [{| log_msg := "Generating report for paper"; log_arg := pid_at w i |}].
Proof.
  unfold analysis_prologue, bind, paper_at, get, logger, modify, db_op. simpl.
  set (w0 := set_log _ w).
  pose proof (set_status_evolves (eq i) i (lit "PROCESSING") eq_refl w0) as [Hr _].
  unfold set_status, modify in *. simpl in *.
  destruct (db_fault env (db_ops w)); simpl; (split; [exact Hr | reflexivity]).
Qed.

(** Single-paper analysis changes at most the status of its own row and
    logs its start exactly once. *)
Lemma single_report_frame i provider w :
  rows_evolve (eq i) w (fst (_generate_single_report env i provider w))
  /\ attempted (log (fst (_generate_single_report env i provider w)))
     = attempted (log w) ++ [pid_at w i].
Proof.
  destruct (analysis_prologue_frame i w) as [Hr Hl].
  unfold _generate_single_report, bind.
  destruct (analysis_prologue env i w) as [w1 [[] | e]]; simpl in *.
  - assert (evolves (eq i) w1
              (fst (try_except (analysis_steps env i provider) (analysis_failed env i) w1)))
      as [Hr' Hl'].
    { apply stable_try_except; [apply analysis_steps_evolves |].
      intros e. apply analysis_failed_evolves. }
    split; [by eapply rows_evolve_trans |].
    rewrite (log_quiet_attempted _ _ Hl'), Hl, attempted_app. reflexivity.
  - split; [done |]. rewrite Hl, attempted_app. reflexivity.
Qed.

End SingleReportFrame.

(** C1, as amended: when the flush that publishes PROCESSING succeeds,
    single-paper analysis ends with the paper COMPLETED if the LLM
    generation, the document write and the report persistence all succeed,
    and with the paper FAILED and an error raised if any of them raises;
    the error raised is the original one, unless the flush of the handler
    raises, in which case it is that flush's error. *)
Theorem C1_single_report_status (env : Env) (i : nat) (provider : option str)
    (w : World) (p : Paper) :
  papers w !! i = Some p ->
  db_fault env (db_ops w) = None ->
  exists w1,
    analysis_prologue env i w = (w1, Ok tt)
    /\ status_at w1 i = Some (lit "PROCESSING")
    /\ match analysis_steps env i provider w1 with
       | (w2, Ok report) =>
         _generate_single_report env i provider w = (w2, Ok report)
         /\ status_at w2 i = Some (lit "COMPLETED")
       | (w2, Raise e) =>
         status_at (fst (_generate_single_report env i provider w)) i
           = Some (lit "FAILED")
         /\ snd (_generate_single_report env i provider w)
            = Raise (default e (db_fault env (db_ops w2)))
       end.
Proof.
  intros Hp Hdb.
  destruct (analysis_prologue_ok env i w p Hp Hdb) as (w1 & H1 & Hp1).
  exists w1. split; [done |]. split; [unfold status_at; by rewrite Hp1 |].
  unfold _generate_single_report. rewrite (bind_ok _ _ _ _ _ H1).
  destruct (analysis_steps env i provider w1) as [w2 [report | e]] eqn:Hs.
  - rewrite (try_except_ok _ _ _ _ _ Hs). split; [done |].
    unfold status_at. by rewrite (analysis_steps_completed env _ _ _ _ _ _ Hp1 Hs).
  - rewrite (try_except_raise _ _ _ _ _ Hs).
    destruct (analysis_steps_evolves env i provider w1) as [Hr _].
    rewrite Hs in Hr. simpl in Hr.
    assert (exists p2, papers w2 !! i = Some p2) as [p2 Hp2].
    { apply (rows_evolve_is_Some _ _ _ i Hr). eauto. }
    destruct (analysis_failed_spec env i e w2 p2 Hp2) as [Hf Hres].
    split; [unfold status_at; by rewrite Hf |].
    destruct (db_fault env (db_ops w2)); simpl; done.
Qed.

Lemma C1_single_report_status_witness :
  exists w1,
    analysis_prologue env_ok 0 (world_of [paper_row 1 "A" "NEW"]) = (w1, Ok tt)
    /\ status_at w1 0 = Some (lit "PROCESSING")
    /\ match analysis_steps env_ok 0 None w1 with
       | (w2, Ok report) =>
         _generate_single_report env_ok 0 None (world_of [paper_row 1 "A" "NEW"])
           = (w2, Ok report)
         /\ status_at w2 0 = Some (lit "COMPLETED")
       | (w2, Raise e) =>
         status_at (fst (_generate_single_report env_ok 0 None
                           (world_of [paper_row 1 "A" "NEW"]))) 0
           = Some (lit "FAILED")
         /\ snd (_generate_single_report env_ok 0 None (world_of [paper_row 1 "A" "NEW"]))
            = Raise (default e (db_fault env_ok (db_ops w2)))
       end.
Proof.
  exact (C1_single_report_status env_ok 0 None (world_of [paper_row 1 "A" "NEW"])
           (paper_row 1 "A" "NEW") eq_refl eq_refl).
Defined.

(** C1 as stated fails in two ways. When the flush before the [try] block
    raises (database operation 0), the call ends by raising with the paper
    still PROCESSING. And when the report persistence raises (operation 1)
    and the flush of the handler raises too (operation 2), the paper is
    FAILED but the error that reaches the caller is that of the handler's
    flush, not the original one. *)
Lemma C1_counterexample :
  (status_at (fst (_generate_single_report (env_with [0%nat] []) 0 None world_a)) 0
     = Some (lit "PROCESSING")
   /\ snd (_generate_single_report (env_with [0%nat] []) 0 None world_a)
      = Raise (db_error 0))
  /\ (snd (analysis_steps (env_with [1%nat; 2%nat] []) 0 None
             (fst (analysis_prologue (env_with [1%nat; 2%nat] []) 0 world_a)))
       = Raise (db_error 1)
      /\ snd (_generate_single_report (env_with [1%nat; 2%nat] []) 0 None world_a)
         = Raise (db_error 2)
      /\ status_at (fst (_generate_single_report (env_with [1%nat; 2%nat] []) 0 None
                           world_a)) 0
         = Some (lit "FAILED")).
Proof. vm_compute. done. Qed.

Example single_report_success :
  status_at (fst (_generate_single_report env_ok 0 None
                    (world_of [paper_row 1 "A" "NEW"]))) 0
    = Some (lit "COMPLETED").
Proof. vm_compute. reflexivity. Qed.

Example single_report_bad_answer :
  status_at (fst (_generate_single_report (env_with [] [lit "oops"; lit "oops"]) 0 None
                    (world_of [paper_row 1 "A" "NEW"]))) 0
    = Some (lit "FAILED").
Proof. vm_compute. reflexivity. Qed.

(** ** Batch analysis *)

Lemma elem_of_where_from {A} (f : A -> bool) (l : list A) (k i : nat) :
  i ∈ where_from f l k
  <-> (k <= i)%nat /\ exists x, l !! (i - k)%nat = Some x /\ f x = true.
Proof.
  revert k. induction l as [| x l IH]; intros k; simpl.
  - split; [by intros ?%elem_of_nil | by intros (_ & y & ? & _)].
  - assert (i ∈ where_from f l (S k)
            <-> (k < i)%nat /\ exists y, (x :: l) !! (i - k)%nat = Some y /\ f y = true) as IH'.
    { rewrite IH. split.
      - intros (Hle & y & Hy & Hf). split; [lia |]. exists y. split; [| done].
        replace (i - k)%nat with (S (i - S k)) by lia. done.
      - intros (Hlt & y & Hy & Hf). split; [lia |]. exists y. split; [| done].
        replace (i - k)%nat with (S (i - S k)) in Hy by lia. done. }
    destruct (f x) eqn:Hfx.
    + rewrite elem_of_cons, IH'. split.
      * intros [-> | (Hlt & H)]; [| split; [lia | done]].
        split; [lia |]. exists x. by rewrite Nat.sub_diag.
      * intros (Hle & y & Hy & Hf). destruct (decide (i = k)) as [-> | Hne]; [by left |].
        right. split; [lia |]. by exists y.
    + rewrite IH'. split.
      * intros (Hlt & H). split; [lia | done].
      * intros (Hle & y & Hy & Hf). destruct (decide (i = k)) as [-> | Hne].
        { rewrite Nat.sub_diag in Hy. simpl in Hy. congruence. }
        split; [lia |]. by exists y.
Qed.

Lemma is_new_true p : is_new p = true <-> p_status p = lit "NEW".
Proof. unfold is_new, str_eqb. apply bool_decide_eq_true. Qed.

(** Every selected row is a row whose status is NEW. *)
Lemma selected_rows_new limit w i :
  i ∈ selected_rows limit w ->
  exists q, papers w !! i = Some q /\ p_status q = lit "NEW".
Proof.
  unfold selected_rows. intros H.
  assert (i ∈ where_from is_new (papers w) 0) as Hi.
  { destruct (truthy_int limit); [| done]. by eapply subseteq_take. }
  apply elem_of_where_from in Hi as (_ & q & Hq & Hn).
  rewrite Nat.sub_0_r in Hq. exists q. split; [done |]. by apply is_new_true.
Qed.

Section Batch.

Variable env : Env.

Lemma select_new_papers_ok limit w :
  db_fault env (db_ops w) = None ->
  (truthy_int limit = true -> 0 <= default 0 limit) ->
  select_new_papers env limit w = (set_db_ops S w, Ok (selected_rows limit w)).
Proof.
  intros Hdb Hlim. unfold select_new_papers, selected_rows, bind, db_op, get.
  rewrite Hdb. simpl. destruct (truthy_int limit); [| done].
  destruct (Z.ltb_spec (default 0 limit) 0); [specialize (Hlim eq_refl); lia | done].
Qed.

(** One turn of the loop never raises, counts the paper once, changes at
    most the status of that paper's row and starts exactly one analysis. *)
Lemma batch_one_spec provider c i w :
  exists w' c',
    batch_one env provider c i w = (w', Ok c')
    /\ (fst c' + snd c' = S (fst c + snd c))%nat
    /\ rows_evolve (eq i) w w'
    /\ attempted (log w') = attempted (log w) ++ [pid_at w i].
Proof.
  destruct (single_report_frame env i provider w) as [Hr Hl].
  unfold batch_one, try_except, bind.
  destruct (_generate_single_report env i provider w) as [w1 [report | e]];
    simpl in *.
  - exists w1, (S (fst c), snd c). simpl. repeat split; done.
  - eexists _, (fst c, S (snd c)). split; [reflexivity |]. simpl.
    split; [lia |]. split.
    + eapply rows_evolve_trans; [exact Hr |].
      pose proof (set_status_evolves (eq i) i (lit "FAILED") eq_refl) as Hs.
      destruct (Hs (set_log (fun l => l ++ [{| log_msg := "Failed to generate report for paper";
                                              log_arg := pid_at w1 i |}]) w1)) as [Hr' _].
      exact Hr'.
    + rewrite attempted_app, Hl, attempted_quiet, app_nil_r; done.
Qed.

Lemma batch_loop_spec provider sel :
  forall c w,
  exists w' c',
    for_each sel (batch_one env provider) c w = (w', Ok c')
    /\ (fst c' + snd c' = length sel + (fst c + snd c))%nat
    /\ rows_evolve (fun j => j ∈ sel) w w'
    /\ attempted (log w') = attempted (log w) ++ map (pid_at w) sel.
Proof.
  induction sel as [| i sel IH]; intros c w; simpl.
  - exists w, c. repeat split; [apply rows_evolve_refl | by rewrite app_nil_r].
  - destruct (batch_one_spec provider c i w) as (w1 & c1 & H1 & Hc1 & Hr1 & Hl1).
    destruct (IH c1 w1) as (w' & c' & H' & Hc' & Hr' & Hl').
    exists w', c'. rewrite (bind_ok _ _ _ _ _ H1). split; [done |].
    split; [lia |]. split.
    + eapply rows_evolve_trans.
      * eapply rows_evolve_mono; [| exact Hr1]. intros j <-. apply list_elem_of_here.
      * eapply rows_evolve_mono; [| exact Hr']. intros j Hj. by apply list_elem_of_further.
    + rewrite Hl', Hl1, <- app_assoc. simpl. f_equal. f_equal.
      apply map_ext. intros j. by eapply rows_evolve_paper_id.
Qed.

End Batch.

(** C2: in a batch run over the selected papers (the selection having
    succeeded), an exception raised while one paper is processed is caught
    and counted and the run goes on: an analysis is started for every
    selected paper, in order, and the counts returned satisfy
    success + failed = total_processed = N. Only the final commit can make
    the run itself raise. *)
Theorem C2_batch_isolation (env : Env) (provider : option str) (limit : option Z)
    (w : World) :
  db_fault env (db_ops w) = None ->
  (truthy_int limit = true -> 0 <= default 0 limit) ->
  attempted (log (fst (generate_reports_batch env provider limit w)))
    = attempted (log w) ++ map (pid_at w) (selected_rows limit w)
  /\ (forall res, snd (generate_reports_batch env provider limit w) = Ok res ->
        total_processed res = length (selected_rows limit w)
        /\ (success res + batch_failed res = total_processed res)%nat)
  /\ (forall e, snd (generate_reports_batch env provider limit w) = Raise e ->
        selected_rows limit w <> []
        /\ db_fault env (pred (db_ops (fst (generate_reports_batch env provider limit w))))
           = Some e).
Proof.
  intros Hdb Hlim. unfold generate_reports_batch.
  rewrite (bind_ok _ _ _ _ _ (logger_run _ _ w)).
  set (w0 := set_log _ w).
  rewrite (bind_ok _ _ _ _ _ (select_new_papers_ok env limit w0 Hdb Hlim)).
  change (selected_rows limit w0) with (selected_rows limit w).
  destruct (selected_rows limit w) as [| i sel] eqn:Hsel.
  - simpl. split; [| split; [intros res [= <-]; done | done]].
    rewrite !attempted_app. simpl. by rewrite !app_nil_r.
  - destruct (batch_loop_spec env provider (i :: sel) (0%nat, 0%nat) (set_db_ops S w0))
      as (w2 & c' & H2 & Hc & Hr & Hl).
    rewrite (bind_ok _ _ _ _ _ H2).
    assert (attempted (log w2) = attempted (log w) ++ map (pid_at w) (i :: sel)) as Hl2.
    { rewrite Hl. simpl. rewrite attempted_app. simpl. by rewrite app_nil_r. }
    unfold bind, db_op. destruct (db_fault env (db_ops w2)) as [e |] eqn:Hc2; simpl.
    + split; [done |]. split; [done |]. intros e' [= <-]. done.
    + split; [| split; [| done]].
      * rewrite attempted_app, Hl2. simpl. by rewrite app_nil_r.
      * intros res [= <-]. simpl in *. split; [done | lia].
Qed.

Lemma C2_batch_isolation_witness :
  attempted (log (fst (generate_reports_batch (env_with [] [lit "oops"; lit "oops"]) None None
                         (world_of [paper_row 1 "A" "NEW"; paper_row 2 "B" "NEW"]))))
    = attempted (log (world_of [paper_row 1 "A" "NEW"; paper_row 2 "B" "NEW"]))
      ++ map (pid_at (world_of [paper_row 1 "A" "NEW"; paper_row 2 "B" "NEW"]))
           (selected_rows None (world_of [paper_row 1 "A" "NEW"; paper_row 2 "B" "NEW"]))
  /\ (forall res,
        snd (generate_reports_batch (env_with [] [lit "oops"; lit "oops"]) None None
               (world_of [paper_row 1 "A" "NEW"; paper_row 2 "B" "NEW"])) = Ok res ->
        total_processed res
          = length (selected_rows None (world_of [paper_row 1 "A" "NEW"; paper_row 2 "B" "NEW"]))
        /\ (success res + batch_failed res = total_processed res)%nat)
  /\ (forall e,
        snd (generate_reports_batch (env_with [] [lit "oops"; lit "oops"]) None None
               (world_of [paper_row 1 "A" "NEW"; paper_row 2 "B" "NEW"])) = Raise e ->
        selected_rows None (world_of [paper_row 1 "A" "NEW"; paper_row 2 "B" "NEW"]) <> []
        /\ db_fault (env_with [] [lit "oops"; lit "oops"])
             (pred (db_ops (fst (generate_reports_batch (env_with [] [lit "oops"; lit "oops"])
                                   None None
                                   (world_of [paper_row 1 "A" "NEW"; paper_row 2 "B" "NEW"])))))
           = Some e).
Proof.
  apply (C2_batch_isolation (env_with [] [lit "oops"; lit "oops"]) None None
           (world_of [paper_row 1 "A" "NEW"; paper_row 2 "B" "NEW"])).
  - reflexivity.
  - simpl. discriminate.
Defined.

(** Three NEW papers, the second of which gets two undecodable answers:
    the third is still analysed and the counts are 3, 2 and 1. *)
Example batch_isolation_scenario :
  let w := world_of [paper_row 1 "A" "NEW"; paper_row 2 "B" "NEW"; paper_row 3 "C" "NEW"] in
  let run := generate_reports_batch
               (env_with [] [good_answer; lit "oops"; lit "oops"]) None None w in
  snd run = Ok {| total_processed := 3; success := 2; batch_failed := 1 |}
  /\ map (status_at (fst run)) [0; 1; 2]%nat
     = [Some (lit "COMPLETED"); Some (lit "FAILED"); Some (lit "COMPLETED")]
  /\ attempted (log (fst run)) = [lit "A"; lit "B"; lit "C"].
Proof. vm_compute. done. Qed.

(** C6: batch analysis selects only rows whose status is NEW (the first
    [limit] of them when a limit applies), changes no row outside its
    selection, and so neither selects nor changes any field of a paper
    whose status is not NEW. *)
Theorem C6_batch_touches_only_new (env : Env) (provider : option str)
    (limit : option Z) (w : World) :
  (forall i, i ∈ selected_rows limit w ->
     exists q, papers w !! i = Some q /\ p_status q = lit "NEW")
  /\ (forall i, i ∈ selected_rows None w <->
        exists q, papers w !! i = Some q /\ p_status q = lit "NEW")
  /\ (forall n, 0 < n -> selected_rows (Some n) w = take (Z.to_nat n) (selected_rows None w))
  /\ (forall j, j ∉ selected_rows limit w ->
        papers (fst (generate_reports_batch env provider limit w)) !! j = papers w !! j)
  /\ (forall j p, papers w !! j = Some p -> p_status p <> lit "NEW" ->
        (j ∉ selected_rows limit w)
        /\ papers (fst (generate_reports_batch env provider limit w)) !! j = Some p).
Proof.
  assert (forall j, j ∉ selected_rows limit w ->
            papers (fst (generate_reports_batch env provider limit w)) !! j
            = papers w !! j) as Hframe.
  { intros j Hj. unfold generate_reports_batch.
    rewrite (bind_ok _ _ _ _ _ (logger_run _ _ w)).
    set (w0 := set_log _ w).
    unfold select_new_papers, bind at 1, bind at 1, db_op.
    destruct (db_fault env (db_ops w0)); [done |]. simpl.
    change (where_from _ (papers w) 0) with (where_from is_new (papers w) 0).
    unfold selected_rows in Hj.
    assert (forall rows : list nat, j ∉ rows ->
              papers (fst (match rows with
                           | [] => logger "No unprocessed papers found" [];;
                                   ret {| total_processed := 0; success := 0;
                                          batch_failed := 0 |}
                           | _ :: _ =>
                             c <- for_each rows (batch_one env provider) (0%nat, 0%nat);;
                             db_op env;;
                             (let result := {| total_processed := length rows;
                                               success := fst c; batch_failed := snd c |} in
                              logger "Batch report generation completed" [];; ret result)
                           end (set_db_ops S w0))) !! j = papers w !! j) as Hrows.
    { intros rows Hrows. destruct rows as [| i sel]; [done |].
      destruct (batch_loop_spec env provider (i :: sel) (0%nat, 0%nat) (set_db_ops S w0))
        as (w2 & c' & H2 & _ & Hr & _).
      rewrite (bind_ok _ _ _ _ _ H2).
      transitivity (papers w2 !! j).
      - unfold bind, db_op. destruct (db_fault env (db_ops w2)); done.
      - by rewrite (rows_evolve_outside _ _ _ j Hr Hrows). }
    destruct (truthy_int limit) eqn:Ht.
    - destruct (default 0 limit <? 0); [done |]. by apply Hrows.
    - by apply Hrows. }
  split; [apply selected_rows_new |]. split.
  { intros i. unfold selected_rows. simpl. rewrite elem_of_where_from.
    rewrite Nat.sub_0_r. split.
    - intros (_ & q & Hq & Hn). exists q. split; [done | by apply is_new_true].
    - intros (q & Hq & Hn). split; [lia |]. exists q. split; [done | by apply is_new_true]. }
  split.
  { intros n Hn. unfold selected_rows. simpl.
    destruct (Z.eqb_spec n 0); [lia | done]. }
  split; [exact Hframe |].
  intros j p Hp Hst.
  assert (j ∉ selected_rows limit w) as Hj.
  { intros (q & Hq & Hn)%selected_rows_new. congruence. }
  split; [done |]. by rewrite Hframe.
Qed.

Example batch_leaves_other_rows :
  let w := world_of [paper_row 1 "A" "COMPLETED"; paper_row 2 "B" "NEW";
                     paper_row 3 "C" "FAILED"; paper_row 4 "D" "PROCESSING"] in
  let run := generate_reports_batch env_ok None None w in
  selected_rows None w = [1%nat]
  /\ papers (fst run)
     = [paper_row 1 "A" "COMPLETED"; paper_row 2 "B" "COMPLETED";
        paper_row 3 "C" "FAILED"; paper_row 4 "D" "PROCESSING"].
Proof. vm_compute. done. Qed.

(** ** A limit of zero *)

(** C10: a limit of 0 is falsy, so ingest and batch analysis treat it as no
    limit: the fetch keeps every record and the batch selects every NEW
    paper. *)
Theorem C10_zero_limit_is_no_limit (env : Env) (date : option str)
    (provider : option str) (w : World) :
  crawl_huggingface_papers env date (Some 0) w = crawl_huggingface_papers env date None w
  /\ (forall w1 raw_papers,
        fetch_daily_papers env date w = (w1, Ok raw_papers) ->
        crawl_huggingface_papers env date (Some 0) w
        = (w1, Ok (map convert_to_paper_schema raw_papers)))
  /\ (forall source,
        crawl_and_save_papers env source date (Some 0) w
        = crawl_and_save_papers env source date None w)
  /\ generate_reports_batch env provider (Some 0) w
     = generate_reports_batch env provider None w
  /\ (forall i, i ∈ selected_rows (Some 0) w <->
        exists q, papers w !! i = Some q /\ p_status q = lit "NEW").
Proof.
  split; [reflexivity |]. split.
  { intros w1 raw H. unfold crawl_huggingface_papers. by rewrite (bind_ok _ _ _ _ _ H). }
  split; [reflexivity |]. split; [reflexivity |].
  intros i. change (selected_rows (Some 0) w) with (where_from is_new (papers w) 0).
  rewrite elem_of_where_from, Nat.sub_0_r. split.
  - intros (_ & q & Hq & Hn). exists q. split; [done | by apply is_new_true].
  - intros (q & Hq & Hn). split; [lia |]. exists q. split; [done | by apply is_new_true].
Qed.

(** With a limit of 0 the three records of the page are all saved; with a
    limit of 1 one is. *)
Example zero_limit_ingest :
  snd (crawl_and_save_papers env_ok (lit "huggingface") None (Some 0) (world_of []))
    = Ok {| total_crawled := 3; saved := 3; duplicates := 0; failed := 0 |}
  /\ snd (crawl_and_save_papers env_ok (lit "huggingface") None (Some 1) (world_of []))
     = Ok {| total_crawled := 1; saved := 1; duplicates := 0; failed := 0 |}.
Proof. vm_compute. done. Qed.

Example zero_limit_batch :
  snd (generate_reports_batch env_ok None (Some 0)
         (world_of [paper_row 1 "A" "NEW"; paper_row 2 "B" "NEW"]))
    = Ok {| total_processed := 2; success := 2; batch_failed := 0 |}
  /\ snd (generate_reports_batch env_ok None (Some 1)
            (world_of [paper_row 1 "A" "NEW"; paper_row 2 "B" "NEW"]))
     = Ok {| total_processed := 1; success := 1; batch_failed := 0 |}.
Proof. vm_compute. done. Qed.

(** ** Ingest *)

Lemma where_from_nil {A} (f : A -> bool) (l : list A) (k : nat) :
  where_from f l k = [] <-> forall x, x ∈ l -> f x = false.
Proof.
  revert k. induction l as [| x l IH]; intros k; simpl.
  - split; [by intros _ x ?%elem_of_nil | done].
  - destruct (f x) eqn:Hx.
    + split; [done |]. intros H. specialize (H x (list_elem_of_here _ _)). congruence.
    + rewrite IH. split.
      * intros H y [-> | Hy]%elem_of_cons; [done | by apply H].
      * intros H y Hy. apply H. by apply list_elem_of_further.
Qed.

Lemma where_from_unique (pid : str) (l : list Paper) (k : nat) :
  NoDup (map p_paper_id l) ->
  pid ∈ map p_paper_id l ->
  exists i, where_from (fun p => str_eqb (p_paper_id p) pid) l k = [i].
Proof.
  revert k. induction l as [| p l IH]; intros k Hnd Hin; simpl in *.
  - by apply elem_of_nil in Hin.
  - apply NoDup_cons in Hnd as [Hp Hnd]. unfold str_eqb at 1.
    destruct (bool_decide_reflect (p_paper_id p = pid)) as [Heq | Hne].
    + exists k. f_equal. apply where_from_nil. intros q Hq.
      apply bool_decide_eq_false. intros Hq'. apply Hp. rewrite Heq, <- Hq'.
      by apply list_elem_of_fmap_2.
    + apply elem_of_cons in Hin as [Hin | Hin]; [congruence |]. by apply IH.
Qed.

Lemma where_from_absent (pid : str) (l : list Paper) (k : nat) :
  where_from (fun p => str_eqb (p_paper_id p) pid) l k = []
  <-> pid ∉ map p_paper_id l.
Proof.
  rewrite where_from_nil. split.
  - intros H (p & -> & Hp)%list_elem_of_fmap. specialize (H p Hp).
    by apply bool_decide_eq_false in H.
  - intros H p Hp. apply bool_decide_eq_false. intros Heq. apply H. rewrite <- Heq.
    by apply list_elem_of_fmap_2.
Qed.

Section Ingest.

Variable env : Env.

Lemma select_paper_run pid w :
  select_paper_by_paper_id env pid w
  = (set_db_ops S w,
     match db_fault env (db_ops w) with
     | Some e => Raise e
     | None =>
       match where_from (fun p => str_eqb (p_paper_id p) pid) (papers w) 0 with
       | [] => Ok None
       | [i] => Ok (Some i)
       | _ :: _ :: _ => Raise multiple_rows
       end
     end).
Proof.
  unfold select_paper_by_paper_id, bind, db_op, get.
  destruct (db_fault env (db_ops w)); [done |]. simpl.
  by destruct (where_from _ (papers w) 0) as [| ? [| ? ?]].
Qed.

Lemma flush_new_paper_run mk w :
  flush_new_paper env mk w
  = match db_fault env (db_ops w) with
    | Some e => (set_db_ops S w, Raise e)
    | None => (set_papers (fun l => l ++ [mk (S (length l))]) (set_db_ops S w),
               Ok (length (papers w)))
    end.
Proof.
  unfold flush_new_paper, bind, db_op, get, modify.
  by destruct (db_fault env (db_ops w)).
Qed.

(** One turn of the ingest loop never raises and counts the record once;
    it leaves the table as it is or appends one row, whose identifier no
    row had. *)
Lemma save_one_cases c pd w :
  exists w' c',
    save_one env c pd w = (w', Ok c')
    /\ count_total c' = S (count_total c)
    /\ ((papers w' = papers w /\ saved_count c' = saved_count c)
        \/ (papers w' = papers w ++ [new_paper pd (S (length (papers w)))]
            /\ (pc_paper_id pd ∉ map p_paper_id (papers w))
            /\ saved_count c' = S (saved_count c))).
Proof.
  unfold save_one, try_except, bind. rewrite select_paper_run.
  destruct (db_fault env (db_ops w)) as [e |]; simpl.
  { eexists _, _. split; [reflexivity |]. unfold count_total. simpl.
    split; [lia | by left]. }
  destruct (where_from _ (papers w) 0) as [| i [| i' rows]] eqn:Hrows; simpl.
  - apply where_from_absent in Hrows. rewrite flush_new_paper_run. simpl.
    destruct (db_fault env (S (db_ops w))) as [e |]; simpl.
    + eexists _, _. split; [reflexivity |]. unfold count_total. simpl.
      split; [lia | by left].
    + eexists _, _. split; [reflexivity |]. unfold count_total. simpl.
      split; [lia | by right].
  - eexists _, _. split; [reflexivity |]. unfold count_total. simpl.
    split; [lia | by left].
  - eexists _, _. split; [reflexivity |]. unfold count_total. simpl.
    split; [lia | by left].
Qed.

(** The loop over any list of records, whatever fails: it ends, every
    record is counted once, rows are only appended, and identifiers stay
    unique. *)
Lemma save_loop_any ps :
  forall c w,
  exists w' c' new,
    for_each ps (save_one env) c w = (w', Ok c')
    /\ count_total c' = (count_total c + length ps)%nat
    /\ papers w' = papers w ++ new
    /\ (NoDup (map p_paper_id (papers w)) -> NoDup (map p_paper_id (papers w'))).
Proof.
  induction ps as [| pd ps IH]; intros c w; simpl.
  - exists w, c, []. rewrite app_nil_r. repeat split; [lia | done].
  - destruct (save_one_cases c pd w) as (w1 & c1 & H1 & Hc1 & Hcase).
    destruct (IH c1 w1) as (w' & c' & new & H' & Hc' & Hp' & Hnd').
    rewrite (bind_ok _ _ _ _ _ H1).
    destruct Hcase as [[Hp1 _] | (Hp1 & Hfresh & _)].
    + exists w', c', new. split; [done |]. split; [lia |].
      rewrite Hp1 in *. done.
    + exists w', c', ([new_paper pd (S (length (papers w)))] ++ new).
      split; [done |]. split; [lia |]. split; [by rewrite Hp', Hp1, <- app_assoc |].
      intros Hnd. apply Hnd'. rewrite Hp1, map_app. simpl.
      apply NoDup_app. split; [done |]. split; [| apply NoDup_singleton].
      intros x Hx ->%list_elem_of_singleton. done.
Qed.

End Ingest.

Section IngestRecords.

Variable env : Env.

(** A record whose identifier is in the store is skipped: nothing is
    written, the duplicate counter moves, no error. *)
Lemma save_one_present c pd w :
  NoDup (map p_paper_id (papers w)) ->
  pc_paper_id pd ∈ map p_paper_id (papers w) ->
  db_fault env (db_ops w) = None ->
  exists w',
    save_one env c pd w
    = (w', Ok {| saved_count := saved_count c;
                 duplicate_count := S (duplicate_count c);
                 failed_count := failed_count c |})
    /\ papers w' = papers w.
Proof.
  intros Hnd Hin Hdb.
  destruct (where_from_unique (pc_paper_id pd) (papers w) 0 Hnd Hin) as [i Hi].
  unfold save_one, try_except, bind. rewrite select_paper_run, Hdb, Hi. simpl.
  eexists. split; reflexivity.
Qed.

(** A record whose identifier is new is stored as a NEW paper when its
    flush succeeds. *)
Lemma save_one_fresh c pd w :
  pc_paper_id pd ∉ map p_paper_id (papers w) ->
  db_fault env (db_ops w) = None ->
  db_fault env (S (db_ops w)) = None ->
  exists w',
    save_one env c pd w
    = (w', Ok {| saved_count := S (saved_count c);
                 duplicate_count := duplicate_count c;
                 failed_count := failed_count c |})
    /\ papers w' = papers w ++ [new_paper pd (S (length (papers w)))].
Proof.
  intros Hin Hdb Hdb'. apply (where_from_absent _ _ 0) in Hin.
  unfold save_one, try_except, bind. rewrite select_paper_run, Hdb, Hin. simpl.
  rewrite flush_new_paper_run. simpl. rewrite Hdb'. simpl.
  eexists. split; reflexivity.
Qed.

(** When the flush of a new record raises, the failure is counted, nothing
    is written and the turn ends normally. *)
Lemma save_one_flush_fault c pd w e :
  pc_paper_id pd ∉ map p_paper_id (papers w) ->
  db_fault env (db_ops w) = None ->
  db_fault env (S (db_ops w)) = Some e ->
  exists w',
    save_one env c pd w
    = (w', Ok {| saved_count := saved_count c;
                 duplicate_count := duplicate_count c;
                 failed_count := S (failed_count c) |})
    /\ papers w' = papers w.
Proof.
  intros Hin Hdb Hdb'. apply (where_from_absent _ _ 0) in Hin.
  unfold save_one, try_except, bind. rewrite select_paper_run, Hdb, Hin. simpl.
  rewrite flush_new_paper_run. simpl. rewrite Hdb'. simpl.
  eexists. split; reflexivity.
Qed.

Hypothesis no_fault : forall k, db_fault env k = None.

Lemma save_loop_ok ps :
  forall c w s a d,
    NoDup (map p_paper_id (papers w)) ->
    ingest_ids (map p_paper_id (papers w)) (map pc_paper_id ps) = (s, a, d) ->
    exists w' c',
      for_each ps (save_one env) c w = (w', Ok c')
      /\ map p_paper_id (papers w') = s
      /\ saved_count c' = (saved_count c + a)%nat
      /\ duplicate_count c' = (duplicate_count c + d)%nat
      /\ failed_count c' = failed_count c.
Proof.
  induction ps as [| pd ps IH]; intros c w s a d Hnd Hi; simpl in *.
  - injection Hi as <- <- <-. exists w, c. repeat split; lia.
  - destruct (bool_decide_reflect
                (pc_paper_id pd ∈ map p_paper_id (papers w))) as [Hin | Hin].
    + destruct (ingest_ids _ _) as [[s0 a0] d0] eqn:Hrest. injection Hi as <- <- <-.
      destruct (save_one_present c pd w Hnd Hin (no_fault _)) as (w1 & H1 & Hp1).
      rewrite (bind_ok _ _ _ _ _ H1).
      rewrite <- Hp1 in Hnd, Hrest.
      destruct (IH {| saved_count := saved_count c;
                      duplicate_count := S (duplicate_count c);
                      failed_count := failed_count c |} w1 s0 a0 d0 Hnd Hrest)
        as (w' & c' & H' & Hs & Ha & Hd & Hf).
      exists w', c'. simpl in *. repeat split; [done | done | lia | lia | lia].
    + destruct (ingest_ids _ _) as [[s0 a0] d0] eqn:Hrest. injection Hi as <- <- <-.
      destruct (save_one_fresh c pd w Hin (no_fault _) (no_fault _)) as (w1 & H1 & Hp1).
      rewrite (bind_ok _ _ _ _ _ H1).
      assert (map p_paper_id (papers w1)
              = map p_paper_id (papers w) ++ [pc_paper_id pd]) as Hids.
      { by rewrite Hp1, map_app. }
      rewrite <- Hids in Hrest.
      assert (NoDup (map p_paper_id (papers w1))) as Hnd1.
      { rewrite Hids. apply NoDup_app. split; [done |]. split; [| apply NoDup_singleton].
        intros x Hx ->%list_elem_of_singleton. done. }
      destruct (IH {| saved_count := S (saved_count c);
                      duplicate_count := duplicate_count c;
                      failed_count := failed_count c |} w1 s0 a0 d0 Hnd1 Hrest)
        as (w' & c' & H' & Hs & Ha & Hd & Hf).
      exists w', c'. simpl in *. repeat split; [done | done | lia | lia | lia].
Qed.

End IngestRecords.

(** What [ingest_ids] computes. *)

Lemma ingest_ids_all_present (store fetched : list str) :
  (forall x, x ∈ fetched -> x ∈ store) ->
  ingest_ids store fetched = (store, 0%nat, length fetched).
Proof.
  induction fetched as [| x rest IH]; intros H; simpl; [done |].
  rewrite bool_decide_eq_true_2 by (apply H, list_elem_of_here).
  rewrite IH; [done |]. intros y Hy. apply H. by apply list_elem_of_further.
Qed.

Lemma ingest_ids_covers (fetched : list str) :
  forall store s a d,
    ingest_ids store fetched = (s, a, d) ->
    (forall x, x ∈ store \/ x ∈ fetched -> x ∈ s) /\ (a + d = length fetched)%nat.
Proof.
  induction fetched as [| x rest IH]; intros store s a d H; simpl in *.
  - injection H as <- <- <-. split; [| done]. intros y [Hy | Hy%elem_of_nil]; done.
  - destruct (bool_decide_reflect (x ∈ store)) as [Hin | Hin];
      destruct (ingest_ids _ rest) as [[s0 a0] d0] eqn:Hrest;
      injection H as <- <- <-; destruct (IH _ _ _ _ Hrest) as [Hc Hl].
    + split; [| lia]. intros y [Hy | [-> | Hy]%elem_of_cons]; apply Hc; auto.
    + split; [| lia]. intros y [Hy | [-> | Hy]%elem_of_cons]; apply Hc;
        rewrite ?elem_of_app, ?list_elem_of_singleton; auto.
Qed.

Lemma ingest_ids_distinct (fetched : list str) :
  forall store s a d,
    NoDup fetched ->
    ingest_ids store fetched = (s, a, d) ->
    d = length (List.filter (fun x => bool_decide (x ∈ store)) fetched)
    /\ a = length (List.filter (fun x => negb (bool_decide (x ∈ store))) fetched).
Proof.
  induction fetched as [| x rest IH]; intros store s a d Hnd H; simpl in *.
  - by injection H as <- <- <-.
  - apply NoDup_cons in Hnd as [Hx Hnd].
    destruct (bool_decide_reflect (x ∈ store)) as [Hin | Hin];
      destruct (ingest_ids _ rest) as [[s0 a0] d0] eqn:Hrest;
      injection H as <- <- <-; destruct (IH _ _ _ _ Hnd Hrest) as [Hd Ha]; simpl.
    + split; congruence.
    + assert (forall y, In y rest ->
                bool_decide (y ∈ store ++ [x]) = bool_decide (y ∈ store)) as Hext.
      { intros y Hy%list_elem_of_In. apply bool_decide_ext.
        rewrite elem_of_app, list_elem_of_singleton. split; [| auto].
        intros [? | ->]; done. }
      split.
      * rewrite Hd. f_equal. by apply List.filter_ext_in.
      * rewrite Ha. f_equal. f_equal. apply List.filter_ext_in.
        intros y Hy. by rewrite Hext.
Qed.

Lemma save_papers_run (env : Env) (ps : list PaperCreate) (w w1 : World)
    (c : CrawlCounts) :
  for_each ps (save_one env)
    {| saved_count := 0; duplicate_count := 0; failed_count := 0 |} w = (w1, Ok c) ->
  save_papers env ps w
  = match db_fault env (db_ops w1) with
    | Some e => (set_db_ops S w1, Raise e)
    | None =>
      (set_log (fun l => l ++ [{| log_msg := "Paper crawl completed"; log_arg := [] |}])
         (set_db_ops S w1),
       Ok {| total_crawled := length ps; saved := saved_count c;
             duplicates := duplicate_count c; failed := failed_count c |})
    end.
Proof.
  intros H. unfold save_papers. rewrite (bind_ok _ _ _ _ _ H).
  unfold bind, db_op. by destruct (db_fault env (db_ops w1)).
Qed.

(** [crawl_and_save_papers] is the fetch followed by [save_papers]. *)
Lemma crawl_and_save_papers_run (env : Env) (date : option str) (limit : option Z)
    (w w1 : World) (fetched : list PaperCreate) :
  crawl_huggingface_papers env date limit
    (set_log (fun l => l ++ [{| log_msg := "Starting paper crawl";
                               log_arg := lit "huggingface" |}]) w)
  = (w1, Ok fetched) ->
  crawl_and_save_papers env (lit "huggingface") date limit w = save_papers env fetched w1.
Proof.
  intros H. unfold crawl_and_save_papers.
  rewrite (bind_ok _ _ _ _ _ (logger_run _ _ w)).
  change (str_eqb (lit "huggingface") (lit "huggingface")) with true. cbv iota.
  by rewrite (bind_ok _ _ _ _ _ H).
Qed.

(** C4: in an ingest run over the fetched records, a record whose
    identifier is already in the store is skipped (nothing written, no
    error) and counted as a duplicate; no run, whatever fails, gives two
    rows the same identifier or changes a row that was there; and when no
    database operation fails, the duplicates count is the number of
    fetched records whose identifier was already present, and running
    ingest again on the same records saves nothing and counts them all as
    duplicates. *)
Theorem C4_ingest_idempotent (env : Env) (fetched : list PaperCreate) (w : World) :
  NoDup (map p_paper_id (papers w)) ->
  NoDup (map p_paper_id (papers (fst (save_papers env fetched w))))
  /\ (exists new, papers (fst (save_papers env fetched w)) = papers w ++ new)
  /\ (forall c pd,
        pc_paper_id pd ∈ map p_paper_id (papers w) ->
        db_fault env (db_ops w) = None ->
        exists w',
          save_one env c pd w
          = (w', Ok {| saved_count := saved_count c;
                       duplicate_count := S (duplicate_count c);
                       failed_count := failed_count c |})
          /\ papers w' = papers w)
  /\ ((forall k, db_fault env k = None) ->
      exists w1 res,
        save_papers env fetched w = (w1, Ok res)
        /\ ingest_ids (map p_paper_id (papers w)) (map pc_paper_id fetched)
           = (map p_paper_id (papers w1), saved res, duplicates res)
        /\ failed res = 0%nat
        /\ (NoDup (map pc_paper_id fetched) ->
            duplicates res
            = length (List.filter
                        (fun x => bool_decide (x ∈ map p_paper_id (papers w)))
                        (map pc_paper_id fetched)))
        /\ exists w2,
             save_papers env fetched w1
             = (w2, Ok {| total_crawled := length fetched; saved := 0;
                          duplicates := length fetched; failed := 0 |})
             /\ papers w2 = papers w1).
Proof.
  intros Hnd.
  destruct (save_loop_any env fetched
              {| saved_count := 0; duplicate_count := 0; failed_count := 0 |} w)
    as (wl & cl & new & Hl & Hcl & Hpl & Hndl).
  assert (papers (fst (save_papers env fetched w)) = papers wl) as Hp.
  { rewrite (save_papers_run _ _ _ _ _ Hl). by destruct (db_fault env (db_ops wl)). }
  split; [rewrite Hp; by apply Hndl |].
  split; [exists new; by rewrite Hp |].
  split; [intros c pd; by apply save_one_present |].
  intros Hnf.
  destruct (ingest_ids (map p_paper_id (papers w)) (map pc_paper_id fetched))
    as [[s a] d] eqn:Hi.
  destruct (save_loop_ok env Hnf fetched
              {| saved_count := 0; duplicate_count := 0; failed_count := 0 |}
              w s a d Hnd Hi) as (w1 & c1 & H1 & Hs & Ha & Hd & Hf).
  simpl in Ha, Hd, Hf.
  rewrite (save_papers_run _ _ _ _ _ H1), Hnf. eexists _, _. split; [reflexivity |].
  simpl. split; [by rewrite Hs, Ha, Hd |]. split; [done |]. split.
  { intros Hfd. rewrite Hd. by apply (ingest_ids_distinct _ _ _ _ _ Hfd Hi). }
  assert (ingest_ids (map p_paper_id (papers w1)) (map pc_paper_id fetched)
          = (map p_paper_id (papers w1), 0%nat, length (map pc_paper_id fetched))) as Hi2.
  { apply ingest_ids_all_present. intros x Hx. rewrite Hs.
    apply (ingest_ids_covers _ _ _ _ _ Hi). by right. }
  assert (NoDup (map p_paper_id (papers w1))) as Hnd1.
  { rewrite Hl in H1. injection H1 as <- <-. by apply Hndl. }
  destruct (save_loop_ok env Hnf fetched
              {| saved_count := 0; duplicate_count := 0; failed_count := 0 |}
              (set_log (fun l => l ++ [{| log_msg := "Paper crawl completed"; log_arg := [] |}])
                 (set_db_ops S w1))
              _ _ _ Hnd1 Hi2) as (w2 & c2 & H2 & Hs2 & Ha2 & Hd2 & Hf2).
  simpl in Ha2, Hd2, Hf2. rewrite length_map in Hd2.
  rewrite (save_papers_run _ _ _ _ _ H2), Hnf. eexists. split.
  - rewrite Ha2, Hd2, Hf2. reflexivity.
  - simpl.
    destruct (save_loop_any env fetched
                {| saved_count := 0; duplicate_count := 0; failed_count := 0 |}
                (set_log (fun l => l ++ [{| log_msg := "Paper crawl completed"; log_arg := [] |}])
                   (set_db_ops S w1)))
      as (w2' & c2' & new2 & H2' & _ & Hp2 & _).
    rewrite H2 in H2'. injection H2' as <- <-. simpl in Hp2.
    assert (length (papers w2) = length (papers w1)) as Hlen.
    { rewrite <- (length_map p_paper_id (papers w2)), Hs2. by rewrite length_map. }
    rewrite Hp2, length_app in Hlen.
    destruct new2; [by rewrite Hp2, app_nil_r | simpl in Hlen; lia].
Qed.

Lemma C4_ingest_idempotent_witness :
  NoDup (map p_paper_id (papers world_a))
  /\ NoDup (map p_paper_id (papers (fst (save_papers env_ok fetched_abc world_a))))
  /\ (exists new, papers (fst (save_papers env_ok fetched_abc world_a))
                  = papers world_a ++ new).
Proof.
  assert (NoDup (map p_paper_id (papers world_a))) as Hnd by apply NoDup_singleton.
  split; [exact Hnd |].
  destruct (C4_ingest_idempotent env_ok fetched_abc world_a Hnd) as (H1 & H2 & _).
  split; [exact H1 | exact H2].
Defined.

(** The scenario of the specification: the page lists A, B and C and A is
    already stored; a second run stores nothing more. *)
Example ingest_scenario :
  let run1 := crawl_and_save_papers env_ok (lit "huggingface") None None world_a in
  let run2 := crawl_and_save_papers env_ok (lit "huggingface") None None (fst run1) in
  snd run1 = Ok {| total_crawled := 3; saved := 2; duplicates := 1; failed := 0 |}
  /\ map p_paper_id (papers (fst run1)) = [lit "A"; lit "B"; lit "C"]
  /\ snd run2 = Ok {| total_crawled := 3; saved := 0; duplicates := 3; failed := 0 |}
  /\ papers (fst run2) = papers (fst run1).
Proof. vm_compute. done. Qed.

(** C5: in an ingest run a persistence failure for one record adds one to
    the failed count and the loop goes on to the remaining records (no
    turn of the loop raises, each record is counted once), and the counts
    returned satisfy total = saved + duplicates + failed. *)
Theorem C5_ingest_failure_isolated (env : Env) (source : str) (date : option str)
    (limit : option Z) (w : World) :
  (forall w' res,
     crawl_and_save_papers env source date limit w = (w', Ok res) ->
     total_crawled res = (saved res + duplicates res + failed res)%nat)
  /\ (forall fetched c w0,
        exists w1 c1 new,
          for_each fetched (save_one env) c w0 = (w1, Ok c1)
          /\ count_total c1 = (count_total c + length fetched)%nat
          /\ papers w1 = papers w0 ++ new)
  /\ (forall c pd w0 e,
        (pc_paper_id pd ∉ map p_paper_id (papers w0)) ->
        db_fault env (db_ops w0) = None ->
        db_fault env (S (db_ops w0)) = Some e ->
        exists w1,
          save_one env c pd w0
          = (w1, Ok {| saved_count := saved_count c;
                       duplicate_count := duplicate_count c;
                       failed_count := S (failed_count c) |})
          /\ papers w1 = papers w0)
  /\ (forall fetched w0 w1 res,
        save_papers env fetched w0 = (w1, Ok res) ->
        total_crawled res = length fetched
        /\ total_crawled res = (saved res + duplicates res + failed res)%nat)
  /\ (forall fetched w0 e,
        snd (save_papers env fetched w0) = Raise e ->
        db_fault env (pred (db_ops (fst (save_papers env fetched w0)))) = Some e).
Proof.
  assert (forall fetched w0 w1 res,
            save_papers env fetched w0 = (w1, Ok res) ->
            total_crawled res = length fetched
            /\ total_crawled res = (saved res + duplicates res + failed res)%nat) as Hsum.
  { intros fetched w0 w1 res.
    destruct (save_loop_any env fetched
                {| saved_count := 0; duplicate_count := 0; failed_count := 0 |} w0)
      as (wl & cl & new & Hl & Hcl & _).
    rewrite (save_papers_run _ _ _ _ _ Hl).
    destruct (db_fault env (db_ops wl)); [done |].
    intros [= <- <-]. simpl. unfold count_total in Hcl. simpl in Hcl. split; [done | lia]. }
  split.
  { intros w' res. unfold crawl_and_save_papers.
    rewrite (bind_ok _ _ _ _ _ (logger_run _ _ w)).
    intros H. apply bind_inv_ok in H as (w1 & fetched & _ & H).
    by apply (Hsum _ _ _ _ H). }
  split.
  { intros fetched c w0.
    destruct (save_loop_any env fetched c w0) as (w1 & c1 & new & H1 & Hc & Hp & _).
    by exists w1, c1, new. }
  split; [intros c pd w0 e; by apply save_one_flush_fault |].
  split; [exact Hsum |].
  intros fetched w0 e.
  destruct (save_loop_any env fetched
              {| saved_count := 0; duplicate_count := 0; failed_count := 0 |} w0)
    as (wl & cl & new & Hl & _).
  rewrite (save_papers_run _ _ _ _ _ Hl).
  destruct (db_fault env (db_ops wl)) eqn:Hc; simpl; [| done].
  intros [= <-]. done.
Qed.

(** The flush of B raises (the fourth database operation of the run): B is
    counted as failed, C is still saved. *)
Example ingest_failure_scenario :
  let run := crawl_and_save_papers (env_with [3%nat] []) (lit "huggingface") None None
               (world_of []) in
  snd run = Ok {| total_crawled := 3; saved := 2; duplicates := 0; failed := 1 |}
  /\ map p_paper_id (papers (fst run)) = [lit "A"; lit "C"].
Proof. vm_compute. done. Qed.

(** ** Validation of the report content *)

Lemma existsb_str_eqb (f : str) (keys : list str) :
  existsb (str_eqb f) keys = bool_decide (f ∈ keys).
Proof.
  induction keys as [| k keys IH]; simpl.
  - reflexivity.
  - rewrite IH. unfold str_eqb.
    destruct (bool_decide_reflect (f = k)) as [-> | Hne]; simpl.
    + symmetry. apply bool_decide_eq_true_2. apply list_elem_of_here.
    + apply bool_decide_ext. rewrite elem_of_cons. split; [auto | by intros [? | ?]].
Qed.

Lemma missing_of_dict (d : list (str * json)) (fields : list str) :
  missing_of fields (JObj d)
  = Ok (List.filter (fun f => negb (bool_decide (f ∈ map fst d))) fields).
Proof.
  induction fields as [| f fields IH]; simpl; [done |].
  rewrite IH, existsb_str_eqb. by destruct (bool_decide (f ∈ map fst d)).
Qed.

Lemma bad_value_spec (v : json) :
  bad_value v = false <-> exists s, v = JStr s /\ strip s <> [].
Proof.
  split.
  - destruct v as [| | | s | |]; simpl; try done.
    destruct (strip s) eqn:Hs; [done |]. intros _. exists s. by rewrite Hs.
  - intros (s & -> & Hs). simpl. by destruct (strip s).
Qed.

Lemma bad_value_empty (v : json) : ~ non_empty_string v -> bad_value v = true.
Proof.
  intros H. destruct v as [| | | s | |]; try done.
  destruct s as [| c s]; [reflexivity |]. exfalso. apply H. by exists (c :: s).
Qed.

Lemma check_items_spec (d : list (str * json)) :
  match check_items d with
  | Ok _ => forall k v, (k, v) ∈ d -> bad_value v = false
  | Raise e => exists k v, (k, v) ∈ d /\ bad_value v = true /\ e = empty_field_error k
  end.
Proof.
  induction d as [| [k v] d IH]; simpl.
  - by intros k v ?%elem_of_nil.
  - destruct (bad_value v) eqn:Hv.
    + exists k, v. split; [apply list_elem_of_here | done].
    + destruct (check_items d) as [[] | e].
      * intros k' v' [[= -> ->] | H]%elem_of_cons; [done | by eapply IH].
      * destruct IH as (k' & v' & H & Hb & ->). exists k', v'.
        split; [by apply list_elem_of_further | done].
Qed.

(** C7: on a decoded object, validation fails with a ValueError that lists
    exactly the required keys absent from it; it fails with a ValueError as
    well when a key is present with a value that is not a non-empty string;
    and it succeeds only if the seven required keys are all present with
    non-empty strings. *)
Theorem C7_validate_report_content (d : list (str * json)) :
  let missing := List.filter (fun f => negb (bool_decide (f ∈ map fst d)))
                   required_fields in
  (forall k, k ∈ missing <-> k ∈ required_fields /\ (k ∉ map fst d))
  /\ (missing <> [] ->
      _validate_report_content (JObj d) = Raise (missing_fields_error missing))
  /\ (forall k v, (k, v) ∈ d -> ~ non_empty_string v ->
        exists e, _validate_report_content (JObj d) = Raise e
                  /\ exc_cls e = ValueError)
  /\ (_validate_report_content (JObj d) = Ok tt ->
      forall k, k ∈ required_fields -> exists s, (k, JStr s) ∈ d /\ s <> [])
  /\ (_validate_report_content (JObj d) = Ok tt <->
      (forall k, k ∈ required_fields -> k ∈ map fst d)
      /\ (forall k v, (k, v) ∈ d -> exists s, v = JStr s /\ strip s <> [])).
Proof.
  intros missing.
  assert (forall k, k ∈ missing <-> k ∈ required_fields /\ (k ∉ map fst d)) as Hmiss.
  { intros k. unfold missing. rewrite list_elem_of_In, List.filter_In, <- list_elem_of_In.
    rewrite negb_true_iff, bool_decide_eq_false. done. }
  assert (_validate_report_content (JObj d)
          = match missing with
            | [] => check_items d
            | _ :: _ => Raise (missing_fields_error missing)
            end) as Hrun.
  { unfold _validate_report_content. rewrite missing_of_dict. fold missing.
    by destruct missing. }
  assert (_validate_report_content (JObj d) = Ok tt <->
          (forall k, k ∈ required_fields -> k ∈ map fst d)
          /\ (forall k v, (k, v) ∈ d -> exists s, v = JStr s /\ strip s <> [])) as Hiff.
  { rewrite Hrun. pose proof (check_items_spec d) as Hc. split.
    - destruct missing as [| m ms] eqn:Hm; [| done]. intros Hok. rewrite Hok in Hc. split.
      + intros k Hk. destruct (decide (k ∈ map fst d)) as [| Hn]; [done |].
        assert (k ∈ @nil str) as Hin by (by apply Hmiss).
        by apply elem_of_nil in Hin.
      + intros k v Hkv. apply bad_value_spec. by eapply Hc.
    - intros [Hall Hval]. destruct missing as [| m ms] eqn:Hm.
      + destruct (check_items d) as [[] | e]; [done |].
        destruct Hc as (k & v & Hkv & Hb & _).
        apply Hval, bad_value_spec in Hkv. congruence.
      + assert (m ∈ m :: ms) as Hin by apply list_elem_of_here.
        apply Hmiss in Hin as [Hr Hn]. by apply Hall in Hr. }
  split; [exact Hmiss |]. split.
  { intros Hne. rewrite Hrun. by destruct missing. }
  split.
  { intros k v Hkv Hbad. rewrite Hrun. destruct missing as [| m ms].
    - pose proof (check_items_spec d) as Hc.
      destruct (check_items d) as [[] | e].
      + pose proof (Hc k v Hkv) as Hf. rewrite (bad_value_empty v Hbad) in Hf. done.
      + destruct Hc as (k' & v' & _ & _ & ->). by eexists.
    - by eexists. }
  split; [| exact Hiff].
  intros Hok k Hk. apply Hiff in Hok as [Hall Hval].
  apply Hall, list_elem_of_fmap in Hk as ([k' v] & -> & Hkv). simpl.
  destruct (Hval _ _ Hkv) as (s & -> & Hs). exists s. split; [done |].
  intros ->. by apply Hs.
Qed.

Example validation_lists_missing_keys :
  _validate_report_content
    (JObj [(lit "core_summary", JStr (lit "a")); (lit "limitations", JStr (lit "b"));
           (lit "research_background", JStr (lit "c"));
           (lit "application_value", JStr (lit "d"));
           (lit "experiments_results", JStr (lit "e"))])
  = Raise {| exc_cls := ValueError;
             exc_text := lit "Missing required fields: ['technical_innovation', 'recommended_audience']" |}.
Proof. vm_compute. reflexivity. Qed.

Example validation_rejects_empty_value :
  _validate_report_content
    (JObj (map (fun k => (k, JStr (if bool_decide (k = lit "limitations")
                                   then [] else lit "text")))
             required_fields))
  = Raise {| exc_cls := ValueError;
             exc_text := lit "Field 'limitations' must be a non-empty string" |}.
Proof. vm_compute. reflexivity. Qed.

(** ** Fenced blocks in the LLM response *)

Lemma find_from_unfold (P s : str) (i : nat) :
  find_from P s i
  = if startswith P s then Some i
    else match s with
         | [] => None
         | _ :: s' => find_from P s' (S i)
         end.
Proof. by destruct s. Qed.

Lemma find_from_first (P x y : str) (i : nat) :
  (forall k, (k < length x)%nat -> startswith P (drop k (x ++ y)) = false) ->
  startswith P y = true ->
  find_from P (x ++ y) i = Some (i + length x)%nat.
Proof.
  revert i. induction x as [| a x IH]; intros i Hk Hy.
  - simpl. rewrite find_from_unfold, Hy. f_equal. lia.
  - assert (startswith P ((a :: x) ++ y) = false) as H0
      by (apply (Hk 0%nat); simpl; lia).
    rewrite find_from_unfold, H0. simpl.
    rewrite IH; [f_equal; lia | | done].
    intros k Hlt. apply (Hk (S k)). simpl. lia.
Qed.

Lemma find_from_none (P s : str) (i : nat) :
  (forall k, startswith P (drop k s) = false) -> find_from P s i = None.
Proof.
  revert i. induction s as [| a s IH]; intros i H.
  - pose proof (H 0%nat) as H0. simpl in H0. rewrite find_from_unfold. by rewrite H0.
  - pose proof (H 0%nat) as H0. simpl in H0. rewrite find_from_unfold, H0.
    apply IH. intros k. apply (H (S k)).
Qed.

Lemma find_from_none_inv (P s : str) (i : nat) :
  find_from P s i = None -> forall k, startswith P (drop k s) = false.
Proof.
  revert i. induction s as [| a s IH]; intros i H k; rewrite find_from_unfold in H.
  - destruct (startswith P []) eqn:E; [done |]. by destruct k.
  - destruct (startswith P (a :: s)) eqn:E; [done |].
    destruct k as [| k]; [done |]. simpl. by eapply IH.
Qed.

Lemma contains_false (P s : str) : contains P s = false <-> find_from P s 0 = None.
Proof.
  unfold contains, find. simpl. rewrite drop_0.
  destruct (find_from P s 0) as [n |]; simpl.
  - destruct (Z.eqb_spec (Z.of_nat n) (-1)); [lia | done].
  - done.
Qed.

Lemma contains_true (P s : str) (n : nat) :
  find_from P s 0 = Some n -> contains P s = true /\ find s P 0 = Z.of_nat n.
Proof.
  intros H. unfold contains, find. simpl. rewrite drop_0, H.
  split; [| done]. destruct (Z.eqb_spec (Z.of_nat n) (-1)); [lia | done].
Qed.

Lemma startswith_app_long (P x y : str) :
  (length P <= length x)%nat -> startswith P (x ++ y) = startswith P x.
Proof.
  revert x. induction P as [| c P IH]; intros x H; [by destruct x |].
  destruct x as [| d x]; simpl in *; [lia |]. rewrite IH; [done | lia].
Qed.

Lemma startswith_short (P s : str) :
  (length s < length P)%nat -> startswith P s = false.
Proof.
  revert s. induction P as [| c P IH]; intros s H; simpl in *; [lia |].
  destruct s as [| d s]; [done |]. simpl in H. rewrite IH by lia. apply andb_false_r.
Qed.

Lemma startswith_spec (P s : str) :
  startswith P s = true <-> exists t, s = P ++ t.
Proof.
  revert s. induction P as [| c P IH]; intros s; simpl.
  - split; [by exists s | done].
  - destruct s as [| d s]; [split; [done | by intros [t ?]] |].
    rewrite andb_true_iff, N.eqb_eq, IH. split.
    + intros [-> [t ->]]. by exists t.
    + intros [t [= -> ->]]. split; [done | by exists t].
Qed.

Lemma fence_eq : fence = [96; 96; 96]%N.
Proof. reflexivity. Qed.

Lemma fence_json_eq : fence_json = [96; 96; 96; 106; 115; 111; 110]%N.
Proof. reflexivity. Qed.

(** [startswith P s = false], by refuting the equation [s = P ++ t]. *)
Ltac refute_startswith :=
  match goal with
  | |- startswith ?P ?s = false =>
    let E := fresh "E" in
    let t := fresh "t" in
    destruct (startswith P s) eqn:E; [exfalso | reflexivity];
    apply startswith_spec in E as [t E];
    rewrite ?fence_eq, ?fence_json_eq in E; simpl in E
  end.

Lemma startswith_fence_json (s : str) :
  startswith fence_json s = true -> startswith fence s = true.
Proof.
  intros [t ->]%startswith_spec. apply startswith_spec.
  exists (lit "json" ++ t). reflexivity.
Qed.

Lemma last_drop_lt (c : str) (k : nat) :
  (k < length c)%nat -> last (drop k c) = last c.
Proof.
  revert k. induction c as [| a c IH]; intros k H; simpl in *; [lia |].
  destruct k as [| k]; [done |]. simpl. rewrite IH by lia. destruct c; [simpl in H; lia | done].
Qed.

(** In content without a fence marker that does not end in a backquote, the
    first marker of [content ++ fence ++ ...] is the appended one. *)
Lemma closing_fence_first (c post : str) :
  contains fence c = false ->
  last c <> Some 96%N ->
  forall k, (k < length c)%nat -> startswith fence (drop k (c ++ fence ++ post)) = false.
Proof.
  intros Hc Hlast k Hk. rewrite drop_app_le by lia.
  apply contains_false in Hc. pose proof (find_from_none_inv _ _ _ Hc k) as Hx.
  pose proof (last_drop_lt c k Hk) as Hl. rewrite <- Hl in Hlast.
  assert (drop k c <> []) as Hne.
  { intros E. apply (f_equal length) in E. rewrite length_drop in E. simpl in E. lia. }
  destruct (drop k c) as [| a [| b [| d x]]]; [done | | |].
  - simpl in Hlast. refute_startswith. congruence.
  - simpl in Hlast. refute_startswith. congruence.
  - rewrite startswith_app_long; [done | simpl; lia].
Qed.

Lemma find_closing_fence (c post : str) (i : nat) :
  contains fence c = false ->
  last c <> Some 96%N ->
  find_from fence (c ++ fence ++ post) i = Some (i + length c)%nat.
Proof.
  intros Hc Hlast. apply find_from_first; [by apply closing_fence_first |].
  reflexivity.
Qed.

(** A tagged marker cannot start inside [x] and run into a tagged marker
    that follows [x]. *)
Lemma tagged_marker_no_straddle (x rest : str) :
  x <> [] ->
  startswith fence_json x = false ->
  startswith fence_json (x ++ fence_json ++ rest) = false.
Proof.
  intros Hne Hx.
  destruct x as [| a1 [| a2 [| a3 [| a4 [| a5 [| a6 [| a7 x]]]]]]]; [done | ..];
    try (rewrite startswith_app_long; [done | simpl; lia]);
    refute_startswith; congruence.
Qed.

Lemma find_tagged_marker (pre rest : str) :
  contains fence_json pre = false ->
  find_from fence_json (pre ++ fence_json ++ rest) 0 = Some (length pre).
Proof.
  intros Hpre. rewrite find_from_first; [done | | reflexivity].
  intros k Hk. rewrite drop_app_le by lia.
  apply contains_false in Hpre.
  apply tagged_marker_no_straddle; [| by eapply find_from_none_inv].
  intros E. apply (f_equal length) in E. rewrite length_drop in E. simpl in E. lia.
Qed.

Lemma slice_middle {A} (a c b : list A) :
  slice (a ++ c ++ b) (Z.of_nat (length a)) (Z.of_nat (length a + length c)) = c.
Proof.
  unfold slice. rewrite !length_app.
  destruct (Z.ltb_spec (Z.of_nat (length a)) 0); [lia |].
  destruct (Z.ltb_spec (Z.of_nat (length a + length c)) 0); [lia |].
  rewrite !Z.min_l by lia.
  replace (Z.to_nat (Z.of_nat (length a + length c) - Z.of_nat (length a)))
    with (length c) by lia.
  rewrite Nat2Z.id, drop_app_length, take_app_length. done.
Qed.

Lemma find_after (a s P : str) :
  find (a ++ s) P (length a)
  = match find_from P s (length a) with
    | Some i => Z.of_nat i
    | None => -1
    end.
Proof.
  unfold find. rewrite drop_app_length.
  destruct (Nat.ltb_spec (length (a ++ s)) (length a)) as [H | H]; [| done].
  rewrite length_app in H. lia.
Qed.

Lemma no_tagged_marker_bare (c : str) :
  contains fence c = false -> contains fence_json c = false.
Proof.
  intros Hc%contains_false. apply contains_false, find_from_none. intros k.
  destruct (startswith fence_json (drop k c)) eqn:E; [| done].
  apply startswith_fence_json in E. by rewrite (find_from_none_inv _ _ _ Hc k) in E.
Qed.

Lemma no_tagged_marker_tail (c : str) (k : nat) :
  contains fence c = false ->
  last c <> Some 96%N ->
  startswith fence_json (drop k (c ++ fence)) = false.
Proof.
  intros Hc Hlast. destruct (decide (k < length c)%nat) as [Hk | Hk].
  - destruct (startswith fence_json (drop k (c ++ fence))) eqn:E; [| done].
    apply startswith_fence_json in E.
    pose proof (closing_fence_first c [] Hc Hlast k Hk) as H.
    rewrite app_nil_r in H. congruence.
  - apply startswith_short. rewrite length_drop, length_app. simpl. lia.
Qed.

Lemma no_tagged_marker_generic (c : str) :
  contains fence c = false ->
  last c <> Some 96%N ->
  head c <> Some 96%N ->
  startswith (lit "json") c = false ->
  contains fence_json (fence ++ c ++ fence) = false.
Proof.
  intros Hc Hlast Hhead Hjson. apply contains_false, find_from_none.
  intros [| [| [| k]]].
  - change (drop 0 (fence ++ c ++ fence)) with ([96; 96; 96]%N ++ c ++ [96; 96; 96]%N).
    refute_startswith. injection E as E.
    destruct c as [| a [| b [| d [| e c]]]]; simpl in E; try congruence.
    injection E as -> -> -> -> _. done.
  - change (drop 1 (fence ++ c ++ fence)) with ([96; 96]%N ++ c ++ [96; 96; 96]%N).
    refute_startswith. injection E as E.
    destruct c as [| a c]; simpl in *; congruence.
  - change (drop 2 (fence ++ c ++ fence)) with ([96]%N ++ c ++ [96; 96; 96]%N).
    refute_startswith. injection E as E.
    destruct c as [| a c]; simpl in *; congruence.
  - change (drop (S (S (S k))) (fence ++ c ++ fence)) with (drop k (c ++ fence)).
    by apply no_tagged_marker_tail.
Qed.

(** A block tagged as JSON: what precedes the first tagged marker and what
    follows the closing fence is ignored. *)
Lemma extract_tagged (pre c post : str) :
  contains fence_json pre = false ->
  contains fence c = false ->
  last c <> Some 96%N ->
  extract_json_str (pre ++ fence_json ++ c ++ fence ++ post) = strip c.
Proof.
  intros Hpre Hc Hlast. unfold extract_json_str.
  destruct (contains_true _ _ _ (find_tagged_marker pre (c ++ fence ++ post) Hpre))
    as [-> ->].
  replace (Z.to_nat (Z.of_nat (length pre) + 7)) with (length (pre ++ fence_json))
    by (rewrite length_app; simpl; lia).
  replace (pre ++ fence_json ++ c ++ fence ++ post)
    with ((pre ++ fence_json) ++ c ++ fence ++ post) by (by rewrite <- app_assoc).
  rewrite find_after, find_closing_fence by done.
  replace (Z.of_nat (length pre) + 7) with (Z.of_nat (length (pre ++ fence_json)))
    by (rewrite length_app; simpl; lia).
  by rewrite slice_middle.
Qed.

(** A generic fenced block. *)
Lemma extract_generic (c : str) :
  contains fence c = false ->
  last c <> Some 96%N ->
  head c <> Some 96%N ->
  startswith (lit "json") c = false ->
  extract_json_str (fence ++ c ++ fence) = strip c.
Proof.
  intros Hc Hlast Hhead Hjson. unfold extract_json_str.
  rewrite no_tagged_marker_generic by done.
  destruct (contains_true fence (fence ++ c ++ fence) 0 eq_refl) as [-> ->].
  change (Z.to_nat (Z.of_nat 0 + 3)) with (length fence).
  rewrite find_after.
  pose proof (find_closing_fence c [] (length fence) Hc Hlast) as H.
  rewrite app_nil_r in H. rewrite H.
  change (Z.of_nat 0 + 3) with (Z.of_nat (length fence)).
  by rewrite slice_middle.
Qed.

(** Bare content. *)
Lemma extract_bare (c : str) :
  contains fence c = false -> extract_json_str c = strip c.
Proof.
  intros Hc. unfold extract_json_str. by rewrite no_tagged_marker_bare, Hc.
Qed.

Lemma parse_by_extract (env : Env) (r1 r2 : str) :
  extract_json_str r1 = extract_json_str r2 ->
  _parse_llm_response env r1 = _parse_llm_response env r2.
Proof. intros H. unfold _parse_llm_response. by rewrite H. Qed.

(** C8, as amended: for content that holds no fence marker and does not end
    in a backquote, the response parses to the same result (the decoder
    applied to the stripped content) when the content is in a block tagged
    as JSON, whatever precedes the first tagged marker, generic fences
    included, and whatever follows the closing fence; when it is in a
    generic fenced block, provided it does not begin with a backquote or
    with the letters json; and when it is bare. The tagged marker is looked
    for first. A decode failure raises a ValueError that carries the
    decode error text. *)
Theorem C8_parse_forms (env : Env) (pre c post : str) :
  contains fence c = false ->
  last c <> Some 96%N ->
  (contains fence_json pre = false ->
   extract_json_str (pre ++ fence_json ++ c ++ fence ++ post) = strip c
   /\ _parse_llm_response env (pre ++ fence_json ++ c ++ fence ++ post)
      = _parse_llm_response env c)
  /\ (head c <> Some 96%N -> startswith (lit "json") c = false ->
      extract_json_str (fence ++ c ++ fence) = strip c
      /\ _parse_llm_response env (fence ++ c ++ fence) = _parse_llm_response env c)
  /\ extract_json_str c = strip c
  /\ (forall w,
        snd (_parse_llm_response env c w)
        = match json_loads env (strip c) with
          | inl record => Ok record
          | inr e =>
            Raise {| exc_cls := ValueError;
                     exc_text := lit "Failed to parse LLM response as JSON: "
                                   ++ decode_error_text (strip c) e |}
          end)
  /\ (forall response w e,
        json_loads env (extract_json_str response) = inr e ->
        snd (_parse_llm_response env response w)
        = Raise {| exc_cls := ValueError;
                   exc_text := lit "Failed to parse LLM response as JSON: "
                                 ++ decode_error_text (extract_json_str response) e |}).
Proof.
  intros Hc Hlast.
  pose proof (extract_bare c Hc) as Hb.
  split.
  { intros Hpre. pose proof (extract_tagged pre c post Hpre Hc Hlast) as Ht.
    split; [done |]. apply parse_by_extract. by rewrite Ht, Hb. }
  split.
  { intros Hhead Hjson. pose proof (extract_generic c Hc Hlast Hhead Hjson) as Hg.
    split; [done |]. apply parse_by_extract. by rewrite Hg, Hb. }
  split; [done |]. split.
  - intros w. unfold _parse_llm_response. rewrite Hb.
    by destruct (json_loads env (strip c)).
  - intros response w e He. unfold _parse_llm_response. by rewrite He.
Qed.

Lemma C8_parse_forms_witness :
  extract_json_str (lit "Here it is: " ++ fence_json ++ qlit "
{'a': 'b'}
" ++ fence ++ lit " Done.") = qlit "{'a': 'b'}"
  /\ extract_json_str (fence ++ qlit "
{'a': 'b'}
" ++ fence) = qlit "{'a': 'b'}"
  /\ extract_json_str (qlit "
{'a': 'b'}
") = qlit "{'a': 'b'}".
Proof.
  destruct (C8_parse_forms env_ok (lit "Here it is: ") (qlit "
{'a': 'b'}
") (lit " Done.") eq_refl) as (Ht & Hg & Hb & _).
  - vm_compute. discriminate.
  - destruct (Ht eq_refl) as [Ht' _].
    destruct Hg as [Hg' _]; [vm_compute; discriminate | reflexivity |].
    rewrite Ht', Hg', Hb. vm_compute. done.
Defined.

(** C8 as stated fails for content that holds a fence marker inside a
    string: the content is a well-formed object, yet bare it parses to the
    empty object found between its inner markers, and in a tagged block it
    fails to decode. *)
Lemma C8_counterexample :
  loads (qlit "{'core_summary': 'see ```{}``` above'}")
  = inl (JObj [(lit "core_summary", JStr (lit "see ```{}``` above"))])
  /\ snd (_parse_llm_response env_ok (qlit "{'core_summary': 'see ```{}``` above'}")
            (world_of []))
     = Ok (JObj [])
  /\ snd (_parse_llm_response env_ok
            (fence_json ++ qlit "{'core_summary': 'see ```{}``` above'}" ++ fence)
            (world_of []))
     = Raise {| exc_cls := ValueError;
                exc_text := lit "Failed to parse LLM response as JSON: Unterminated string starting at: line 1 column 18 (char 17)" |}.
Proof. vm_compute. done. Qed.

(** Without a closing fence the search returns -1 and the slice drops the
    last character. *)
Example unclosed_block : extract_json_str (lit "```json{}") = lit "{".
Proof. vm_compute. reflexivity. Qed.

(** A generic block before a tagged one: the tagged one is taken. *)
Example tagged_block_preferred :
  extract_json_str (qlit "```
{'a': 1}
```
and
```json
{'b': 2}
```") = qlit "{'b': 2}".
Proof. vm_compute. reflexivity. Qed.

(** ** The retry decorator *)

Section Retry.

Variable env : Env.

Variables (provider title : str) (authors : list str) (abstract source : str)
  (categories : option (list str)).

Let messages := report_messages title authors abstract source categories.
Let attempt := generate_report_attempt env provider title authors abstract source
                 categories.
Let report := generate_report env provider title authors abstract source categories.

Lemma attempt_run w :
  snd (attempt w) = attempt_outcome env provider messages (llm_calls w)
  /\ llm_calls (fst (attempt w)) = S (llm_calls w)
  /\ sleeps (fst (attempt w)) = sleeps w.
Proof.
  unfold attempt, generate_report_attempt, attempt_outcome, _parse_llm_response,
    try_except, bind, logger, modify, ainvoke, lift_result, ret, raise.
  cbv zeta. fold messages.
  cbn [fst snd llm_calls set_llm_calls set_log sleeps].
  destruct (llm_reply env (llm_calls w) messages) as [response | e];
    cbn [fst snd llm_calls set_llm_calls set_log sleeps]; [| done].
  destruct (json_loads env (extract_json_str (content response))) as [v | e];
    cbn [fst snd llm_calls set_llm_calls set_log sleeps]; [| done].
  destruct (_validate_report_content v) as [[] | e];
    cbn [fst snd llm_calls set_llm_calls set_log sleeps]; done.
Qed.

(** [generate_report]: a second attempt after any failure of the first. *)
Lemma generate_report_run w :
  match attempt_outcome env provider messages (llm_calls w) with
  | Ok r =>
    snd (report w) = Ok r
    /\ llm_calls (fst (report w)) = S (llm_calls w)
    /\ sleeps (fst (report w)) = sleeps w
  | Raise _ =>
    snd (report w) = attempt_outcome env provider messages (S (llm_calls w))
    /\ llm_calls (fst (report w)) = S (S (llm_calls w))
    /\ sleeps (fst (report w))
       = sleeps w ++ [wait_exponential (crawler_retry_delay (settings env))
                        (crawler_retry_delay (settings env)) 60 1]
  end.
Proof.
  unfold report, generate_report, async_retry. change (Z.to_nat (2 - 1)) with 1%nat.
  cbn [retrying]. fold attempt.
  destruct (attempt_run w) as (Hr & Hc & Hs).
  destruct (attempt w) as [w1 r1] eqn:E1.
  simpl in Hr, Hc, Hs. rewrite <- Hr. destruct r1 as [r | e].
  - rewrite (try_except_ok _ _ _ _ _ E1). done.
  - rewrite (try_except_raise _ _ _ _ _ E1). cbn [isinstance existsb orb].
    rewrite (bind_ok _ _ _ _ _ (logger_run _ _ w1)).
    rewrite (bind_ok _ _ _ _ _ (sleep_run _ _)).
    set (w2 := set_sleeps _ _).
    destruct (attempt_run w2) as (Hr2 & Hc2 & Hs2).
    assert (llm_calls w2 = S (llm_calls w)) as Hk by (by rewrite <- Hc).
    assert (sleeps w2 = sleeps w ++ [wait_exponential (crawler_retry_delay (settings env))
                                      (crawler_retry_delay (settings env)) 60 1]) as Hsl.
    { unfold w2. simpl. by rewrite Hs. }
    rewrite Hk in Hr2, Hc2. rewrite Hsl in Hs2. rewrite <- Hr2.
    unfold try_except.
    destruct (attempt w2) as [w3 [r3 | e3]]; simpl in *; done.
Qed.

Lemma fetch_attempt_run date w :
  snd (fetch_daily_papers_attempt env date w) = http_reply env (http_calls w)
  /\ http_calls (fst (fetch_daily_papers_attempt env date w)) = S (http_calls w)
  /\ sleeps (fst (fetch_daily_papers_attempt env date w)) = sleeps w.
Proof.
  unfold fetch_daily_papers_attempt, bind, logger, modify, ret.
  cbn [fst snd http_calls set_http_calls set_log sleeps].
  destruct (http_reply env (http_calls w));
    cbn [fst snd http_calls set_http_calls set_log sleeps]; done.
Qed.

(** The fetch is attempted at least once and at most [more + 1] times. *)
Lemma fetch_retrying_bound date exceptions more :
  forall d n w,
    let run := retrying more d n exceptions (fetch_daily_papers_attempt env date) w in
    (http_calls w < http_calls (fst run) <= http_calls w + S more)%nat.
Proof.
  induction more as [| more IH]; intros d n w; cbn [retrying]; cbv zeta;
    destruct (fetch_attempt_run date w) as (_ & Hc & _);
    unfold try_except;
    destruct (fetch_daily_papers_attempt env date w) as [w1 [r | e]];
    simpl in Hc; simpl; try lia.
  - destruct (isinstance e exceptions); simpl; lia.
  - destruct (isinstance e exceptions); simpl; [| lia].
    rewrite (bind_ok _ _ _ _ _ (logger_run _ _ w1)).
    rewrite (bind_ok _ _ _ _ _ (sleep_run _ _)).
    set (w2 := set_sleeps _ _).
    specialize (IH d (n + 1) w2). cbv zeta in IH.
    assert (http_calls w2 = http_calls w1) as E by reflexivity. lia.
Qed.

End Retry.

(** C3, as amended: the retry decorator of the Generator wraps a whole
    attempt of [generate_report] (the LLM request, the parse and the
    validation), allows two attempts and retries on every exception: when
    the first attempt fails, be it the request, the parse or the
    validation, the LLM is invoked a second time after one backoff delay
    and the outcome of that second attempt is final. The retry of the
    Fetcher re-runs the fetch only on HTTP and timeout errors, any other
    exception ending it at once, and makes at most max(1, max_retries)
    attempts. A delay never exceeds the larger of 60 and its minimum. *)
Theorem C3_retry_scope (env : Env) (provider title : str) (authors : list str)
    (abstract source : str) (categories : option (list str)) (date : option str)
    (w : World) :
  let messages := report_messages title authors abstract source categories in
  let run := generate_report env provider title authors abstract source categories w in
  match attempt_outcome env provider messages (llm_calls w) with
  | Ok r =>
    snd run = Ok r
    /\ llm_calls (fst run) = S (llm_calls w)
    /\ sleeps (fst run) = sleeps w
  | Raise _ =>
    snd run = attempt_outcome env provider messages (S (llm_calls w))
    /\ llm_calls (fst run) = S (S (llm_calls w))
    /\ sleeps (fst run)
       = sleeps w ++ [wait_exponential (crawler_retry_delay (settings env))
                        (crawler_retry_delay (settings env)) 60 1]
  end
  /\ (forall response e,
        llm_reply env (llm_calls w) messages = Ok response ->
        json_loads env (extract_json_str (content response)) = inr e ->
        llm_calls (fst run) = S (S (llm_calls w)))
  /\ (forall response record e,
        llm_reply env (llm_calls w) messages = Ok response ->
        json_loads env (extract_json_str (content response)) = inl record ->
        _validate_report_content record = Raise e ->
        llm_calls (fst run) = S (S (llm_calls w)))
  /\ (forall e,
        http_reply env (http_calls w) = Raise e ->
        isinstance e [OfClass HTTPError; OfClass TimeoutException] = false ->
        snd (fetch_daily_papers env date w) = Raise e
        /\ http_calls (fst (fetch_daily_papers env date w)) = S (http_calls w)
        /\ sleeps (fst (fetch_daily_papers env date w)) = sleeps w)
  /\ (http_calls w < http_calls (fst (fetch_daily_papers env date w))
      <= http_calls w + Z.to_nat (Z.max 1 (crawler_max_retries (settings env))))%nat
  /\ (forall multiplier mn attempt_number,
        wait_exponential multiplier mn 60 attempt_number <= Z.max (Z.max 0 mn) 60).
Proof.
  intros messages run.
  pose proof (generate_report_run env provider title authors abstract source
                categories w) as Hrun.
  fold messages in Hrun. fold run in Hrun.
  split; [exact Hrun |]. split.
  { intros response e Hreply Hloads. unfold attempt_outcome in Hrun.
    rewrite Hreply in Hrun. cbv zeta in Hrun. rewrite Hloads in Hrun. tauto. }
  split.
  { intros response record e Hreply Hloads Hval. unfold attempt_outcome in Hrun.
    rewrite Hreply in Hrun. cbv zeta in Hrun. rewrite Hloads, Hval in Hrun. tauto. }
  split.
  { intros e Hreply Hinst. unfold fetch_daily_papers, async_retry.
    destruct (fetch_attempt_run env date w) as (Hr & Hc & Hs).
    destruct (fetch_daily_papers_attempt env date w) as [w1 r1] eqn:E1.
    simpl in Hr, Hc, Hs. rewrite Hreply in Hr. subst r1.
    destruct (Z.to_nat (crawler_max_retries (settings env) - 1)); cbn [retrying];
      rewrite (try_except_raise _ _ _ _ _ E1), Hinst; done. }
  split.
  { unfold fetch_daily_papers, async_retry.
    pose proof (fetch_retrying_bound env date
                  [OfClass HTTPError; OfClass TimeoutException]
                  (Z.to_nat (crawler_max_retries (settings env) - 1))
                  (crawler_retry_delay (settings env)) 1 w) as H.
    cbv zeta in H. lia. }
  intros multiplier mn attempt_number. unfold wait_exponential. lia.
Qed.

(** C3 as stated fails: the first answer cannot be decoded, the parse
    failure is retried, the LLM is invoked a second time after a delay of
    5 seconds, and the generation then succeeds. *)
Lemma C3_counterexample :
  loads (extract_json_str (lit "oops"))
  = inr {| jmsg := lit "Expecting value"; jpos := 0 |}
  /\ llm_calls (fst (generate_paper_report (env_with [] [lit "oops"])
                       (paper_row 1 "A" "NEW") None (world_of []))) = 2%nat
  /\ sleeps (fst (generate_paper_report (env_with [] [lit "oops"])
                    (paper_row 1 "A" "NEW") None (world_of []))) = [5]
  /\ is_ok (snd (generate_paper_report (env_with [] [lit "oops"])
                   (paper_row 1 "A" "NEW") None (world_of []))) = true.
Proof. vm_compute. done. Qed.

(** Two undecodable answers: two requests, then the parse error. *)
Example parse_failure_twice :
  llm_calls (fst (generate_paper_report (env_with [] [lit "oops"; lit "oops"])
                    (paper_row 1 "A" "NEW") None (world_of []))) = 2%nat
  /\ snd (generate_paper_report (env_with [] [lit "oops"; lit "oops"])
            (paper_row 1 "A" "NEW") None (world_of []))
     = Raise {| exc_cls := ValueError;
                exc_text := lit "Failed to parse LLM response as JSON: Expecting value: line 1 column 1 (char 0)" |}.
Proof. vm_compute. done. Qed.

(** ** Regeneration of an unknown paper under the task wrapper *)

Section Regenerate.

Variable env : Env.

Lemma regenerate_unknown pid provider w :
  pid ∉ map p_paper_id (papers w) ->
  regenerate_report env pid provider w
  = (set_db_ops S w,
     Raise (default (not_found_error pid) (db_fault env (db_ops w)))).
Proof.
  intros Hpid. apply (where_from_absent _ _ 0) in Hpid.
  unfold regenerate_report, bind. rewrite select_paper_run, Hpid.
  by destruct (db_fault env (db_ops w)).
Qed.

Lemma flush_new_task_run mk w :
  flush_new_task env mk w
  = match db_fault env (db_ops w) with
    | Some e => (set_db_ops S w, Raise e)
    | None => (set_tasks (fun l => l ++ [mk (S (length l))]) (set_db_ops S w),
               Ok (length (tasks w)))
    end.
Proof.
  unfold flush_new_task, bind, db_op, get, modify.
  by destruct (db_fault env (db_ops w)).
Qed.

(** What the wrapper does for an identifier that no row has, once its task
    row is created: [e0] is the error of the lookup, if it raises. *)
Lemma generate_reports_unknown request pid w :
  req_paper_id request = Some pid ->
  pid <> [] ->
  pid ∉ map p_paper_id (papers w) ->
  db_fault env (db_ops w) = None ->
  let e0 := default (not_found_error pid) (db_fault env (S (db_ops w))) in
  tasks (fst (generate_reports env request w))
    = tasks w ++ [finish_task env (lit "FAILED") None (Some (exc_text e0))
                    (running_task request (S (length (tasks w))))]
  /\ snd (generate_reports env request w)
     = Raise (default {| exc_cls := HTTPException 500;
                         exc_text := lit "Generation failed: " ++ exc_text e0 |}
                (db_fault env (S (S (db_ops w)))))
  /\ papers (fst (generate_reports env request w)) = papers w
  /\ reports (fst (generate_reports env request w)) = reports w.
Proof.
  intros Hreq Hne Hpid Hdb e0. unfold generate_reports.
  rewrite (bind_ok _ _ _ _ _ (logger_run _ _ w)).
  set (w0 := set_log _ w).
  assert (flush_new_task env (running_task request) w0
          = (set_tasks (fun l => l ++ [running_task request (S (length l))])
               (set_db_ops S w0), Ok (length (tasks w0)))) as Hflush.
  { rewrite flush_new_task_run. change (db_ops w0) with (db_ops w). by rewrite Hdb. }
  rewrite (bind_ok _ _ _ _ _ Hflush).
  set (w1 := set_tasks _ _).
  assert (truthy_str (req_paper_id request) = true) as Ht.
  { rewrite Hreq. by destruct pid. }
  rewrite Ht, Hreq. cbn [default].
  assert (pid ∉ map p_paper_id (papers w1)) as Hpid1 by exact Hpid.
  pose proof (regenerate_unknown pid (req_llm_provider request) w1 Hpid1) as Hreg.
  change (db_fault env (db_ops w1)) with (db_fault env (S (db_ops w))) in Hreg.
  fold e0 in Hreg.
  rewrite (try_except_raise _ _ _ _ _
             (bind_raise _ _ _ _ _ (bind_raise _ _ _ _ _ Hreg))).
  unfold bind, update_task, logger, modify, db_op, raise.
  cbn [fst snd set_tasks set_db_ops set_log tasks papers reports db_ops].
  change (db_ops w1) with (S (db_ops w)).
  destruct (db_fault env (S (S (db_ops w))));
    cbn [fst snd set_tasks set_db_ops set_log tasks papers reports db_ops default];
    (split; [| done]);
    unfold w1; cbn [tasks set_tasks set_db_ops];
    change (tasks w0) with (tasks w);
    rewrite alter_app_r_alt by lia;
    rewrite Nat.sub_diag; reflexivity.
Qed.

End Regenerate.

(** C9: a generation request for a paper identifier that no row has, once
    the task row of the invocation is created: regeneration raises the
    not-found error ("Paper not found: ..."), the task row ends FAILED with
    the error text and the end time and no result summary, it is never
    SUCCESS, no paper or report row changes, and the failure is signalled
    to the caller (as HTTP 500 carrying the error text or, if the final
    commit raises, as that error). *)
Theorem C9_regenerate_unknown (env : Env) (request : GenerateReportRequest)
    (pid : str) (w : World) :
  req_paper_id request = Some pid ->
  pid <> [] ->
  pid ∉ map p_paper_id (papers w) ->
  db_fault env (db_ops w) = None ->
  (exists task,
     tasks (fst (generate_reports env request w)) = tasks w ++ [task]
     /\ t_status task = lit "FAILED"
     /\ t_status task <> lit "SUCCESS"
     /\ t_end_time task = Some (now env)
     /\ is_Some (t_error_message task)
     /\ t_result_summary task = None
     /\ (db_fault env (S (db_ops w)) = None ->
         t_error_message task = Some (lit "Paper not found: " ++ pid)))
  /\ is_ok (snd (generate_reports env request w)) = false
  /\ papers (fst (generate_reports env request w)) = papers w
  /\ reports (fst (generate_reports env request w)) = reports w
  /\ (forall w1, pid ∉ map p_paper_id (papers w1) ->
        db_fault env (db_ops w1) = None ->
        snd (regenerate_report env pid (req_llm_provider request) w1)
        = Raise {| exc_cls := ValueError; exc_text := lit "Paper not found: " ++ pid |})
  /\ (db_fault env (S (db_ops w)) = None ->
      snd (generate_reports env request w)
      = Raise (default {| exc_cls := HTTPException 500;
                          exc_text := lit "Generation failed: Paper not found: " ++ pid |}
                 (db_fault env (S (S (db_ops w)))))).
Proof.
  intros Hreq Hne Hpid Hdb.
  destruct (generate_reports_unknown env request pid w Hreq Hne Hpid Hdb)
    as (Ht & Hr & Hp & Hrep).
  cbv zeta in Ht, Hr. split.
  { eexists. split; [exact Ht |]. simpl. repeat split; try done.
    intros Hlook. by rewrite Hlook. }
  split.
  { rewrite Hr. by destruct (db_fault env (S (S (db_ops w)))). }
  split; [done |]. split; [done |]. split.
  { intros w1 Hpid1 Hdb1. rewrite regenerate_unknown by done. simpl. by rewrite Hdb1. }
  intros Hlook. rewrite Hr, Hlook. reflexivity.
Qed.

Lemma C9_regenerate_unknown_witness :
  (exists task,
     tasks (fst (generate_reports env_ok
                   {| req_paper_id := Some (lit "zzz"); req_llm_provider := None;
                      req_force_regenerate := false |} world_a))
     = tasks world_a ++ [task]
     /\ t_status task = lit "FAILED"
     /\ t_error_message task = Some (lit "Paper not found: zzz"))
  /\ snd (generate_reports env_ok
            {| req_paper_id := Some (lit "zzz"); req_llm_provider := None;
               req_force_regenerate := false |} world_a)
     = Raise {| exc_cls := HTTPException 500;
                exc_text := lit "Generation failed: Paper not found: zzz" |}.
Proof.
  destruct (C9_regenerate_unknown env_ok
              {| req_paper_id := Some (lit "zzz"); req_llm_provider := None;
                 req_force_regenerate := false |} (lit "zzz") world_a eq_refl)
    as ((task & Ht & Hs & _ & _ & _ & _ & He) & _ & _ & _ & _ & Hr).
  - discriminate.
  - vm_compute. intros H. inversion H as [| ? ? ? H']. inversion H'.
  - reflexivity.
  - split; [| exact (Hr eq_refl)].
    exists task. split; [exact Ht |]. split; [exact Hs | exact (He eq_refl)].
Defined.

(** * The rest of the orchestration code *)

(** ** What a computation leaves unchanged *)

#[local] Instance keeps_preorder {A} (f : World -> A) : PreOrder (keeps f).
Proof.
  split; [by intros w | intros w1 w2 w3 H1 H2; unfold keeps in *; congruence].
Qed.

Ltac stable_walk leaf :=
  repeat first
    [ leaf
    | apply stable_ret | apply stable_raise | apply stable_get | apply stable_lift
    | apply stable_bind; [| intros ?]
    | apply stable_try_except; [| intros ?]
    | match goal with
      | |- stable _ (match ?x with _ => _ end) => destruct x
      end ].

Section Keeps.

Context {A : Type} (f : World -> A).

Hypothesis f_db : forall g w, f (set_db_ops g w) = f w.
Hypothesis f_llm : forall g w, f (set_llm_calls g w) = f w.
Hypothesis f_doc : forall g w, f (set_doc_calls g w) = f w.
Hypothesis f_http : forall g w, f (set_http_calls g w) = f w.
Hypothesis f_sleeps : forall g w, f (set_sleeps g w) = f w.
Hypothesis f_log : forall g w, f (set_log g w) = f w.

Variable env : Env.

Lemma keeps_logger msg arg : stable (keeps f) (logger msg arg).
Proof. apply stable_modify. intros w. apply f_log. Qed.

Lemma keeps_db_op : stable (keeps f) (db_op env).
Proof. intros w. unfold db_op. destruct (db_fault env (db_ops w)); apply f_db. Qed.

Lemma keeps_ainvoke messages : stable (keeps f) (ainvoke env messages).
Proof. intros w. apply f_llm. Qed.

Lemma keeps_sleep d : stable (keeps f) (sleep d).
Proof. apply stable_modify. intros w. apply f_sleeps. Qed.

Lemma keeps_retrying {B} (func : M B) exceptions :
  stable (keeps f) func ->
  forall more d n, stable (keeps f) (retrying more d n exceptions func).
Proof.
  intros Hf more. induction more as [| more IH]; intros d n; simpl.
  - apply stable_try_except; [done |]. intros e.
    destruct (isinstance e exceptions); apply stable_raise.
  - apply stable_try_except; [done |]. intros e.
    destruct (isinstance e exceptions); [| apply stable_raise].
    apply stable_bind; [apply keeps_logger |]. intros _.
    apply stable_bind; [apply keeps_sleep |]. intros _. apply IH.
Qed.

Lemma keeps_generate_paper_report paper provider :
  stable (keeps f) (generate_paper_report env paper provider).
Proof.
  unfold generate_paper_report, generate_report, async_retry.
  apply keeps_retrying. unfold generate_report_attempt, _parse_llm_response. cbv zeta.
  stable_walk ltac:(first [apply keeps_logger | apply keeps_ainvoke]).
Qed.

Lemma keeps_create_markdown_report paper c m :
  stable (keeps f) (create_markdown_report env paper c m).
Proof.
  unfold create_markdown_report.
  apply stable_bind; [intros w; apply f_doc |]. intros r.
  stable_walk ltac:(apply keeps_logger).
Qed.

Lemma keeps_crawl_huggingface_papers date limit :
  stable (keeps f) (crawl_huggingface_papers env date limit).
Proof.
  unfold crawl_huggingface_papers, fetch_daily_papers, async_retry.
  apply stable_bind; [| intros ?; apply stable_ret].
  apply keeps_retrying. unfold fetch_daily_papers_attempt.
  apply stable_bind; [apply keeps_logger |]. intros _.
  apply stable_bind; [intros w; apply f_http |]. intros r.
  stable_walk ltac:(apply keeps_logger).
Qed.

Lemma keeps_select_paper pid : stable (keeps f) (select_paper_by_paper_id env pid).
Proof.
  unfold select_paper_by_paper_id.
  apply stable_bind; [apply keeps_db_op |]. intros _.
  apply stable_bind; [apply stable_get |]. intros [| i [| j rows]];
    first [apply stable_ret | apply stable_raise].
Qed.

Lemma keeps_select_new limit : stable (keeps f) (select_new_papers env limit).
Proof.
  unfold select_new_papers.
  apply stable_bind; [apply keeps_db_op |]. intros _.
  apply stable_bind; [apply stable_get |]. intros rows.
  destruct (truthy_int limit); [| apply stable_ret].
  cbv zeta. destruct (default 0 limit <? 0); [apply stable_raise | apply stable_ret].
Qed.

Hypothesis f_papers : forall g w, f (set_papers g w) = f w.

Lemma keeps_set_status i s : stable (keeps f) (set_status i s).
Proof. apply stable_modify. intros w. apply f_papers. Qed.

Lemma keeps_flush_new_paper mk : stable (keeps f) (flush_new_paper env mk).
Proof.
  unfold flush_new_paper.
  apply stable_bind; [apply keeps_db_op |]. intros _.
  apply stable_bind; [apply stable_get |]. intros i.
  apply stable_bind; [| intros _; apply stable_ret].
  apply stable_modify. intros w. apply f_papers.
Qed.

Lemma keeps_crawl_and_save_papers source date limit :
  stable (keeps f) (crawl_and_save_papers env source date limit).
Proof.
  unfold crawl_and_save_papers, save_papers.
  apply stable_bind; [apply keeps_logger |]. intros _.
  apply stable_bind.
  { destruct (str_eqb source (lit "huggingface"));
      [apply keeps_crawl_huggingface_papers | apply stable_raise]. }
  intros ps.
  apply stable_bind.
  { apply stable_for_each. intros c pd. unfold save_one.
    apply stable_try_except.
    - apply stable_bind; [apply keeps_select_paper |]. intros [i |].
      + stable_walk ltac:(apply keeps_logger).
      + apply stable_bind; [apply keeps_flush_new_paper |]. intros _.
        stable_walk ltac:(apply keeps_logger).
    - intros e. stable_walk ltac:(apply keeps_logger). }
  intros c. apply stable_bind; [apply keeps_db_op |]. intros _.
  cbv zeta. stable_walk ltac:(apply keeps_logger).
Qed.

Lemma keeps_analysis_prologue i : stable (keeps f) (analysis_prologue env i).
Proof.
  unfold analysis_prologue, paper_at.
  stable_walk ltac:(first [apply keeps_logger | apply keeps_set_status | apply keeps_db_op]).
Qed.

Lemma keeps_analysis_failed i e : stable (keeps f) (analysis_failed env i e).
Proof.
  unfold analysis_failed.
  stable_walk ltac:(first [apply keeps_logger | apply keeps_set_status | apply keeps_db_op]).
Qed.

Hypothesis f_reports : forall g w, f (set_reports g w) = f w.

Lemma keeps_single_report i provider :
  stable (keeps f) (_generate_single_report env i provider).
Proof.
  unfold _generate_single_report.
  apply stable_bind; [apply keeps_analysis_prologue |]. intros _.
  apply stable_try_except; [| intros e; apply keeps_analysis_failed].
  unfold analysis_steps, paper_at, flush_new_report.
  apply stable_bind; [apply stable_get |]. intros pd.
  apply stable_bind; [apply keeps_generate_paper_report |]. intros llm.
  apply stable_bind; [apply keeps_create_markdown_report |]. intros fp.
  apply stable_bind; [apply keeps_set_status |]. intros _.
  apply stable_bind.
  { apply stable_bind; [apply keeps_db_op |]. intros _.
    apply stable_bind; [apply stable_get |]. intros k.
    apply stable_bind; [| intros _; apply stable_ret].
    apply stable_modify. intros w. apply f_reports. }
  intros rp. stable_walk ltac:(apply keeps_logger).
Qed.

Lemma keeps_generate_reports_batch provider limit :
  stable (keeps f) (generate_reports_batch env provider limit).
Proof.
  unfold generate_reports_batch.
  apply stable_bind; [apply keeps_logger |]. intros _.
  apply stable_bind; [apply keeps_select_new |]. intros [| i sel].
  { stable_walk ltac:(apply keeps_logger). }
  apply stable_bind.
  { apply stable_for_each. intros c j. unfold batch_one, paper_at.
    apply stable_try_except.
    - apply stable_bind; [apply keeps_single_report | intros ?; apply stable_ret].
    - intros e.
      stable_walk ltac:(first [apply keeps_logger | apply keeps_set_status]). }
  intros c. apply stable_bind; [apply keeps_db_op |]. intros _.
  cbv zeta. stable_walk ltac:(apply keeps_logger).
Qed.

Lemma keeps_regenerate_report pid provider :
  stable (keeps f) (regenerate_report env pid provider).
Proof.
  unfold regenerate_report.
  apply stable_bind; [apply keeps_select_paper |]. intros [i |]; [| apply stable_raise].
  apply stable_bind; [apply keeps_single_report |]. intros r.
  apply stable_bind; [apply keeps_db_op | intros _; apply stable_ret].
Qed.

End Keeps.

(** ** What validation accepts *)

Lemma required_fields_cons :
  exists k ks, required_fields = k :: ks.
Proof. by eexists _, _. Qed.

Lemma validate_dict (d : list (str * json)) :
  _validate_report_content (JObj d) = Ok tt <-> valid_content (JObj d).
Proof.
  unfold _validate_report_content, valid_content. rewrite missing_of_dict.
  set (missing := List.filter _ required_fields).
  assert (forall k, k ∈ missing <-> k ∈ required_fields /\ (k ∉ map fst d)) as Hmiss.
  { intros k. unfold missing. rewrite list_elem_of_In, List.filter_In, <- list_elem_of_In.
    rewrite negb_true_iff, bool_decide_eq_false. done. }
  pose proof (check_items_spec d) as Hc. split.
  - destruct missing as [| m ms] eqn:Hm; [| done]. intros Hok. rewrite Hok in Hc.
    exists d. split; [done |]. split.
    + intros k Hk. destruct (decide (k ∈ map fst d)) as [| Hn]; [done |].
      assert (k ∈ @nil str) as Hin by (by apply Hmiss).
      by apply elem_of_nil in Hin.
    + intros k v Hkv. apply bad_value_spec. by eapply Hc.
  - intros (d' & [= <-] & Hall & Hval). destruct missing as [| m ms] eqn:Hm.
    + destruct (check_items d) as [[] | e]; [done |].
      destruct Hc as (k & v & Hkv & Hb & _).
      apply Hval, bad_value_spec in Hkv. congruence.
    + assert (m ∈ m :: ms) as Hin by apply list_elem_of_here.
      apply Hmiss in Hin as [Hr Hn]. by apply Hall in Hr.
Qed.

Lemma validate_not_dict (content : json) :
  (forall d, content <> JObj d) ->
  exists e, _validate_report_content content = Raise e.
Proof.
  intros Hnd. unfold _validate_report_content.
  destruct (missing_of required_fields content) as [[| m ms] | e]; [| by eexists ..].
  destruct content; try (by eexists). by destruct (Hnd d).
Qed.

Lemma validate_ok (content : json) :
  _validate_report_content content = Ok tt <-> valid_content content.
Proof.
  destruct content as [| b | raw | s | l | d]; try apply validate_dict;
    (split; [| by intros (d & ? & _)]); intros H;
    match type of H with
    | _validate_report_content ?c = _ =>
      destruct (validate_not_dict c) as [e He]; [done | congruence]
    end.
Qed.

Lemma missing_of_all_present (fields : list str) (content : json) :
  (forall k, k ∈ fields -> py_in k content = Ok true) ->
  missing_of fields content = Ok [].
Proof.
  induction fields as [| k fields IH]; intros H; simpl; [done |].
  rewrite (H k) by apply list_elem_of_here.
  rewrite IH; [done |]. intros k' Hk'. apply H. by apply list_elem_of_further.
Qed.

Lemma py_in_list (k : str) (l : list json) :
  JStr k ∈ l -> py_in k (JArr l) = Ok true.
Proof.
  intros H. simpl. f_equal. apply existsb_exists. exists (JStr k).
  split; [by apply list_elem_of_In |]. unfold str_eqb. by apply bool_decide_eq_true_2.
Qed.

(** X1: validation accepts a decoded value exactly when it is an object
    that has the seven required keys and whose values are all strings with
    a character that is not white space. A value that is not an object is
    never accepted: a number, a boolean or null raises a TypeError, and a
    JSON array that lists all seven names, or a string in which all seven
    occur, passes the presence check and then raises an AttributeError. *)
Theorem validate_accepts_only_objects (content : json) :
  (_validate_report_content content = Ok tt <-> valid_content content)
  /\ ((forall d, content <> JObj d) ->
      exists e, _validate_report_content content = Raise e)
  /\ (match content with
      | JNull | JBool _ | JNum _ =>
        exists e, _validate_report_content content = Raise e
                  /\ exc_cls e = TypeError
      | _ => True
      end)
  /\ (forall l, content = JArr l ->
        (forall k, k ∈ required_fields -> JStr k ∈ l) ->
        _validate_report_content content
        = Raise {| exc_cls := AttributeError;
                   exc_text := lit "'list' object has no attribute 'items'" |})
  /\ (forall s, content = JStr s ->
        (forall k, k ∈ required_fields -> contains k s = true) ->
        _validate_report_content content
        = Raise {| exc_cls := AttributeError;
                   exc_text := lit "'str' object has no attribute 'items'" |}).
Proof.
  split; [apply validate_ok |]. split; [apply validate_not_dict |]. split.
  { destruct content; try done; by eexists. }
  split.
  - intros l -> H. unfold _validate_report_content.
    rewrite missing_of_all_present; [vm_compute; reflexivity |].
    intros k Hk. by apply py_in_list, H.
  - intros s -> H. unfold _validate_report_content.
    rewrite missing_of_all_present; [vm_compute; reflexivity |].
    intros k Hk. unfold py_in. by rewrite H.
Qed.

Example validation_rejects_list_of_names :
  _validate_report_content (JArr (map JStr required_fields))
  = Raise {| exc_cls := AttributeError;
             exc_text := lit "'list' object has no attribute 'items'" |}.
Proof. vm_compute. reflexivity. Qed.

(** ** What the generator returns *)

Lemma attempt_outcome_ok env provider messages k r :
  attempt_outcome env provider messages k = Ok r ->
  valid_content (lr_content r)
  /\ lr_llm_provider r = provider
  /\ lr_llm_model r = llm_model_of (settings env) provider
  /\ exists response,
       llm_reply env k messages = Ok response
       /\ json_loads env (extract_json_str (content response)) = inl (lr_content r)
       /\ lr_generation_time r = elapsed response
       /\ lr_token_usage r = usage response.
Proof.
  unfold attempt_outcome. destruct (llm_reply env k messages) as [response | e]; [| done].
  cbv zeta. destruct (json_loads env _) as [v | e] eqn:Hl; [| done].
  destruct (_validate_report_content v) as [[] | e] eqn:Hv; [| done].
  intros [= <-]. simpl. split; [by apply validate_ok |].
  split; [done |]. split; [done |]. by exists response.
Qed.

Lemma generate_report_ok env provider title authors abstract source categories w r :
  snd (generate_report env provider title authors abstract source categories w) = Ok r ->
  exists k, (k = llm_calls w \/ k = S (llm_calls w))
            /\ attempt_outcome env provider
                 (report_messages title authors abstract source categories) k = Ok r.
Proof.
  intros H.
  pose proof (generate_report_run env provider title authors abstract source
                categories w) as Hrun.
  destruct (attempt_outcome env provider _ (llm_calls w)) as [r1 | e1] eqn:H1.
  - destruct Hrun as (Hr & _). exists (llm_calls w). split; [by left | congruence].
  - destruct Hrun as (Hr & _). exists (S (llm_calls w)). split; [by right | congruence].
Qed.

(** X2: whatever [generate_report] returns has passed validation, under
    either attempt: its content is the decoded answer of the first or of
    the second LLM request of the call, an object with the seven required
    keys and non-blank string values, and it carries the provider asked for,
    the model configured for it and the time and token usage of that
    request. *)
Theorem generate_report_returns_valid (env : Env) (provider title : str)
    (authors : list str) (abstract source : str) (categories : option (list str))
    (w : World) (r : LLMResult) :
  snd (generate_report env provider title authors abstract source categories w) = Ok r ->
  valid_content (lr_content r)
  /\ lr_llm_provider r = provider
  /\ lr_llm_model r = llm_model_of (settings env) provider
  /\ exists k response,
       (k = llm_calls w \/ k = S (llm_calls w))
       /\ llm_reply env k (report_messages title authors abstract source categories)
          = Ok response
       /\ json_loads env (extract_json_str (content response)) = inl (lr_content r)
       /\ lr_generation_time r = elapsed response
       /\ lr_token_usage r = usage response.
Proof.
  intros H. apply generate_report_ok in H as (k & Hk & H).
  apply attempt_outcome_ok in H as (Hv & Hp & Hm & response & H).
  split; [done |]. split; [done |]. split; [done |]. by exists k, response.
Qed.

Lemma generate_report_returns_valid_witness :
  exists r,
    snd (generate_report env_ok (lit "openai") (lit "A title") [lit "Unknown"]
           (lit "No abstract available") (lit "HUGGINGFACE") None (world_of [])) = Ok r
    /\ valid_content (lr_content r)
    /\ lr_llm_provider r = lit "openai".
Proof.
  eexists. split; [vm_compute; reflexivity |].
  destruct (generate_report_returns_valid env_ok (lit "openai") (lit "A title")
              [lit "Unknown"] (lit "No abstract available") (lit "HUGGINGFACE") None
              (world_of []) _ eq_refl) as (Hv & Hp & _).
  split; [exact Hv | exact Hp].
Defined.

(** ** The report rows of single-paper analysis *)

Section ReportRows.

Variable env : Env.

Lemma flush_new_report_run mk w :
  flush_new_report env mk w
  = match db_fault env (db_ops w) with
    | Some e => (set_db_ops S w, Raise e)
    | None => (set_reports (fun l => l ++ [mk (S (length l))]) (set_db_ops S w),
               Ok (length (reports w)))
    end.
Proof.
  unfold flush_new_report, bind, db_op, get, modify.
  by destruct (db_fault env (db_ops w)).
Qed.

Lemma generation_keeps_reports paper provider w :
  reports (fst (generate_paper_report env paper provider w)) = reports w.
Proof. apply (keeps_generate_paper_report reports); done. Qed.

Lemma markdown_keeps_reports paper c m w :
  reports (fst (create_markdown_report env paper c m w)) = reports w.
Proof. apply (keeps_create_markdown_report reports); done. Qed.

Lemma generate_paper_report_ok paper provider w llm :
  snd (generate_paper_report env paper provider w) = Ok llm ->
  valid_content (lr_content llm)
  /\ lr_llm_model llm = llm_model_of (settings env) (lr_llm_provider llm)
  /\ lr_llm_provider llm
     = match provider with
       | Some (c :: p) => c :: p
       | _ => llm_default_provider (settings env)
       end.
Proof.
  unfold generate_paper_report. intros (k & _ & H)%generate_report_ok.
  apply attempt_outcome_ok in H as (Hv & Hp & Hm & _).
  split; [done |]. by rewrite Hm, Hp.
Qed.

(** The [try] block: when it returns it has appended one row, built from
    the generator's result; when it raises it has appended none. *)
Lemma analysis_steps_rows i provider w :
  let pd := default dummy_paper (papers w !! i) in
  match analysis_steps env i provider w with
  | (w', Ok report) =>
    exists llm fp,
      snd (generate_paper_report env pd provider w) = Ok llm
      /\ report = length (reports w)
      /\ reports w'
         = reports w ++ [{| r_id := S (length (reports w)); r_paper_id := p_id pd;
                            r_llm_provider := lr_llm_provider llm;
                            r_llm_model := lr_llm_model llm;
                            r_report_content := lr_content llm;
                            r_markdown_path := fp;
                            r_generation_time := Some (lr_generation_time llm);
                            r_token_usage := lr_token_usage llm;
                            r_status := lit "SUCCESS" |}]
  | (w', Raise _) => reports w' = reports w
  end.
Proof.
  intros pd. unfold analysis_steps.
  assert (paper_at i w = (w, Ok pd)) as H0 by reflexivity.
  rewrite (bind_ok _ _ _ _ _ H0).
  pose proof (generation_keeps_reports pd provider w) as K1.
  destruct (generate_paper_report env pd provider w) as [w1 [llm | e]] eqn:H1;
    simpl in K1; [| by rewrite (bind_raise _ _ _ _ _ H1)].
  rewrite (bind_ok _ _ _ _ _ H1).
  pose proof (markdown_keeps_reports pd (lr_content llm) (lr_llm_model llm) w1) as K2.
  destruct (create_markdown_report env pd (lr_content llm) (lr_llm_model llm) w1)
    as [w2 [fp | e]] eqn:H2; simpl in K2;
    [| rewrite (bind_raise _ _ _ _ _ H2); congruence].
  rewrite (bind_ok _ _ _ _ _ H2).
  assert (set_status i (lit "COMPLETED") w2
          = (set_papers (alter (with_status (lit "COMPLETED")) i) w2, Ok tt)) as H3
    by reflexivity.
  rewrite (bind_ok _ _ _ _ _ H3).
  set (w3 := set_papers _ w2).
  assert (reports w3 = reports w) as K3 by (unfold w3; simpl; congruence).
  match goal with
  | |- context [flush_new_report env ?mk] => pose proof (flush_new_report_run mk w3) as H4
  end.
  destruct (db_fault env (db_ops w3)) as [e |].
  - rewrite (bind_raise _ _ _ _ _ H4). simpl. exact K3.
  - rewrite (bind_ok _ _ _ _ _ H4).
    rewrite (bind_ok _ _ _ _ _ (logger_run _ _ _)).
    exists llm, fp. split; [done |].
    cbn [ret fst snd reports set_reports set_db_ops set_log].
    rewrite K3. done.
Qed.

Lemma analysis_failed_raises i e w :
  exists e', snd (analysis_failed env i e w) = Raise e'.
Proof.
  unfold analysis_failed, bind, set_status, modify, db_op, logger, raise.
  destruct (db_fault env _); by eexists.
Qed.

Lemma prologue_row i w w1 p :
  papers w !! i = Some p ->
  analysis_prologue env i w = (w1, Ok tt) ->
  papers w1 !! i = Some (with_status (lit "PROCESSING") p) /\ reports w1 = reports w.
Proof.
  intros Hp. unfold analysis_prologue, bind, paper_at, get, logger, set_status, modify,
    db_op. cbn [fst snd]. destruct (db_fault env _); [done |].
  intros [= <-]. simpl. by rewrite list_lookup_alter_eq, Hp.
Qed.

(** When single-paper analysis returns, the row is COMPLETED. *)
Lemma single_report_ok_completed i provider w w' report p :
  papers w !! i = Some p ->
  _generate_single_report env i provider w = (w', Ok report) ->
  papers w' !! i = Some (with_status (lit "COMPLETED") (with_status (lit "PROCESSING") p)).
Proof.
  intros Hp H. unfold _generate_single_report in H.
  apply bind_inv_ok in H as (w1 & [] & H1 & H).
  destruct (prologue_row i w w1 p Hp H1) as [Hp1 _].
  unfold try_except in H.
  destruct (analysis_steps env i provider w1) as [w2 [rp | e]] eqn:Hs.
  - injection H as <- <-. by eapply analysis_steps_completed.
  - destruct (analysis_failed_raises i e w2) as [e' He']. rewrite H in He'. done.
Qed.

Lemma single_report_rows_run i provider w p :
  papers w !! i = Some p ->
  match _generate_single_report env i provider w with
  | (w', Ok report) =>
    exists r,
      reports w' = reports w ++ [r]
      /\ report = length (reports w)
      /\ r_id r = S report
      /\ r_paper_id r = p_id p
      /\ r_status r = lit "SUCCESS"
      /\ valid_content (r_report_content r)
      /\ r_llm_model r = llm_model_of (settings env) (r_llm_provider r)
      /\ r_llm_provider r
         = match provider with
           | Some (c :: q) => c :: q
           | _ => llm_default_provider (settings env)
           end
  | (w', Raise _) => reports w' = reports w
  end.
Proof.
  intros Hp. unfold _generate_single_report.
  pose proof (keeps_analysis_prologue reports (fun _ _ => eq_refl) (fun _ _ => eq_refl)
                env (fun _ _ => eq_refl) i w) as K0.
  destruct (analysis_prologue env i w) as [w1 [[] | e]] eqn:H0;
    [| by rewrite (bind_raise _ _ _ _ _ H0)].
  rewrite (bind_ok _ _ _ _ _ H0).
  destruct (prologue_row i w w1 p Hp H0) as [Hp1 Hr1].
  pose proof (analysis_steps_rows i provider w1) as Hrows. cbv zeta in Hrows.
  rewrite Hp1 in Hrows. cbn [default] in Hrows.
  destruct (analysis_steps env i provider w1) as [w2 [rp | e]] eqn:Hs.
  - rewrite (try_except_ok _ _ _ _ _ Hs).
    destruct Hrows as (llm & fp & Hg & -> & Hrep).
    apply generate_paper_report_ok in Hg as (Hv & Hm & Hprov).
    eexists. rewrite Hrep, Hr1. split; [reflexivity |]. simpl. done.
  - rewrite (try_except_raise _ _ _ _ _ Hs).
    pose proof (keeps_analysis_failed reports (fun _ _ => eq_refl) (fun _ _ => eq_refl)
                  env (fun _ _ => eq_refl) i e w2) as K2.
    destruct (analysis_failed_raises i e w2) as [e' He'].
    destruct (analysis_failed env i e w2) as [w3 r3]. simpl in *. subst r3.
    unfold keeps in K2. congruence.
Qed.

End ReportRows.

(** X3: single-paper analysis on an existing row adds exactly one report
    row when it returns and none when it raises. The row added is the one
    returned; it has the next primary key, the paper's primary key as its
    foreign key, the status SUCCESS, validated content, and the provider
    asked for (the default one when none or an empty name is given) with
    the model configured for it. *)
Theorem single_report_rows (env : Env) (i : nat) (provider : option str)
    (w : World) (p : Paper) :
  papers w !! i = Some p ->
  let run := _generate_single_report env i provider w in
  match snd run with
  | Ok report =>
    exists r,
      reports (fst run) = reports w ++ [r]
      /\ report = length (reports w)
      /\ r_id r = S report
      /\ r_paper_id r = p_id p
      /\ r_status r = lit "SUCCESS"
      /\ valid_content (r_report_content r)
      /\ r_llm_model r = llm_model_of (settings env) (r_llm_provider r)
      /\ r_llm_provider r
         = match provider with
           | Some (c :: q) => c :: q
           | _ => llm_default_provider (settings env)
           end
  | Raise _ => reports (fst run) = reports w
  end.
Proof.
  intros Hp run. pose proof (single_report_rows_run env i provider w p Hp) as H.
  fold run in H. by destruct run as [w' [report | e]].
Qed.

Lemma single_report_rows_witness :
  exists r,
    reports (fst (_generate_single_report env_ok 0 (Some []) world_a)) = [r]
    /\ r_paper_id r = 1%nat
    /\ r_llm_provider r = lit "openai".
Proof.
  pose proof (single_report_rows env_ok 0 (Some []) world_a (paper_row 1 "A" "NEW")
                eq_refl) as H.
  cbv zeta in H.
  assert (snd (_generate_single_report env_ok 0 (Some []) world_a) = Ok 0%nat) as E
    by (vm_compute; reflexivity).
  rewrite E in H. destruct H as (r & Hr & _ & _ & Hk & _ & _ & _ & Hprov).
  exists r. split; [exact Hr |]. split; [exact Hk | exact Hprov].
Defined.

Example failed_analysis_leaves_no_report :
  let run := _generate_single_report (env_with [] [lit "oops"; lit "oops"]) 0 None
               world_a in
  reports (fst run) = [] /\ status_at (fst run) 0 = Some (lit "FAILED").
Proof. vm_compute. done. Qed.

(** ** Regeneration of a stored paper *)

Lemma where_from_at (pid : str) (l : list Paper) (i : nat) (p : Paper) :
  NoDup (map p_paper_id l) ->
  l !! i = Some p ->
  p_paper_id p = pid ->
  where_from (fun q => str_eqb (p_paper_id q) pid) l 0 = [i].
Proof.
  intros Hnd Hp Hpid.
  destruct (where_from_unique pid l 0 Hnd) as [i' Hi'].
  { rewrite <- Hpid. apply list_elem_of_fmap_2. by eapply list_elem_of_lookup_2. }
  assert (i ∈ where_from (fun q => str_eqb (p_paper_id q) pid) l 0) as Hin.
  { apply elem_of_where_from. split; [lia |]. exists p. rewrite Nat.sub_0_r.
    split; [done |]. unfold str_eqb. by apply bool_decide_eq_true_2. }
  rewrite Hi' in Hin. apply list_elem_of_singleton in Hin. by subst.
Qed.

Lemma regenerate_known (env : Env) (pid : str) (provider : option str) (w : World)
    (i : nat) (p : Paper) :
  NoDup (map p_paper_id (papers w)) ->
  papers w !! i = Some p ->
  p_paper_id p = pid ->
  db_fault env (db_ops w) = None ->
  regenerate_report env pid provider w
  = match _generate_single_report env i provider (set_db_ops S w) with
    | (w1, Ok report) =>
      (set_db_ops S w1,
       match db_fault env (db_ops w1) with Some e => Raise e | None => Ok report end)
    | (w1, Raise e) => (w1, Raise e)
    end.
Proof.
  intros Hnd Hp Hpid Hdb. unfold regenerate_report.
  assert (select_paper_by_paper_id env pid w = (set_db_ops S w, Ok (Some i))) as Hsel.
  { rewrite select_paper_run, Hdb. by rewrite (where_from_at pid _ i p). }
  rewrite (bind_ok _ _ _ _ _ Hsel).
  unfold bind at 1.
  destruct (_generate_single_report env i provider (set_db_ops S w)) as [w1 [rp | e]];
    [| done].
  unfold bind, db_op, ret. by destruct (db_fault env (db_ops w1)).
Qed.

(** X4: regenerating the report of a stored paper runs single-paper
    analysis on its row whatever the status of the row (no filter on NEW
    applies): the analysis is started once for that identifier, no other
    paper row changes, earlier report rows are kept and rows are only
    appended; when the call returns, the paper is COMPLETED and exactly one
    report row, that of the paper, has been added. *)
Theorem regenerate_existing (env : Env) (pid : str) (provider : option str)
    (w : World) (i : nat) (p : Paper) :
  NoDup (map p_paper_id (papers w)) ->
  papers w !! i = Some p ->
  p_paper_id p = pid ->
  db_fault env (db_ops w) = None ->
  let run := regenerate_report env pid provider w in
  attempted (log (fst run)) = attempted (log w) ++ [pid]
  /\ (forall j, j <> i -> papers (fst run) !! j = papers w !! j)
  /\ (exists new, reports (fst run) = reports w ++ new)
  /\ (forall report, snd run = Ok report ->
        status_at (fst run) i = Some (lit "COMPLETED")
        /\ exists r, reports (fst run) = reports w ++ [r]
                     /\ r_paper_id r = p_id p
                     /\ r_id r = S report).
Proof.
  intros Hnd Hp Hpid Hdb run. unfold run.
  rewrite (regenerate_known env pid provider w i p Hnd Hp Hpid Hdb).
  set (w0 := set_db_ops S w).
  assert (papers w0 !! i = Some p) as Hp0 by exact Hp.
  destruct (single_report_frame env i provider w0) as [Hr Hl].
  pose proof (single_report_rows_run env i provider w0 p Hp0) as Hrows.
  pose proof (single_report_ok_completed env i provider w0) as Hdone.
  assert (pid_at w0 i = pid) as Hpa by (unfold pid_at; by rewrite Hp0).
  rewrite Hpa in Hl.
  destruct (_generate_single_report env i provider w0) as [w1 [rp | e]]; simpl in *.
  - destruct Hrows as (r & Hrep & -> & Hid & Hfk & _).
    split; [done |]. split.
    { intros j Hj. apply (rows_evolve_outside _ _ _ j Hr). congruence. }
    split; [by exists [r] |].
    intros report Hres. split.
    + unfold status_at. simpl. by rewrite (Hdone w1 _ p Hp0 eq_refl).
    + exists r. split; [done |]. split; [done |].
      destruct (db_fault env (db_ops w1)); [done |]. by injection Hres as <-.
  - split; [done |]. split.
    { intros j Hj. apply (rows_evolve_outside _ _ _ j Hr). congruence. }
    split; [| done]. exists []. by rewrite app_nil_r.
Qed.

Lemma regenerate_existing_witness :
  let w := world_of [paper_row 1 "A" "COMPLETED"; paper_row 2 "B" "FAILED"] in
  let run := regenerate_report env_ok (lit "A") None w in
  snd run = Ok 0%nat
  /\ status_at (fst run) 0 = Some (lit "COMPLETED")
  /\ attempted (log (fst run)) = [lit "A"]
  /\ papers (fst run) !! 1%nat = Some (paper_row 2 "B" "FAILED").
Proof.
  intros w run.
  assert (NoDup (map p_paper_id (papers w))) as Hnd.
  { apply (NoDup_cons_2 (lit "A") [lit "B"]); [| apply NoDup_singleton].
    intros H%list_elem_of_singleton. vm_compute in H. discriminate H. }
  destruct (regenerate_existing env_ok (lit "A") None w 0 (paper_row 1 "A" "COMPLETED")
              Hnd eq_refl eq_refl eq_refl) as (Hl & Hj & _ & Hok).
  assert (snd run = Ok 0%nat) as E by (vm_compute; reflexivity).
  split; [exact E |]. split; [exact (proj1 (Hok _ E)) |]. split; [exact Hl |].
  exact (Hj 1%nat ltac:(discriminate)).
Defined.

(** ** Batch analysis: nothing to do, and the final statuses *)

(** X5: when no stored paper is NEW, batch analysis returns zero counts
    after a single database operation, the selection: nothing is committed,
    the LLM and the document writer are not called and no row changes. *)
Theorem batch_nothing_to_do (env : Env) (provider : option str) (limit : option Z)
    (w : World) :
  (forall p, p ∈ papers w -> p_status p <> lit "NEW") ->
  (truthy_int limit = true -> 0 <= default 0 limit) ->
  db_fault env (db_ops w) = None ->
  let run := generate_reports_batch env provider limit w in
  snd run = Ok {| total_processed := 0; success := 0; batch_failed := 0 |}
  /\ db_ops (fst run) = S (db_ops w)
  /\ llm_calls (fst run) = llm_calls w
  /\ doc_calls (fst run) = doc_calls w
  /\ papers (fst run) = papers w
  /\ reports (fst run) = reports w.
Proof.
  intros Hnone Hlim Hdb run. unfold run, generate_reports_batch.
  rewrite (bind_ok _ _ _ _ _ (logger_run _ _ w)).
  set (w0 := set_log _ w).
  rewrite (bind_ok _ _ _ _ _ (select_new_papers_ok env limit w0 Hdb Hlim)).
  assert (selected_rows limit w0 = []) as ->.
  { unfold selected_rows.
    assert (where_from is_new (papers w0) 0 = []) as ->.
    { apply where_from_nil. intros p Hp. apply not_true_is_false.
      intros Hn%is_new_true. by apply (Hnone p). }
    by destruct (truthy_int limit); [rewrite take_nil |]. }
  done.
Qed.

Lemma batch_nothing_to_do_witness :
  let w := world_of [paper_row 1 "A" "COMPLETED"; paper_row 2 "B" "FAILED"] in
  snd (generate_reports_batch env_ok None (Some 5) w)
    = Ok {| total_processed := 0; success := 0; batch_failed := 0 |}
  /\ db_ops (fst (generate_reports_batch env_ok None (Some 5) w)) = 1%nat.
Proof.
  intros w.
  destruct (batch_nothing_to_do env_ok None (Some 5) w) as (H1 & H2 & _).
  - intros p [-> | [-> | H%elem_of_nil]%elem_of_cons]%elem_of_cons;
      [vm_compute; discriminate | vm_compute; discriminate | done].
  - simpl. lia.
  - reflexivity.
  - split; [exact H1 | exact H2].
Defined.

Lemma where_from_bounds {A} (f : A -> bool) (l : list A) (k : nat) :
  NoDup (where_from f l k) /\ forall i, i ∈ where_from f l k -> (k <= i)%nat.
Proof.
  revert k. induction l as [| x l IH]; intros k; simpl.
  - split; [apply NoDup_nil_2 | by intros i ?%elem_of_nil].
  - destruct (IH (S k)) as [Hnd Hle]. destruct (f x).
    + split.
      * apply NoDup_cons. split; [| done]. intros H%Hle. lia.
      * intros i [-> | H%Hle]%elem_of_cons; lia.
    + split; [done |]. intros i H%Hle. lia.
Qed.

Lemma selected_rows_NoDup limit w : NoDup (selected_rows limit w).
Proof.
  unfold selected_rows. destruct (where_from_bounds is_new (papers w) 0) as [Hnd _].
  destruct (truthy_int limit); [| done].
  eapply sublist_NoDup; [exact Hnd | apply sublist_take].
Qed.

Section BatchStatuses.

Variable env : Env.
Variable provider : option str.

Let completed (w : World) (i : nat) : bool :=
  bool_decide (status_at w i = Some (lit "COMPLETED")).
Let failed_row (w : World) (i : nat) : bool :=
  bool_decide (status_at w i = Some (lit "FAILED")).

Lemma batch_one_status c i w p :
  papers w !! i = Some p ->
  exists w' c',
    batch_one env provider c i w = (w', Ok c')
    /\ rows_evolve (eq i) w w'
    /\ ((c' = (S (fst c), snd c) /\ status_at w' i = Some (lit "COMPLETED"))
        \/ (c' = (fst c, S (snd c)) /\ status_at w' i = Some (lit "FAILED"))).
Proof.
  intros Hp.
  destruct (batch_one_spec env provider c i w) as (w' & c' & H & _ & Hr & _).
  exists w', c'. split; [done |]. split; [done |].
  unfold batch_one in H. unfold try_except in H.
  destruct (single_report_frame env i provider w) as [Hr1 _].
  pose proof (single_report_ok_completed env i provider w) as Hdone.
  unfold bind at 1 in H.
  destruct (_generate_single_report env i provider w) as [w1 [rp | e]]; simpl in *.
  - injection H as <- <-. left. split; [done |].
    unfold status_at. by rewrite (Hdone w1 _ p Hp eq_refl).
  - unfold bind, paper_at, get, logger, set_status, modify, ret in H.
    injection H as <- <-. right. split; [done |].
    assert (is_Some (papers w1 !! i)) as [p1 Hp1].
    { apply (rows_evolve_is_Some _ _ _ i Hr1). eauto. }
    unfold status_at. simpl. by rewrite list_lookup_alter_eq, Hp1.
Qed.

Lemma batch_loop_status sel :
  forall c w,
    NoDup sel ->
    (forall i, i ∈ sel -> is_Some (papers w !! i)) ->
    exists w' c',
      for_each sel (batch_one env provider) c w = (w', Ok c')
      /\ rows_evolve (fun j => j ∈ sel) w w'
      /\ (forall i, i ∈ sel -> completed w' i = true \/ failed_row w' i = true)
      /\ fst c' = (fst c + length (List.filter (completed w') sel))%nat
      /\ snd c' = (snd c + length (List.filter (failed_row w') sel))%nat.
Proof.
  induction sel as [| i sel IH]; intros c w Hnd Hex; simpl.
  - exists w, c. split; [done |]. split; [apply rows_evolve_refl |].
    split; [by intros i ?%elem_of_nil |]. split; lia.
  - apply NoDup_cons in Hnd as [Hi Hnd].
    destruct (Hex i (list_elem_of_here _ _)) as [p Hp].
    destruct (batch_one_status c i w p Hp) as (w1 & c1 & H1 & Hr1 & Hst).
    destruct (IH c1 w1 Hnd) as (w' & c' & H' & Hr' & Hall & Hs & Hf).
    { intros j Hj. apply (rows_evolve_is_Some _ _ _ j Hr1), Hex.
      by apply list_elem_of_further. }
    exists w', c'. rewrite (bind_ok _ _ _ _ _ H1). split; [done |]. split.
    { eapply rows_evolve_trans.
      - eapply rows_evolve_mono; [| exact Hr1]. intros j <-. apply list_elem_of_here.
      - eapply rows_evolve_mono; [| exact Hr']. intros j Hj. by apply list_elem_of_further. }
    assert (status_at w' i = status_at w1 i) as Hsame.
    { unfold status_at. by rewrite (rows_evolve_outside _ _ _ i Hr' Hi). }
    unfold completed, failed_row in *. cbn [List.filter]. rewrite Hsame.
    destruct Hst as [[-> Hc] | [-> Hc]]; rewrite Hc; cbn [fst snd] in *.
    + rewrite bool_decide_eq_true_2 by done.
      rewrite (bool_decide_eq_false_2 (Some (lit "COMPLETED") = Some (lit "FAILED")))
        by (vm_compute; discriminate).
      cbn [length]. split; [| split; lia].
      intros j [-> | Hj]%elem_of_cons; [left; rewrite Hsame, Hc | by apply Hall].
      by apply bool_decide_eq_true_2.
    + rewrite (bool_decide_eq_false_2 (Some (lit "FAILED") = Some (lit "COMPLETED")))
        by (vm_compute; discriminate).
      rewrite bool_decide_eq_true_2 by done.
      cbn [length]. split; [| split; lia].
      intros j [-> | Hj]%elem_of_cons; [right; rewrite Hsame, Hc | by apply Hall].
      by apply bool_decide_eq_true_2.
Qed.

End BatchStatuses.

(** X6: after a batch run whose selection succeeded, every selected paper
    is COMPLETED or FAILED, none is left NEW or PROCESSING, whether or not
    the final commit raises; and when the run returns, the success count
    is the number of selected papers that are COMPLETED and the failed
    count the number that are FAILED. *)
Theorem batch_final_statuses (env : Env) (provider : option str) (limit : option Z)
    (w : World) :
  db_fault env (db_ops w) = None ->
  (truthy_int limit = true -> 0 <= default 0 limit) ->
  let run := generate_reports_batch env provider limit w in
  let sel := selected_rows limit w in
  (forall i, i ∈ sel ->
     status_at (fst run) i = Some (lit "COMPLETED")
     \/ status_at (fst run) i = Some (lit "FAILED"))
  /\ (forall res, snd run = Ok res ->
        success res
        = length (List.filter
                    (fun i => bool_decide (status_at (fst run) i = Some (lit "COMPLETED")))
                    sel)
        /\ batch_failed res
           = length (List.filter
                       (fun i => bool_decide (status_at (fst run) i = Some (lit "FAILED")))
                       sel)).
Proof.
  intros Hdb Hlim run sel. unfold run, generate_reports_batch.
  rewrite (bind_ok _ _ _ _ _ (logger_run _ _ w)).
  set (w0 := set_log _ w).
  rewrite (bind_ok _ _ _ _ _ (select_new_papers_ok env limit w0 Hdb Hlim)).
  change (selected_rows limit w0) with sel.
  destruct sel as [| i rest] eqn:Hsel.
  { split; [by intros i ?%elem_of_nil |]. by intros res [= <-]. }
  rewrite <- Hsel.
  destruct (batch_loop_status env provider sel (0%nat, 0%nat) (set_db_ops S w0))
    as (w2 & c' & H2 & Hr & Hall & Hs & Hf).
  { apply selected_rows_NoDup. }
  { intros j Hj. apply selected_rows_new in Hj as (q & Hq & _). by exists q. }
  rewrite (bind_ok _ _ _ _ _ H2).
  unfold bind, db_op, logger, modify, ret.
  destruct (db_fault env (db_ops w2)) as [e |]; cbn [fst snd].
  - split; [| done]. intros j Hj.
    destruct (Hall j Hj) as [H | H]; apply bool_decide_eq_true in H; auto.
  - split.
    + intros j Hj. destruct (Hall j Hj) as [H | H]; apply bool_decide_eq_true in H; auto.
    + intros res [= <-]. simpl. split; [exact Hs | exact Hf].
Qed.

Lemma batch_final_statuses_witness :
  let w := world_of [paper_row 1 "A" "NEW"; paper_row 2 "B" "NEW"] in
  let run := generate_reports_batch (env_with [1%nat] [good_answer; lit "oops"; lit "oops"])
               None None w in
  status_at (fst run) 0 = Some (lit "COMPLETED")
  \/ status_at (fst run) 0 = Some (lit "FAILED").
Proof.
  intros w run.
  destruct (batch_final_statuses (env_with [1%nat] [good_answer; lit "oops"; lit "oops"])
              None None w eq_refl) as [H _].
  - simpl. discriminate.
  - apply (H 0%nat). vm_compute. apply list_elem_of_here.
Defined.

(** The flush that publishes PROCESSING raises for the first paper: alone,
    single-paper analysis would leave it PROCESSING; the batch loop marks
    it FAILED. *)
Example batch_repairs_processing :
  let w := world_of [paper_row 1 "A" "NEW"; paper_row 2 "B" "NEW"] in
  let run := generate_reports_batch (env_with [1%nat] []) None None w in
  snd run = Ok {| total_processed := 2; success := 1; batch_failed := 1 |}
  /\ map (status_at (fst run)) [0; 1]%nat
     = [Some (lit "FAILED"); Some (lit "COMPLETED")].
Proof. vm_compute. done. Qed.

(** ** The task row of a manual trigger *)

Section TaskWrapper.

Variable env : Env.

(** Both trigger routes have the same shape: a task row is flushed, the
    workflow [body] runs inside a [try] block that ends by marking the task
    SUCCESS and committing, and the handler marks it FAILED, commits and
    raises HTTP 500. *)
Lemma task_wrapper_run {X R} (body : M X) (summary : X -> Summary)
    (resp : nat -> X -> R) (mk : nat -> Task) (msg1 : string) (arg1 : str)
    (msg2 : string) (prefix : str) (w : World) :
  stable (keeps tasks) body ->
  db_fault env (db_ops w) = None ->
  let t := length (tasks w) in
  let run :=
    (logger msg1 arg1 ;;
     task <- flush_new_task env mk ;;
     try_except
       (x <- body ;;
        update_task task (finish_task env (lit "SUCCESS") (Some (summary x)) None) ;;
        db_op env ;;
        ret (resp task x))
       (fun e =>
          update_task task (finish_task env (lit "FAILED") None (Some (exc_text e))) ;;
          db_op env ;;
          logger msg2 (exc_text e) ;;
          raise {| exc_cls := HTTPException 500; exc_text := prefix ++ exc_text e |})) w in
  match snd run with
  | Ok r =>
    exists x w1 w2,
      body w1 = (w2, Ok x)
      /\ r = resp t x
      /\ tasks (fst run)
         = tasks w ++ [finish_task env (lit "SUCCESS") (Some (summary x)) None (mk (S t))]
  | Raise e =>
    exists e0 st,
      tasks (fst run)
      = tasks w ++ [finish_task env (lit "FAILED") st (Some (exc_text e0)) (mk (S t))]
      /\ (e = {| exc_cls := HTTPException 500; exc_text := prefix ++ exc_text e0 |}
          \/ db_fault env (pred (db_ops (fst run))) = Some e)
  end.
Proof.
  intros Hk Hdb t. cbv zeta.
  match goal with
  | |- match snd ?r with _ => _ end => destruct r as [wf rf] eqn:Hrun
  end.
  cbn [fst snd].
  rewrite (bind_ok _ _ _ _ _ (logger_run _ _ w)) in Hrun.
  set (w0 := set_log _ w) in Hrun.
  assert (flush_new_task env mk w0
          = (set_tasks (fun l => l ++ [mk (S (length l))]) (set_db_ops S w0),
             Ok (length (tasks w0)))) as Hflush.
  { rewrite flush_new_task_run. change (db_ops w0) with (db_ops w). by rewrite Hdb. }
  rewrite (bind_ok _ _ _ _ _ Hflush) in Hrun.
  set (w1 := set_tasks _ _) in Hrun.
  change (length (tasks w0)) with t in Hrun.
  assert (tasks w1 = tasks w ++ [mk (S t)]) as Ht1 by reflexivity.
  assert (forall (g : Task -> Task) w2, tasks w2 = tasks w1 ->
            alter g t (tasks w2) = tasks w ++ [g (mk (S t))]) as Halter.
  { intros g w2 ->. rewrite Ht1. unfold t. rewrite alter_app_r_alt by lia.
    by rewrite Nat.sub_diag. }
  pose proof (Hk w1) as K. unfold keeps in K.
  unfold try_except in Hrun.
  destruct (body w1) as [w2 [x | e]] eqn:Hb; simpl in K.
  - rewrite (bind_ok _ _ _ _ _ Hb) in Hrun.
    unfold bind, update_task, modify, db_op, logger, ret, raise in Hrun.
    cbn [fst snd tasks set_tasks set_db_ops set_log db_ops] in Hrun.
    destruct (db_fault env (db_ops w2)) as [e |] eqn:Hc;
      cbn [fst snd tasks set_tasks set_db_ops set_log db_ops] in Hrun.
    + destruct (db_fault env (S (db_ops w2))) as [e' |] eqn:Hc';
        injection Hrun as <- <-;
        cbn [fst snd tasks set_tasks set_db_ops set_log db_ops Nat.pred];
        exists e, (Some (summary x)); rewrite list_alter_alter_eq;
        rewrite (Halter _ w2 K); (split; [reflexivity | auto]).
    + injection Hrun as <- <-. exists x, w1, w2.
      cbn [fst snd tasks set_tasks set_db_ops set_log db_ops].
      by rewrite (Halter _ w2 K).
  - rewrite (bind_raise _ _ _ _ _ Hb) in Hrun.
    unfold bind, update_task, modify, db_op, logger, ret, raise in Hrun.
    cbn [fst snd tasks set_tasks set_db_ops set_log db_ops] in Hrun.
    destruct (db_fault env (db_ops w2)) as [e' |] eqn:Hc';
      injection Hrun as <- <-;
      cbn [fst snd tasks set_tasks set_db_ops set_log db_ops Nat.pred];
      exists e, None; rewrite (Halter _ w2 K); (split; [reflexivity | auto]).
Qed.

End TaskWrapper.

(** X7: once the task row of a generation request is created, the row
    never stays RUNNING: the route returns exactly when the row ends
    SUCCESS, with a result summary, no error text and the row's key in the
    response; it raises exactly when the row ends FAILED with an error
    text, and what it raises is HTTP 500 carrying that text or, if the
    commit of the handler raises, that commit's error. One task row is
    added per request, its type tells single from batch, and it has an end
    time. *)
Theorem generate_reports_task_outcome (env : Env) (request : GenerateReportRequest)
    (w : World) :
  db_fault env (db_ops w) = None ->
  let run := generate_reports env request w in
  exists task,
    tasks (fst run) = tasks w ++ [task]
    /\ t_id task = S (length (tasks w))
    /\ t_end_time task = Some (now env)
    /\ t_task_type task = (if truthy_str (req_paper_id request)
                           then lit "GENERATE_SINGLE" else lit "GENERATE_BATCH")
    /\ match snd run with
       | Ok resp =>
         t_status task = lit "SUCCESS"
         /\ is_Some (t_result_summary task)
         /\ t_error_message task = None
         /\ resp_task_id resp = t_id task
         /\ resp_status resp = lit "SUCCESS"
       | Raise e =>
         t_status task = lit "FAILED"
         /\ exists txt,
              t_error_message task = Some txt
              /\ (e = {| exc_cls := HTTPException 500;
                         exc_text := lit "Generation failed: " ++ txt |}
                  \/ db_fault env (pred (db_ops (fst run))) = Some e)
       end.
Proof.
  intros Hdb run. unfold run, generate_reports.
  match goal with
  | |- context [try_except (bind ?body _) _] =>
    pose proof (task_wrapper_run env body fst
                  (fun task rm => {| resp_task_id := S task; resp_message := snd rm;
                                     resp_status := lit "SUCCESS" |})
                  (running_task request) "Manual report generation triggered"
                  (default [] (req_paper_id request))
                  "Report generation task failed" (lit "Generation failed: ") w) as H
  end.
  cbv zeta in H.
  match type of H with
  | ?P -> _ => assert P as Hst
  end.
  { destruct (truthy_str (req_paper_id request)).
    - apply stable_bind; [by apply keeps_regenerate_report |]. intros r. apply stable_ret.
    - apply stable_bind; [by apply keeps_generate_reports_batch |]. intros r.
      apply stable_ret. }
  specialize (H Hst Hdb).
  match type of H with
  | match snd ?r with _ => _ end => destruct (snd r) as [resp | e]; set (w' := fst r) in *
  end.
  - destruct H as (x & _ & _ & _ & -> & ->). eexists. split; [reflexivity |].
    simpl. eauto 10.
  - destruct H as (e0 & st & -> & He). eexists. split; [reflexivity |]. simpl.
    repeat (split; [done |]). exists (exc_text e0). split; [done | exact He].
Qed.

Lemma generate_reports_task_outcome_witness :
  let run := generate_reports env_ok
               {| req_paper_id := None; req_llm_provider := None;
                  req_force_regenerate := false |} world_a in
  exists task,
    tasks (fst run) = tasks world_a ++ [task]
    /\ t_id task = 1%nat
    /\ t_status task = lit "SUCCESS".
Proof.
  intros run.
  destruct (generate_reports_task_outcome env_ok
              {| req_paper_id := None; req_llm_provider := None;
                 req_force_regenerate := false |} world_a eq_refl)
    as (task & Ht & Hid & _ & _ & Hres).
  fold run in Ht, Hres.
  assert (is_ok (snd run) = true) as E by (vm_compute; reflexivity).
  destruct (snd run) as [resp | e]; [| discriminate E].
  exists task. split; [exact Ht |]. split; [exact Hid | exact (proj1 Hres)].
Defined.

Lemma crawl_result_adds_up (env : Env) (source : str) (date : option str)
    (limit : option Z) (w w' : World) (res : CrawlResult) :
  crawl_and_save_papers env source date limit w = (w', Ok res) ->
  (saved res + duplicates res + failed res = total_crawled res)%nat.
Proof.
  unfold crawl_and_save_papers. intros H.
  apply bind_inv_ok in H as (w0 & [] & _ & H).
  apply bind_inv_ok in H as (w1 & ps & _ & H).
  destruct (save_loop_any env ps {| saved_count := 0; duplicate_count := 0;
                                    failed_count := 0 |} w1)
    as (w2 & c & new & Hloop & Hc & _).
  rewrite (save_papers_run env ps w1 w2 c Hloop) in H.
  destruct (db_fault env (db_ops w2)); [done |]. injection H as _ <-.
  unfold count_total in Hc. simpl in *. lia.
Qed.

(** X8: the same for a crawl request: one CRAWL task row is added, and it
    ends SUCCESS exactly when the route returns, with the counts of the
    ingest run as its summary and the number saved in the response message,
    and FAILED with the error text exactly when the route raises (HTTP 500
    with that text or the error of the handler's commit). *)
Theorem crawl_papers_task_outcome (env : Env) (request : CrawlPapersRequest)
    (w : World) :
  db_fault env (db_ops w) = None ->
  let run := crawl_papers env request w in
  exists task,
    tasks (fst run) = tasks w ++ [task]
    /\ t_id task = S (length (tasks w))
    /\ t_task_type task = lit "CRAWL"
    /\ t_end_time task = Some (now env)
    /\ match snd run with
       | Ok resp =>
         t_status task = lit "SUCCESS"
         /\ t_error_message task = None
         /\ cresp_task_id resp = t_id task
         /\ cresp_status resp = lit "SUCCESS"
         /\ exists total saved duplicates failed,
              t_result_summary task = Some (CrawlSummary total saved duplicates failed)
              /\ cresp_message resp
                 = lit "Crawled " ++ str_of_nat saved ++ lit " new papers"
              /\ (saved + duplicates + failed = total)%nat
       | Raise e =>
         t_status task = lit "FAILED"
         /\ exists txt,
              t_error_message task = Some txt
              /\ (e = {| exc_cls := HTTPException 500;
                         exc_text := lit "Crawl failed: " ++ txt |}
                  \/ db_fault env (pred (db_ops (fst run))) = Some e)
       end.
Proof.
  intros Hdb run. unfold run, crawl_papers.
  match goal with
  | |- context [try_except (bind ?body _) _] =>
    pose proof (task_wrapper_run env body
                  (fun result => CrawlSummary (total_crawled result) (saved result)
                                   (duplicates result) (failed result))
                  (fun task result =>
                     {| cresp_task_id := S task;
                        cresp_message := lit "Crawled " ++ str_of_nat (saved result)
                                           ++ lit " new papers";
                        cresp_status := lit "SUCCESS" |})
                  crawl_task "Manual crawl task triggered" (creq_source request)
                  "Crawl task failed" (lit "Crawl failed: ") w) as H
  end.
  cbv zeta in H.
  specialize (H ltac:(by apply keeps_crawl_and_save_papers) Hdb).
  match type of H with
  | match snd ?r with _ => _ end => destruct (snd r) as [resp | e]; set (w' := fst r) in *
  end.
  - destruct H as (x & w1 & w2 & Hbody & -> & ->). eexists. split; [reflexivity |].
    simpl. repeat (split; [done |]).
    exists (total_crawled x), (saved x), (duplicates x), (failed x).
    split; [done |]. split; [done |]. by eapply crawl_result_adds_up.
  - destruct H as (e0 & st & -> & He). eexists. split; [reflexivity |]. simpl.
    repeat (split; [done |]). exists (exc_text e0). split; [done | exact He].
Qed.

Lemma crawl_papers_task_outcome_witness :
  let run := crawl_papers env_ok {| creq_source := lit "huggingface"; creq_limit := None |}
               world_a in
  exists task,
    tasks (fst run) = tasks world_a ++ [task]
    /\ t_task_type task = lit "CRAWL"
    /\ t_end_time task = Some 7%N.
Proof.
  intros run.
  destruct (crawl_papers_task_outcome env_ok
              {| creq_source := lit "huggingface"; creq_limit := None |} world_a eq_refl)
    as (task & Ht & _ & Hty & Hend & _).
  exists task. split; [exact Ht |]. split; [exact Hty | exact Hend].
Defined.

Example crawl_route_scenario :
  let run := crawl_papers env_ok {| creq_source := lit "huggingface"; creq_limit := None |}
               world_a in
  snd run = Ok {| cresp_task_id := 1; cresp_message := lit "Crawled 2 new papers";
                  cresp_status := lit "SUCCESS" |}
  /\ (t_result_summary <$> tasks (fst run)) = [Some (CrawlSummary 3 2 1 0)].
Proof. vm_compute. done. Qed.

(** X9: a crawl request for a source other than huggingface fails before
    anything is fetched or stored: no HTTP request is made, no paper row
    changes, the task row ends FAILED with the text "Unsupported source:"
    followed by the name, and the caller gets HTTP 500 with that text (or
    the error of the handler's commit). *)
Theorem crawl_unsupported_source (env : Env) (request : CrawlPapersRequest)
    (w : World) :
  creq_source request <> lit "huggingface" ->
  db_fault env (db_ops w) = None ->
  let run := crawl_papers env request w in
  let txt := lit "Unsupported source: " ++ creq_source request in
  tasks (fst run)
    = tasks w ++ [finish_task env (lit "FAILED") None (Some txt)
                    (crawl_task (S (length (tasks w))))]
  /\ snd run
     = Raise (default {| exc_cls := HTTPException 500;
                         exc_text := lit "Crawl failed: " ++ txt |}
                (db_fault env (S (db_ops w))))
  /\ http_calls (fst run) = http_calls w
  /\ papers (fst run) = papers w
  /\ db_ops (fst run) = S (S (db_ops w)).
Proof.
  intros Hsrc Hdb run txt. unfold run, crawl_papers.
  rewrite (bind_ok _ _ _ _ _ (logger_run _ _ w)).
  set (w0 := set_log _ w).
  assert (flush_new_task env crawl_task w0
          = (set_tasks (fun l => l ++ [crawl_task (S (length l))]) (set_db_ops S w0),
             Ok (length (tasks w0)))) as Hflush.
  { rewrite flush_new_task_run. change (db_ops w0) with (db_ops w). by rewrite Hdb. }
  rewrite (bind_ok _ _ _ _ _ Hflush).
  set (w1 := set_tasks _ _).
  assert (crawl_and_save_papers env (creq_source request) None (creq_limit request) w1
          = (set_log (fun l => l ++ [{| log_msg := "Starting paper crawl";
                                        log_arg := creq_source request |}]) w1,
             Raise {| exc_cls := ValueError; exc_text := txt |})) as Hcrawl.
  { unfold crawl_and_save_papers.
    rewrite (bind_ok _ _ _ _ _ (logger_run _ _ w1)).
    unfold str_eqb. rewrite bool_decide_eq_false_2 by done. reflexivity. }
  rewrite (try_except_raise _ _ _ _ _ (bind_raise _ _ _ _ _ Hcrawl)).
  unfold bind, update_task, logger, modify, db_op, raise.
  cbn [fst snd set_tasks set_db_ops set_log tasks papers db_ops http_calls exc_text].
  change (db_ops w1) with (S (db_ops w)).
  destruct (db_fault env (S (db_ops w)));
    cbn [fst snd set_tasks set_db_ops set_log tasks papers db_ops http_calls default];
    (split; [| done]);
    unfold w1; cbn [tasks set_tasks set_db_ops];
    change (tasks w0) with (tasks w);
    rewrite alter_app_r_alt by lia;
    rewrite Nat.sub_diag; reflexivity.
Qed.

Lemma crawl_unsupported_source_witness :
  let run := crawl_papers env_ok {| creq_source := lit "arxiv"; creq_limit := None |}
               world_a in
  snd run = Raise {| exc_cls := HTTPException 500;
                     exc_text := lit "Crawl failed: Unsupported source: arxiv" |}
  /\ http_calls (fst run) = 0%nat.
Proof.
  intros run.
  destruct (crawl_unsupported_source env_ok
              {| creq_source := lit "arxiv"; creq_limit := None |} world_a)
    as (_ & Hr & Hh & _).
  - vm_compute. discriminate.
  - reflexivity.
  - split; [exact Hr | exact Hh].
Defined.

(** ** The retries of the fetch *)

Section FetchRetry.

Variable env : Env.
Variables (date : option str) (exceptions : list exc_pattern).

Lemma fetch_retrying_run (j : nat) :
  forall more d n w,
    (j <= more)%nat ->
    (forall i, (i < j)%nat ->
       exists e, http_reply env (http_calls w + i) = Raise e
                 /\ isinstance e exceptions = true) ->
    ((j < more)%nat ->
     forall e, http_reply env (http_calls w + j) = Raise e ->
               isinstance e exceptions = false) ->
    let run := retrying more d n exceptions (fetch_daily_papers_attempt env date) w in
    snd run = http_reply env (http_calls w + j)
    /\ http_calls (fst run) = S (http_calls w + j)
    /\ sleeps (fst run) = sleeps w ++ backoff d n j.
Proof.
  induction j as [| j IH]; intros more d n w Hle Hfail Hlast run; unfold run;
    destruct (fetch_attempt_run env date w) as (Hr & Hc & Hs);
    destruct (fetch_daily_papers_attempt env date w) as [w1 r1] eqn:E1;
    simpl in Hr, Hc, Hs.
  - rewrite Nat.add_0_r in *. cbn [backoff]. rewrite app_nil_r.
    destruct more as [| more]; cbn [retrying]; destruct r1 as [ps | e].
    + rewrite (try_except_ok _ _ _ _ _ E1). simpl. by rewrite Hr, Hc, Hs.
    + rewrite (try_except_raise _ _ _ _ _ E1).
      destruct (isinstance e exceptions); simpl; by rewrite Hr, Hc, Hs.
    + rewrite (try_except_ok _ _ _ _ _ E1). simpl. by rewrite Hr, Hc, Hs.
    + rewrite (try_except_raise _ _ _ _ _ E1).
      rewrite (Hlast ltac:(lia) e) by congruence. simpl. by rewrite Hr, Hc, Hs.
  - destruct more as [| more]; [lia |]. cbn [retrying].
    destruct (Hfail 0%nat ltac:(lia)) as (e & He & Hi).
    rewrite Nat.add_0_r in He. rewrite He in Hr. subst r1.
    rewrite (try_except_raise _ _ _ _ _ E1), Hi.
    rewrite (bind_ok _ _ _ _ _ (logger_run _ _ w1)).
    rewrite (bind_ok _ _ _ _ _ (sleep_run _ _)).
    set (w2 := set_sleeps _ _).
    assert (http_calls w2 = S (http_calls w)) as Hk by (by rewrite <- Hc).
    assert (sleeps w2 = sleeps w ++ [wait_exponential d d 60 n]) as Hsl.
    { unfold w2. simpl. by rewrite Hs. }
    destruct (IH more d (n + 1) w2) as (Hr' & Hc' & Hs').
    + lia.
    + intros i Hlt. rewrite Hk. replace (S (http_calls w) + i)%nat
        with (http_calls w + S i)%nat by lia. apply Hfail. lia.
    + intros Hlt e'. rewrite Hk. replace (S (http_calls w) + j)%nat
        with (http_calls w + S j)%nat by lia. apply Hlast. lia.
    + rewrite Hr', Hc', Hs', Hk, Hsl. cbn [backoff]. rewrite <- app_assoc.
      replace (S (http_calls w) + j)%nat with (http_calls w + S j)%nat by lia. done.
Qed.

End FetchRetry.

(** X10: the fetch returns the outcome of the first attempt that does not
    fail with an HTTP or timeout error, or of the last attempt allowed:
    when the first [j] attempts fail with such errors and the next one is
    the last allowed or fails in no such way, the fetch makes [j + 1]
    requests, returns the outcome of the last of them, and has slept once
    before each retry, for the delays of the exponential schedule. *)
Theorem fetch_retry_schedule (env : Env) (date : option str) (w : World) (j : nat) :
  let more := Z.to_nat (crawler_max_retries (settings env) - 1) in
  let d := crawler_retry_delay (settings env) in
  let retried := [OfClass HTTPError; OfClass TimeoutException] in
  (j <= more)%nat ->
  (forall i, (i < j)%nat ->
     exists e, http_reply env (http_calls w + i) = Raise e
               /\ isinstance e retried = true) ->
  ((j < more)%nat ->
   forall e, http_reply env (http_calls w + j) = Raise e ->
             isinstance e retried = false) ->
  snd (fetch_daily_papers env date w) = http_reply env (http_calls w + j)
  /\ http_calls (fst (fetch_daily_papers env date w)) = S (http_calls w + j)
  /\ sleeps (fst (fetch_daily_papers env date w)) = sleeps w ++ backoff d 1 j.
Proof.
  intros more d retried Hle Hfail Hlast. unfold fetch_daily_papers, async_retry.
  by apply (fetch_retrying_run env date retried j more d 1 w).
Qed.

Lemma fetch_retry_schedule_witness :
  snd (fetch_daily_papers (env_flaky 1) None (world_of []))
    = Ok [raw_paper "A"]
  /\ http_calls (fst (fetch_daily_papers (env_flaky 1) None (world_of []))) = 3%nat
  /\ sleeps (fst (fetch_daily_papers (env_flaky 1) None (world_of []))) = [5; 10].
Proof.
  apply (fetch_retry_schedule (env_flaky 1) None (world_of []) 2).
  - vm_compute. lia.
  - intros [| [| i]] Hi; [by eexists | by eexists | lia].
  - intros Hlt. vm_compute in Hlt. lia.
Defined.

Example backoff_default : backoff 5 1 6 = [5; 10; 20; 40; 60; 60].
Proof. reflexivity. Qed.

(** Three attempts are allowed: after two HTTP errors and a timeout the
    timeout is what the fetch raises. *)
Example fetch_gives_up :
  let run := fetch_daily_papers (env_flaky 2) None (world_of []) in
  snd run = Raise {| exc_cls := TimeoutException; exc_text := lit "read timed out" |}
  /\ http_calls (fst run) = 3%nat /\ sleeps (fst run) = [5; 10].
Proof. vm_compute. done. Qed.

(** ** The limit of a crawl *)

Lemma slice_from_start {A} (l : list A) (n : Z) :
  slice l 0 n
  = if n <? 0 then take (length l - Z.to_nat (- n)) l else take (Z.to_nat n) l.
Proof.
  unfold slice. change (0 <? 0) with false. cbv iota.
  rewrite (Z.min_l 0) by lia. rewrite Z.sub_0_r. change (Z.to_nat 0) with 0%nat.
  rewrite drop_0. destruct (Z.ltb_spec n 0).
  - f_equal. lia.
  - destruct (Z.le_gt_cases n (Z.of_nat (length l))).
    + by rewrite Z.min_l by lia.
    + rewrite Z.min_r by lia. rewrite Nat2Z.id.
      by rewrite !firstn_all2 by lia.
Qed.

(** X11: the limit of a crawl is applied as a Python slice to what was
    fetched: zero or no limit keeps every record, a positive limit keeps
    the first [limit] records, and a negative limit is not rejected but
    drops the last [-limit] records; a failed fetch is passed on. *)
Theorem crawl_limit_is_a_slice (env : Env) (date : option str) (limit : option Z)
    (w : World) :
  match fetch_daily_papers env date w with
  | (w1, Ok raw_papers) =>
    crawl_huggingface_papers env date limit w
    = (w1, Ok (map convert_to_paper_schema
                 match limit with
                 | None => raw_papers
                 | Some n =>
                   if n =? 0 then raw_papers
                   else if n <? 0
                        then take (length raw_papers - Z.to_nat (- n)) raw_papers
                        else take (Z.to_nat n) raw_papers
                 end))
  | (w1, Raise e) => crawl_huggingface_papers env date limit w = (w1, Raise e)
  end.
Proof.
  unfold crawl_huggingface_papers.
  destruct (fetch_daily_papers env date w) as [w1 [raw | e]] eqn:Hf.
  - rewrite (bind_ok _ _ _ _ _ Hf). unfold ret. f_equal. f_equal. f_equal.
    destruct limit as [n |]; [| done]. simpl.
    destruct (Z.eqb_spec n 0); [done |]. simpl. apply slice_from_start.
  - by rewrite (bind_raise _ _ _ _ _ Hf).
Qed.

Example negative_limit_drops_the_last :
  snd (crawl_huggingface_papers env_ok None (Some (-1)) (world_of []))
  = Ok (map convert_to_paper_schema [raw_paper "A"; raw_paper "B"]).
Proof. vm_compute. reflexivity. Qed.

(** ** The rows ingest adds *)

Section IngestRows.

Variable env : Env.

(** What the loop appends: one NEW row per record saved, in the order of
    the records, with consecutive primary keys. *)
Lemma save_loop_rows ps :
  forall c w,
  exists w' c' kept,
    for_each ps (save_one env) c w = (w', Ok c')
    /\ kept `sublist_of` ps
    /\ papers w'
       = papers w ++ imap (fun j pd => new_paper pd (S (length (papers w) + j))) kept
    /\ saved_count c' = (saved_count c + length kept)%nat.
Proof.
  induction ps as [| pd ps IH]; intros c w; simpl.
  - exists w, c, []. simpl. rewrite app_nil_r. repeat split; [constructor | lia].
  - destruct (save_one_cases env c pd w) as (w1 & c1 & H1 & _ & Hcase).
    destruct (IH c1 w1) as (w' & c' & kept & H' & Hsub & Hp' & Hc').
    rewrite (bind_ok _ _ _ _ _ H1).
    destruct Hcase as [[Hp1 Hs1] | (Hp1 & _ & Hs1)].
    + exists w', c', kept. split; [done |]. split; [by apply sublist_cons |].
      rewrite Hp1 in Hp'. split; [done | lia].
    + exists w', c', (pd :: kept). split; [done |]. split; [by apply sublist_skip |].
      split; [| simpl; lia].
      rewrite Hp', Hp1, <- app_assoc. f_equal. simpl. rewrite Nat.add_0_r. f_equal.
      apply imap_ext. intros j x _. simpl. rewrite length_app. simpl. f_equal. lia.
Qed.

End IngestRows.

(** X12: what an ingest run writes, whatever fails: the rows it appends are
    built from a subsequence of the fetched records, in their order; each
    has the status NEW, whatever status the record carried, copies the
    record's fields and gets the next primary key; and when the run returns,
    its saved count is the number of rows appended. *)
Theorem ingest_rows (env : Env) (fetched : list PaperCreate) (w : World) :
  let run := save_papers env fetched w in
  exists kept,
    kept `sublist_of` fetched
    /\ papers (fst run)
       = papers w ++ imap (fun j pd => new_paper pd (S (length (papers w) + j))) kept
    /\ (forall row, row ∈ drop (length (papers w)) (papers (fst run)) ->
          p_status row = lit "NEW"
          /\ exists pd, pd ∈ fetched
                        /\ p_paper_id row = pc_paper_id pd
                        /\ p_title row = pc_title pd
                        /\ p_authors row = pc_authors pd
                        /\ p_abstract row = pc_abstract pd
                        /\ p_raw_data row = pc_raw_data pd)
    /\ (forall res, snd run = Ok res -> saved res = length kept).
Proof.
  intros run. unfold run.
  destruct (save_loop_rows env fetched
              {| saved_count := 0; duplicate_count := 0; failed_count := 0 |} w)
    as (w1 & c & kept & Hloop & Hsub & Hp & Hc).
  rewrite (save_papers_run env fetched w w1 c Hloop).
  exists kept. split; [done |].
  assert (forall w2 : World, papers w2 = papers w1 ->
            forall row, row ∈ drop (length (papers w)) (papers w2) ->
              p_status row = lit "NEW"
              /\ exists pd, pd ∈ fetched
                            /\ p_paper_id row = pc_paper_id pd
                            /\ p_title row = pc_title pd
                            /\ p_authors row = pc_authors pd
                            /\ p_abstract row = pc_abstract pd
                            /\ p_raw_data row = pc_raw_data pd) as Hrows.
  { intros w2 -> row. rewrite Hp, drop_app_length.
    intros (j & Hj)%list_elem_of_lookup_1.
    rewrite list_lookup_imap in Hj.
    destruct (kept !! j) as [pd |] eqn:Hk; [| done]. injection Hj as <-.
    split; [done |]. exists pd. split; [| done].
    eapply elem_of_sublist; [| exact Hsub]. by eapply list_elem_of_lookup_2. }
  destruct (db_fault env (db_ops w1)); simpl.
  - split; [done |]. split; [by apply Hrows | done].
  - split; [done |]. split; [by apply Hrows |]. intros res [= <-]. simpl in *. lia.
Qed.

(** ** Looking up what was ingested *)

(** X13: when no database operation fails and the stored identifiers are
    distinct, every record of an ingest run can be looked up by its
    identifier afterwards: the lookup finds exactly one row, which carries
    that identifier. *)
Theorem ingested_papers_are_found (env : Env) (fetched : list PaperCreate)
    (w : World) (pd : PaperCreate) :
  (forall k, db_fault env k = None) ->
  NoDup (map p_paper_id (papers w)) ->
  pd ∈ fetched ->
  let w' := fst (save_papers env fetched w) in
  exists i row,
    snd (select_paper_by_paper_id env (pc_paper_id pd) w') = Ok (Some i)
    /\ papers w' !! i = Some row
    /\ p_paper_id row = pc_paper_id pd.
Proof.
  intros Hok Hnd Hin w'.
  destruct (ingest_ids (map p_paper_id (papers w)) (map pc_paper_id fetched))
    as [[s a] d] eqn:Hids.
  destruct (save_loop_ok env Hok fetched
              {| saved_count := 0; duplicate_count := 0; failed_count := 0 |}
              w s a d Hnd Hids) as (w1 & c & Hloop & Hs & _).
  destruct (save_loop_any env fetched
              {| saved_count := 0; duplicate_count := 0; failed_count := 0 |} w)
    as (w1' & c1' & new & Hloop' & _ & _ & Hnd').
  rewrite Hloop in Hloop'. injection Hloop' as <- <-.
  assert (papers w' = papers w1) as Hp.
  { unfold w'. rewrite (save_papers_run env fetched w w1 c Hloop), Hok. reflexivity. }
  assert (pc_paper_id pd ∈ map p_paper_id (papers w')) as Hmem.
  { rewrite Hp, Hs. apply (ingest_ids_covers _ _ _ _ _ Hids). right.
    by apply list_elem_of_fmap_2. }
  destruct (where_from_unique (pc_paper_id pd) (papers w') 0) as [i Hi];
    [rewrite Hp; by apply Hnd' | done |].
  assert (i ∈ where_from (fun p => str_eqb (p_paper_id p) (pc_paper_id pd)) (papers w') 0)
    as Hi' by (rewrite Hi; apply list_elem_of_here).
  apply elem_of_where_from in Hi' as (_ & row & Hrow & Heq).
  rewrite Nat.sub_0_r in Hrow. apply bool_decide_eq_true in Heq.
  exists i, row. rewrite select_paper_run, Hok, Hi. done.
Qed.

Lemma ingested_papers_are_found_witness :
  exists i row,
    snd (select_paper_by_paper_id env_ok (lit "C")
           (fst (save_papers env_ok fetched_abc world_a))) = Ok (Some i)
    /\ papers (fst (save_papers env_ok fetched_abc world_a)) !! i = Some row
    /\ p_paper_id row = lit "C".
Proof.
  apply (ingested_papers_are_found env_ok fetched_abc world_a
           (convert_to_paper_schema (raw_paper "C"))).
  - reflexivity.
  - apply NoDup_singleton.
  - apply list_elem_of_further, list_elem_of_further, list_elem_of_here.
Defined.

(** ** A block that is never closed *)

Lemma find_from_none_any (P s : str) (i j : nat) :
  find_from P s i = None -> find_from P s j = None.
Proof. intros H. apply find_from_none. by eapply find_from_none_inv. Qed.

(** X14: when the answer opens a block tagged as JSON and no closing fence
    follows, the search for the closing fence returns -1, which is used as
    the end of the slice: what is handed to the decoder is the rest of the
    answer without its last character. *)
Theorem extract_unclosed_tagged_block (c : str) :
  contains fence c = false ->
  extract_json_str (fence_json ++ c) = strip (removelast c).
Proof.
  intros Hc. unfold extract_json_str.
  assert (find_from fence_json (fence_json ++ c) 0 = Some 0%nat) as H0.
  { rewrite find_from_unfold.
    assert (startswith fence_json (fence_json ++ c) = true) as ->; [| done].
    apply startswith_spec. by exists c. }
  destruct (contains_true _ _ _ H0) as [-> ->].
  change (Z.to_nat (Z.of_nat 0 + 7)) with (length fence_json).
  rewrite find_after.
  apply contains_false in Hc.
  rewrite (find_from_none_any fence c 0 (length fence_json) Hc).
  unfold slice. rewrite length_app. change (length fence_json) with 7%nat.
  change (Z.of_nat 0 + 7 <? 0) with false. change (-1 <? 0) with true. cbv iota.
  rewrite Z.min_l by lia. rewrite Z.max_r by lia.
  change (Z.to_nat (Z.of_nat 0 + 7)) with (length fence_json).
  rewrite drop_app_length. f_equal.
  rewrite removelast_firstn_len. f_equal. lia.
Qed.

Lemma extract_unclosed_tagged_block_witness :
  extract_json_str (fence_json ++ qlit "{'a': 'b'}") = qlit "{'a': 'b'".
Proof.
  rewrite (extract_unclosed_tagged_block (qlit "{'a': 'b'}") eq_refl).
  vm_compute. reflexivity.
Defined.

(** ** The records of the page parser *)

Section ParsedRecords.

Variable unicode_decimal : N -> bool.
Variable env : Env.

Let decimal := is_decimal unicode_decimal.
Let arxiv_shape := arxiv_id_shape decimal.

Lemma match_arxiv_id_shape s m :
  match_arxiv_id unicode_decimal s = Some m -> arxiv_shape m.
Proof.
  unfold match_arxiv_id.
  destruct s as [| a [| b [| c [| d [| dot [| e [| f [| g [| h rest]]]]]]]]]; try done.
  fold decimal.
  destruct (decimal a) eqn:Ha; [| done]. destruct (decimal b) eqn:Hb; [| done].
  destruct (decimal c) eqn:Hc; [| done]. destruct (decimal d) eqn:Hd; [| done].
  destruct (N.eqb_spec dot 46) as [-> |]; [| done].
  destruct (decimal e) eqn:He; [| done]. destruct (decimal f) eqn:Hf; [| done].
  destruct (decimal g) eqn:Hg; [| done]. destruct (decimal h) eqn:Hh; [| done].
  cbn [andb]. intros [= <-].
  assert (forall tl : str, (tl = [] \/ exists i, tl = [i] /\ decimal i = true) ->
            arxiv_shape ([a; b; c; d; 46%N; e; f; g; h] ++ tl)) as Hshape.
  { intros tl [-> | (i & -> & Hi)]; (split; [simpl; auto |]); (split; [done |]);
      intros [| [| [| [| [| [| [| [| [| [| k]]]]]]]]]] x Hx Hk; simpl in Hx;
      try done; congruence. }
  apply Hshape. destruct rest as [| i rest]; [by left |].
  destruct (decimal i) eqn:Hi; [right; by exists i | by left].
Qed.

Lemma search_arxiv_id_shape s m :
  search_arxiv_id unicode_decimal s = Some m -> arxiv_shape m.
Proof.
  assert (forall s, search_arxiv_id unicode_decimal s
                    = match match_arxiv_id unicode_decimal s with
                      | Some m => Some m
                      | None => match s with
                                | [] => None
                                | _ :: s' => search_arxiv_id unicode_decimal s'
                                end
                      end) as Hunfold by (by intros []).
  induction s as [| c s IH]; rewrite Hunfold.
  - done.
  - destruct (match_arxiv_id unicode_decimal (c :: s)) as [m' |] eqn:Hm; [| exact IH].
    intros [= <-]. by eapply match_arxiv_id_shape.
Qed.

Lemma filter_nonempty (l : list str) (x : str) :
  x ∈ List.filter nonempty l -> x <> [].
Proof.
  rewrite list_elem_of_In, List.filter_In. intros [_ H] ->. done.
Qed.

Lemma parsed_article_well_formed article r :
  _parse_paper_article unicode_decimal env article = Some r ->
  rp_authors r <> []
  /\ (forall a, a ∈ rp_authors r -> a <> [])
  /\ rp_abstract r <> []
  /\ rp_source r = lit "HUGGINGFACE"
  /\ rp_categories r <> Some []
  /\ (forall cs c, rp_categories r = Some cs -> c ∈ cs -> c <> [])
  /\ rp_publication_date r = Some (now env)
  /\ exists id,
       arxiv_shape id
       /\ arxiv_href article <> None
       /\ rp_paper_id r = lit "arxiv-" ++ id
       /\ rp_pdf_url r = Some (lit "https://arxiv.org/pdf/" ++ id ++ lit ".pdf").
Proof.
  unfold _parse_paper_article.
  destruct (arxiv_href article) as [url |]; [| done].
  destruct (search_arxiv_id unicode_decimal url) as [id |] eqn:Hid; [| done].
  cbv zeta. intros [= <-]. cbn [rp_authors rp_abstract rp_source rp_categories
    rp_publication_date rp_paper_id rp_pdf_url].
  set (authors := List.filter nonempty _).
  set (categories := List.filter nonempty (tag_texts article)).
  split; [by destruct authors |]. split.
  { intros a. destruct authors as [| x l] eqn:E; cbn [nonempty_list].
    - intros ->%list_elem_of_singleton. vm_compute. discriminate.
    - rewrite <- E. apply filter_nonempty. }
  split; [destruct (default [] (abstract_text article)); simpl; [vm_compute |]; done |].
  split; [done |]. split; [by destruct categories |]. split.
  { intros cs c. destruct categories as [| x l] eqn:E; cbn [nonempty_list]; [done |].
    intros [= <-]. rewrite <- E. apply filter_nonempty. }
  split; [done |]. exists id. split; [by eapply search_arxiv_id_shape | done].
Qed.

End ParsedRecords.

Lemma omap_length_le {A B} (f : A -> option B) (l : list A) :
  (length (omap f l) <= length l)%nat.
Proof.
  induction l as [| x l IH]; [done |].
  change (omap f (x :: l))
    with (match f x with Some y => y :: omap f l | None => omap f l end).
  destruct (f x); simpl; lia.
Qed.

(** X15: every record the page parser returns is complete: its author
    list is non-empty and holds no empty name (the placeholder Unknown
    stands in when no author is found), its abstract is non-empty (a
    placeholder stands in), its source is HUGGINGFACE, its categories are
    absent rather than empty, its date is the time of the crawl, and its
    identifier is "arxiv-" followed by four digits, a dot and four or five
    digits taken from the link, the same identifier being used in the PDF
    link. Articles are taken from the fallback query only when the first
    one finds none, and no more records than articles are returned. *)
Theorem parsed_records_well_formed (unicode_decimal : N -> bool) (env : Env)
    (articles fallback : list Article) (r : RawPaper) :
  r ∈ _parse_papers_page unicode_decimal env articles fallback ->
  (rp_authors r <> []
   /\ (forall a, a ∈ rp_authors r -> a <> [])
   /\ rp_abstract r <> []
   /\ rp_source r = lit "HUGGINGFACE"
   /\ rp_categories r <> Some []
   /\ (forall cs c, rp_categories r = Some cs -> c ∈ cs -> c <> [])
   /\ rp_publication_date r = Some (now env)
   /\ exists id,
        ((length id = 9%nat \/ length id = 10%nat)
         /\ id !! 4%nat = Some 46%N
         /\ forall k c, id !! k = Some c -> k <> 4%nat ->
                        is_decimal unicode_decimal c = true)
        /\ rp_paper_id r = lit "arxiv-" ++ id
        /\ rp_pdf_url r = Some (lit "https://arxiv.org/pdf/" ++ id ++ lit ".pdf"))
  /\ (exists article,
        article ∈ (if nonempty_list articles then articles else fallback)
        /\ _parse_paper_article unicode_decimal env article = Some r)
  /\ (length (_parse_papers_page unicode_decimal env articles fallback)
      <= length (if nonempty_list articles then articles else fallback))%nat.
Proof.
  unfold _parse_papers_page. cbv zeta.
  assert (match articles with [] => fallback | _ :: _ => articles end
          = if nonempty_list articles then articles else fallback) as ->
    by (by destruct articles).
  intros (article & Hin & Hr)%list_elem_of_omap.
  destruct (parsed_article_well_formed unicode_decimal env article r Hr)
    as (H1 & H2 & H3 & H4 & H5 & H6 & H7 & id & Hid & _ & H8 & H9).
  split; [| split; [by exists article | apply omap_length_le]].
  repeat (split; [done |]). by exists id.
Qed.

Lemma parsed_records_well_formed_witness :
  let article :=
    {| arxiv_href := Some (lit "https://arxiv.org/abs/2401.12345v2");
       h3_text := None; h2_text := Some (lit "A title");
       authors_text := Some (lit "Ann Lee, , Bo Chen,");
       abstract_text := None; tag_texts := [[]] |} in
  exists r,
    _parse_papers_page (fun _ => false) env_ok [] [article] = [r]
    /\ rp_authors r <> [] /\ rp_abstract r <> [] /\ rp_categories r <> Some [].
Proof.
  intros article. eexists. split; [vm_compute; reflexivity |].
  match goal with
  | |- rp_authors ?r <> [] /\ _ =>
    destruct (parsed_records_well_formed (fun _ => false) env_ok [] [article] r)
      as ((H1 & _ & H3 & _ & H5 & _) & _)
  end.
  - vm_compute. apply list_elem_of_here.
  - split; [exact H1 |]. split; [exact H3 | exact H5].
Defined.

Example parse_article_scenario :
  _parse_papers_page (fun _ => false) env_ok []
    [{| arxiv_href := Some (lit "https://arxiv.org/abs/2401.12345v2");
        h3_text := None; h2_text := Some (lit "A title");
        authors_text := Some (lit "Ann Lee, , Bo Chen,");
        abstract_text := None; tag_texts := [[]] |};
     {| arxiv_href := Some (lit "https://arxiv.org/list/cs.AI/recent");
        h3_text := Some (lit "No identifier"); h2_text := None;
        authors_text := None; abstract_text := None; tag_texts := [] |}]
  = [{| rp_paper_id := lit "arxiv-2401.12345"; rp_title := lit "A title";
        rp_authors := [lit "Ann Lee"; lit "Bo Chen"];
        rp_abstract := lit "No abstract available";
        rp_publication_date := Some 7%N; rp_source := lit "HUGGINGFACE";
        rp_pdf_url := Some (lit "https://arxiv.org/pdf/2401.12345.pdf");
        rp_categories := None;
        rp_raw_data := JObj [(lit "arxiv_id", JStr (lit "2401.12345"));
                             (lit "arxiv_url",
                              JStr (lit "https://arxiv.org/abs/2401.12345v2"));
                             (lit "huggingface_url",
                              JStr (lit "https://huggingface.co/papers"))] |}].
Proof. vm_compute. reflexivity. Qed.

(** ** The file name and the path of a report *)

Lemma split_on_absent (sep : N) (s : str) :
  sep ∉ s -> split_on sep s = [s].
Proof.
  induction s as [| c s IH]; intros H; simpl; [done |].
  destruct (N.eqb_spec c sep) as [-> | Hne].
  - exfalso. apply H, list_elem_of_here.
  - rewrite IH; [done |]. intros Hin. apply H. by apply list_elem_of_further.
Qed.

Lemma Forall_join {P : N -> Prop} (sep : str) (l : list str) :
  Forall P sep -> Forall (Forall P) l -> Forall P (join sep l).
Proof.
  intros Hsep Hl. induction Hl as [| x l Hx Hl IH]; [constructor |].
  destruct l as [| y l]; [done |].
  change (join sep (x :: y :: l)) with (x ++ sep ++ join sep (y :: l)).
  apply Forall_app. split; [done |]. apply Forall_app. by split.
Qed.

Lemma no_separator_in_extension : 47%N ∉ lit ".md".
Proof.
  change (lit ".md") with [46; 109; 100]%N.
  rewrite !elem_of_cons, elem_of_nil. intros [H | [H | [H | []]]]; discriminate H.
Qed.

Section FileNames.

Variable unicode_word : N -> bool.
Variable lower : str -> str.
Variable strftime_Ymd : Date -> str.
Variable today : Date.

Let word := is_word unicode_word.

(** A character of a file name stem: a word character or a hyphen. *)
Let stem_char (c : N) : Prop := word c = true \/ c = 45%N.

Lemma findall_words_word (s : str) :
  Forall (Forall (fun c => word c = true)) (findall_words unicode_word s).
Proof.
  induction s as [| c s IH]; [constructor |].
  cbn [findall_words]. cbv zeta. fold word.
  destruct (word c) eqn:Hc; [| done].
  destruct s as [| d s]; [by repeat constructor |].
  destruct (findall_words unicode_word (d :: s)) as [| x ws] eqn:E;
    [by repeat constructor |].
  apply Forall_cons in IH as [Hx Hws].
  destruct (word d); repeat constructor; done.
Qed.

Lemma clean_id_stem (s : str) : Forall stem_char (clean_id unicode_word s).
Proof.
  unfold clean_id. apply Forall_fmap, Forall_true. intros c. unfold compose.
  fold word. destruct (word c) eqn:Hc; [by left |]. simpl.
  destruct (N.eqb_spec c 45) as [-> |]; [by right | by left].
Qed.

Lemma underscore_stem : Forall stem_char (lit "_").
Proof. repeat constructor. Qed.

Lemma filename_stem paper_id title publication_date :
  (forall d, Forall (fun c => is_digit c = true) (strftime_Ymd d)) ->
  exists stem,
    generate_filename unicode_word lower strftime_Ymd today paper_id title
      publication_date = stem ++ lit ".md"
    /\ Forall stem_char stem
    /\ (length stem
        <= length (strftime_Ymd (default today publication_date))
           + length paper_id + 32)%nat.
Proof.
  intros Hdate. unfold generate_filename. cbv zeta.
  rewrite slice_from_start. change (30 <? 0) with false. cbv iota.
  set (date_str := strftime_Ymd (default today publication_date)).
  set (keywords := take (Z.to_nat 30) _).
  exists (date_str ++ lit "_" ++ clean_id unicode_word paper_id ++ lit "_" ++ keywords).
  split; [rewrite <- !app_assoc; reflexivity |].
  split.
  - repeat (apply Forall_app; split); try apply underscore_stem.
    + eapply Forall_impl; [apply Hdate |]. intros c Hc. left.
      unfold word, is_word, ascii_word.
      assert ((c <? 128)%N = true) as ->.
      { unfold is_digit in Hc. apply andb_true_iff in Hc as [_ Hc%N.leb_le].
        apply N.ltb_lt. lia. }
      by rewrite Hc.
    + apply clean_id_stem.
    + apply Forall_take, Forall_join.
      * repeat constructor.
      * apply Forall_take. eapply Forall_impl; [apply findall_words_word |].
        intros w Hw. eapply Forall_impl; [exact Hw |]. intros c Hc. by left.
  - rewrite !length_app. unfold keywords. rewrite length_take.
    unfold clean_id. rewrite length_map.
    change (length (lit "_")) with 1%nat. change (Z.to_nat 30) with 30%nat.
    fold date_str. lia.
Qed.

End FileNames.

(** X16: the file name of a report is made of word characters and
    hyphens only, followed by ".md", provided the date is formatted with
    digits: whatever the paper identifier and the title contain, the name
    holds no path separator and no dot but that of its extension, and it is
    at most 35 characters longer than the date and the identifier together
    (the title gives at most 30 characters). *)
Theorem filename_is_safe (unicode_word : N -> bool) (lower : str -> str)
    (strftime_Ymd : Date -> str) (today : Date) (paper_id title : str)
    (publication_date : option Date) :
  (forall d, Forall (fun c => is_digit c = true) (strftime_Ymd d)) ->
  let filename := generate_filename unicode_word lower strftime_Ymd today paper_id
                    title publication_date in
  exists stem,
    filename = stem ++ lit ".md"
    /\ Forall (fun c => is_word unicode_word c = true \/ c = 45%N) stem
    /\ (47%N ∉ filename)
    /\ (46%N ∉ stem)
    /\ (length filename
        <= length (strftime_Ymd (default today publication_date))
           + length paper_id + 35)%nat.
Proof.
  intros Hdate filename.
  destruct (filename_stem unicode_word lower strftime_Ymd today paper_id title
              publication_date Hdate) as (stem & Hf & Hstem & Hlen).
  exists stem. fold filename in Hf.
  assert (forall c, c ∈ stem -> is_word unicode_word c = true \/ c = 45%N) as Hin
    by (by apply Forall_forall).
  split; [done |]. split; [done |]. split.
  - rewrite Hf. intros [H | H]%elem_of_app.
    + destruct (Hin _ H) as [Hw | Hw]; [vm_compute in Hw |]; discriminate.
    + by apply no_separator_in_extension in H.
  - split.
    + intros H. destruct (Hin _ H) as [Hw | Hw]; [vm_compute in Hw |]; discriminate.
    + rewrite Hf, length_app. change (length (lit ".md")) with 3%nat. lia.
Qed.

Lemma filename_is_safe_witness :
  let filename :=
    generate_filename (fun _ => false) (fun s => s) (fun _ => lit "20240115")
      {| d_year := 2024; d_month := 1; d_day := 15 |}
      (lit "arxiv-2401.12345/../x") (lit "attention is all you need") None in
  filename = lit "20240115_arxiv-2401_12345____x_attention_is_all.md"
  /\ (47%N ∉ filename).
Proof.
  intros filename.
  destruct (filename_is_safe (fun _ => false) (fun s => s) (fun _ => lit "20240115")
              {| d_year := 2024; d_month := 1; d_day := 15 |}
              (lit "arxiv-2401.12345/../x") (lit "attention is all you need") None)
    as (stem & _ & _ & Hsep & _).
  - intros d. vm_compute. repeat constructor.
  - split; [vm_compute; reflexivity | exact Hsep].
Defined.

(** X17: the path of a report is the month directory, under the reports
    directory, extended by exactly one part, the file name: the name
    derived from a paper cannot lead outside that directory. When the
    directory cannot be created, its error is passed on. *)
Theorem report_path_location (unicode_word : N -> bool) (lower : str -> str)
    (strftime_Ymd : Date -> str) (now1 now2 : Date) (reports_path : Path)
    (mkdir : Path -> result unit) (paper_id title : str)
    (publication_date : option Date) :
  (forall d, Forall (fun c => is_digit c = true) (strftime_Ymd d)) ->
  let filename := generate_filename unicode_word lower strftime_Ymd now1 paper_id
                    title publication_date in
  let date := default now2 publication_date in
  let report_dir :=
    path_div (path_div reports_path (str_of_nat (d_year date))) (pad2 (d_month date)) in
  generate_filepath now2 reports_path mkdir filename publication_date
  = match mkdir report_dir with
    | Raise e => Raise e
    | Ok _ => Ok {| absolute := absolute report_dir;
                    parts := parts report_dir ++ [filename] |}
    end.
Proof.
  intros Hdate filename date report_dir.
  destruct (filename_stem unicode_word lower strftime_Ymd now1 paper_id title
              publication_date Hdate) as (stem & Hf & Hstem & _).
  fold filename in Hf.
  assert (forall c, c ∈ stem -> is_word unicode_word c = true \/ c = 45%N) as Hin
    by (by apply Forall_forall).
  assert (47%N ∉ filename) as Hsep.
  { rewrite Hf. intros [H | H]%elem_of_app.
    - destruct (Hin _ H) as [Hw | Hw]; [vm_compute in Hw |]; discriminate.
    - by apply no_separator_in_extension in H. }
  unfold generate_filepath. cbv zeta. fold date. fold report_dir.
  destruct (mkdir report_dir) as [[] | e]; [| done]. f_equal.
  assert (path_parts filename = [filename]) as Hparts.
  { unfold path_parts. rewrite split_on_absent by done. cbn [List.filter].
    assert (nonempty filename = true) as ->.
    { rewrite Hf. destruct stem; reflexivity. }
    assert (str_eqb filename (lit ".") = false) as ->; [| done].
    apply bool_decide_eq_false. rewrite Hf. intros E.
    apply (f_equal length) in E. rewrite length_app in E.
    change (length (lit ".md")) with 3%nat in E. change (length (lit ".")) with 1%nat in E.
    lia. }
  unfold path_div at 1. rewrite Hparts.
  destruct filename as [| c rest] eqn:E; [done |].
  destruct (N.eq_dec c 47%N) as [-> | Hne].
  - exfalso. apply Hsep, list_elem_of_here.
  - destruct c as [| q]; [done |].
    repeat (destruct q as [q | q |]; try done).
Qed.

Lemma report_path_location_witness :
  generate_filepath {| d_year := 2024; d_month := 1; d_day := 15 |}
    {| absolute := false; parts := [lit "data"; lit "reports"] |} (fun _ => Ok tt)
    (generate_filename (fun _ => false) (fun s => s) (fun _ => lit "20240115")
       {| d_year := 2024; d_month := 1; d_day := 15 |}
       (lit "../../etc/passwd") (lit "a title") None) None
  = Ok {| absolute := false;
          parts := [lit "data"; lit "reports"; lit "2024"; lit "01";
                    lit "20240115_______etc_passwd_a_title.md"] |}.
Proof.
  rewrite (report_path_location (fun _ => false) (fun s => s) (fun _ => lit "20240115")
             {| d_year := 2024; d_month := 1; d_day := 15 |}
             {| d_year := 2024; d_month := 1; d_day := 15 |}
             {| absolute := false; parts := [lit "data"; lit "reports"] |}
             (fun _ => Ok tt) (lit "../../etc/passwd") (lit "a title") None).
  - vm_compute. reflexivity.
  - intros d. vm_compute. repeat constructor.
Defined.

(** ** A provider name that is not configured *)

Lemma get_provider_config_unknown (llm : LLMSettings) (name : str) :
  name ∉ [lit "openai"; lit "qwen"; lit "zhipu"; lit "kimi"] ->
  get_provider_config llm name = openai llm.
Proof.
  intros H. unfold get_provider_config, str_eqb.
  assert (forall x, x ∈ [lit "openai"; lit "qwen"; lit "zhipu"; lit "kimi"] ->
            bool_decide (name = x) = false) as Hn.
  { intros x Hx. apply bool_decide_eq_false. by intros ->. }
  rewrite (Hn (lit "openai")) by apply list_elem_of_here.
  rewrite (Hn (lit "qwen")) by apply list_elem_of_further, list_elem_of_here.
  rewrite (Hn (lit "zhipu"))
    by apply list_elem_of_further, list_elem_of_further, list_elem_of_here.
  rewrite (Hn (lit "kimi"))
    by apply list_elem_of_further, list_elem_of_further, list_elem_of_further,
         list_elem_of_here.
  reflexivity.
Qed.

(** X18: a provider name that is not one of openai, qwen, zhipu and kimi
    is not rejected: it gets the configuration of OpenAI. A report
    generated under such a name records that name as its provider and the
    OpenAI model as its model. *)
Theorem unknown_provider_uses_openai (env : Env) (llm : LLMSettings)
    (max_retries retry_delay : Z) (name : str) (i : nat) (w : World) (p : Paper) :
  settings env = settings_of llm max_retries retry_delay ->
  name ∉ [lit "openai"; lit "qwen"; lit "zhipu"; lit "kimi"] ->
  name <> [] ->
  papers w !! i = Some p ->
  let run := _generate_single_report env i (Some name) w in
  get_provider_config llm name = openai llm
  /\ forall report, snd run = Ok report ->
       exists r, reports (fst run) !! report = Some r
                 /\ r_llm_provider r = name
                 /\ r_llm_model r = cfg_model (openai llm).
Proof.
  intros Hset Hname Hne Hp run.
  pose proof (get_provider_config_unknown llm name Hname) as Hcfg.
  split; [done |]. intros report Hres.
  pose proof (single_report_rows_run env i (Some name) w p Hp) as H.
  fold run in H. destruct run as [w' [rp | e]]; [| done].
  simpl in Hres. injection Hres as ->.
  destruct H as (r & Hrep & -> & _ & _ & _ & _ & Hm & Hprov).
  exists r. simpl. rewrite Hrep.
  split; [by rewrite lookup_app_r, Nat.sub_diag by lia |].
  assert (r_llm_provider r = name) as Hn by (rewrite Hprov; by destruct name).
  split; [done |]. rewrite Hm, Hn, Hset. simpl. by rewrite Hcfg.
Qed.

Lemma unknown_provider_uses_openai_witness :
  exists r,
    reports (fst (_generate_single_report env_defaults 0 (Some (lit "gemini")) world_a))
      !! 0%nat = Some r
    /\ r_llm_provider r = lit "gemini"
    /\ r_llm_model r = lit "gpt-4".
Proof.
  destruct (unknown_provider_uses_openai env_defaults llm_defaults 3 5 (lit "gemini") 0
              world_a (paper_row 1 "A" "NEW") eq_refl) as [_ H].
  - intros H. repeat (apply elem_of_cons in H as [H | H]; [vm_compute in H; discriminate H |]).
    by apply elem_of_nil in H.
  - vm_compute. discriminate.
  - reflexivity.
  - apply (H 0%nat). vm_compute. reflexivity.
Defined.

(** ** A fetch that fails *)

(** X19: when the fetch of a crawl ends by raising, after its retries,
    ingest raises the same error at once: no database operation is issued,
    nothing is committed and no paper, report or task row changes. *)
Theorem crawl_fetch_failure (env : Env) (date : option str) (limit : option Z)
    (w : World) (e : exn) :
  let w0 := set_log (fun l => l ++ [{| log_msg := "Starting paper crawl";
                                       log_arg := lit "huggingface" |}]) w in
  snd (fetch_daily_papers env date w0) = Raise e ->
  let run := crawl_and_save_papers env (lit "huggingface") date limit w in
  snd run = Raise e
  /\ db_ops (fst run) = db_ops w
  /\ papers (fst run) = papers w
  /\ reports (fst run) = reports w
  /\ tasks (fst run) = tasks w.
Proof.
  intros w0 Hfetch run. unfold run, crawl_and_save_papers.
  rewrite (bind_ok _ _ _ _ _ (logger_run _ _ w)). fold w0.
  change (str_eqb (lit "huggingface") (lit "huggingface")) with true. cbv iota.
  pose proof (keeps_crawl_huggingface_papers db_ops (fun _ _ => eq_refl)
                (fun _ _ => eq_refl) (fun _ _ => eq_refl) env date limit w0) as Kd.
  pose proof (keeps_crawl_huggingface_papers papers (fun _ _ => eq_refl)
                (fun _ _ => eq_refl) (fun _ _ => eq_refl) env date limit w0) as Kp.
  pose proof (keeps_crawl_huggingface_papers reports (fun _ _ => eq_refl)
                (fun _ _ => eq_refl) (fun _ _ => eq_refl) env date limit w0) as Kr.
  pose proof (keeps_crawl_huggingface_papers tasks (fun _ _ => eq_refl)
                (fun _ _ => eq_refl) (fun _ _ => eq_refl) env date limit w0) as Kt.
  unfold keeps in *.
  assert (exists w1, crawl_huggingface_papers env date limit w0 = (w1, Raise e))
    as [w1 Hcrawl].
  { unfold crawl_huggingface_papers.
    destruct (fetch_daily_papers env date w0) as [w1 r] eqn:Hf. simpl in Hfetch.
    subst r. exists w1. by rewrite (bind_raise _ _ _ _ _ Hf). }
  rewrite Hcrawl in Kd, Kp, Kr, Kt. rewrite (bind_raise _ _ _ _ _ Hcrawl). done.
Qed.

Lemma crawl_fetch_failure_witness :
  let run := crawl_and_save_papers (env_flaky 5) (lit "huggingface") None None world_a in
  snd run = Raise {| exc_cls := HTTPError; exc_text := lit "503 Service Unavailable" |}
  /\ db_ops (fst run) = 0%nat
  /\ papers (fst run) = papers world_a.
Proof.
  intros run.
  destruct (crawl_fetch_failure (env_flaky 5) None None world_a
              {| exc_cls := HTTPError; exc_text := lit "503 Service Unavailable" |})
    as (H1 & H2 & H3 & _).
  - vm_compute. reflexivity.
  - split; [exact H1 |]. split; [exact H2 | exact H3].
Defined.

(** ** What an analysis costs *)

Section Cost.

Variable env : Env.

(** The requests a run has made: to the LLM and to the document writer. *)
Let within (w w' : World) (llm doc : nat) : Prop :=
  (llm_calls w <= llm_calls w' <= llm_calls w + llm)%nat
  /\ (doc_calls w <= doc_calls w' <= doc_calls w + doc)%nat.

Lemma generation_calls paper provider w :
  let w' := fst (generate_paper_report env paper provider w) in
  (llm_calls w < llm_calls w' <= llm_calls w + 2)%nat /\ doc_calls w' = doc_calls w.
Proof.
  intros w'. split.
  - unfold w', generate_paper_report.
    match goal with
    | |- context [generate_report env ?p ?t ?a ?ab ?s ?c w] =>
      pose proof (generate_report_run env p t a ab s c w) as H
    end.
    destruct (attempt_outcome env _ _ (llm_calls w)); destruct H as (_ & -> & _); lia.
  - apply (keeps_generate_paper_report doc_calls); done.
Qed.

Lemma markdown_calls paper c m w :
  let w' := fst (create_markdown_report env paper c m w) in
  llm_calls w' = llm_calls w /\ doc_calls w' = S (doc_calls w).
Proof.
  intros w'. split.
  - apply (keeps_create_markdown_report llm_calls); done.
  - unfold w', create_markdown_report, bind, logger, modify, ret.
    by destruct (doc_reply env (doc_calls w)).
Qed.

Lemma analysis_steps_calls i provider w :
  within w (fst (analysis_steps env i provider w)) 2 1.
Proof.
  unfold analysis_steps, within.
  set (pd := default dummy_paper (papers w !! i)).
  assert (paper_at i w = (w, Ok pd)) as H0 by reflexivity.
  rewrite (bind_ok _ _ _ _ _ H0).
  destruct (generation_calls pd provider w) as [L1 D1]. cbv zeta in L1, D1.
  destruct (generate_paper_report env pd provider w) as [w1 [llm | e]] eqn:H1;
    simpl in L1, D1; [| rewrite (bind_raise _ _ _ _ _ H1); simpl; lia].
  rewrite (bind_ok _ _ _ _ _ H1).
  destruct (markdown_calls pd (lr_content llm) (lr_llm_model llm) w1) as [L2 D2].
  cbv zeta in L2, D2.
  destruct (create_markdown_report env pd (lr_content llm) (lr_llm_model llm) w1)
    as [w2 [fp | e]] eqn:H2; simpl in L2, D2;
    [| rewrite (bind_raise _ _ _ _ _ H2); simpl; lia].
  rewrite (bind_ok _ _ _ _ _ H2).
  assert (set_status i (lit "COMPLETED") w2
          = (set_papers (alter (with_status (lit "COMPLETED")) i) w2, Ok tt)) as H3
    by reflexivity.
  rewrite (bind_ok _ _ _ _ _ H3).
  set (w3 := set_papers _ w2).
  match goal with
  | |- context [flush_new_report env ?mk] => pose proof (flush_new_report_run env mk w3) as H4
  end.
  destruct (db_fault env (db_ops w3)) as [e |].
  - rewrite (bind_raise _ _ _ _ _ H4). simpl. lia.
  - rewrite (bind_ok _ _ _ _ _ H4).
    rewrite (bind_ok _ _ _ _ _ (logger_run _ _ _)). simpl. lia.
Qed.

Lemma single_report_calls i provider w :
  within w (fst (_generate_single_report env i provider w)) 2 1.
Proof.
  unfold _generate_single_report, within.
  pose proof (keeps_analysis_prologue llm_calls (fun _ _ => eq_refl) (fun _ _ => eq_refl)
                env (fun _ _ => eq_refl) i w) as KL.
  pose proof (keeps_analysis_prologue doc_calls (fun _ _ => eq_refl) (fun _ _ => eq_refl)
                env (fun _ _ => eq_refl) i w) as KD.
  unfold keeps in KL, KD.
  destruct (analysis_prologue env i w) as [w1 [[] | e]] eqn:H0; simpl in KL, KD;
    [| rewrite (bind_raise _ _ _ _ _ H0); simpl; lia].
  rewrite (bind_ok _ _ _ _ _ H0).
  pose proof (analysis_steps_calls i provider w1) as [L D].
  destruct (analysis_steps env i provider w1) as [w2 [rp | e]] eqn:Hs; simpl in L, D.
  - rewrite (try_except_ok _ _ _ _ _ Hs). simpl. lia.
  - rewrite (try_except_raise _ _ _ _ _ Hs).
    pose proof (keeps_analysis_failed llm_calls (fun _ _ => eq_refl) (fun _ _ => eq_refl)
                  env (fun _ _ => eq_refl) i e w2) as KL2.
    pose proof (keeps_analysis_failed doc_calls (fun _ _ => eq_refl) (fun _ _ => eq_refl)
                  env (fun _ _ => eq_refl) i e w2) as KD2.
    unfold keeps in KL2, KD2. lia.
Qed.

Lemma batch_one_calls provider c i w :
  within w (fst (batch_one env provider c i w)) 2 1.
Proof.
  pose proof (single_report_calls i provider w) as [L D].
  unfold batch_one, try_except, within in *.
  unfold bind, paper_at, get, logger, set_status, modify, ret.
  destruct (_generate_single_report env i provider w) as [w1 [rp | e]]; simpl in *; lia.
Qed.

Lemma batch_loop_calls provider sel :
  forall c w,
    within w (fst (for_each sel (batch_one env provider) c w))
      (2 * length sel) (length sel).
Proof.
  induction sel as [| i sel IH]; intros c w; simpl.
  - unfold within. simpl. lia.
  - pose proof (batch_one_calls provider c i w) as [L D].
    destruct (batch_one_spec env provider c i w) as (w1 & c1 & H1 & _).
    rewrite H1 in L, D. simpl in L, D. rewrite (bind_ok _ _ _ _ _ H1).
    destruct (IH c1 w1) as [L' D']. unfold within. lia.
Qed.

Lemma batch_calls provider limit w :
  within w (fst (generate_reports_batch env provider limit w))
    (2 * length (selected_rows limit w)) (length (selected_rows limit w)).
Proof.
  unfold generate_reports_batch.
  rewrite (bind_ok _ _ _ _ _ (logger_run _ _ w)).
  set (w0 := set_log _ w).
  assert (forall rows : list nat,
            within w
              (fst (match rows with
                    | [] => logger "No unprocessed papers found" [];;
                            ret {| total_processed := 0; success := 0;
                                   batch_failed := 0 |}
                    | _ :: _ =>
                      c <- for_each rows (batch_one env provider) (0%nat, 0%nat);;
                      db_op env;;
                      (let result := {| total_processed := length rows;
                                        success := fst c; batch_failed := snd c |} in
                       logger "Batch report generation completed" [];; ret result)
                    end (set_db_ops S w0)))
              (2 * length rows) (length rows)) as Hrows.
  { intros [| i sel]; [unfold within; simpl; lia |].
    pose proof (batch_loop_calls provider (i :: sel) (0%nat, 0%nat) (set_db_ops S w0))
      as [L D].
    destruct (batch_loop_spec env provider (i :: sel) (0%nat, 0%nat) (set_db_ops S w0))
      as (w2 & c' & H2 & _).
    rewrite H2 in L, D. rewrite (bind_ok _ _ _ _ _ H2).
    unfold within, bind, db_op, logger, modify, ret.
    destruct (db_fault env (db_ops w2)); simpl in *; lia. }
  unfold select_new_papers, bind at 1, bind at 1, db_op.
  destruct (db_fault env (db_ops w0)); [unfold within; simpl; lia |]. cbn [fst snd].
  change (where_from _ (papers w) 0) with (where_from is_new (papers w) 0).
  unfold selected_rows. unfold bind at 1, get.
  change (papers (set_db_ops S w0)) with (papers w).
  change (where_from _ (papers w) 0) with (where_from is_new (papers w) 0).
  destruct (truthy_int limit) eqn:Ht.
  - destruct (default 0 limit <? 0); [unfold within; simpl; lia | apply Hrows].
  - apply Hrows.
Qed.

End Cost.

(** X20: what a batch run costs, whatever fails: at most two LLM requests
    and one document write for each selected paper, and none when nothing
    is selected. A single-paper analysis makes at most two LLM requests and
    at most one document write. *)
Theorem batch_cost (env : Env) (provider : option str) (limit : option Z) (w : World) :
  let run := generate_reports_batch env provider limit w in
  let n := length (selected_rows limit w) in
  (llm_calls w <= llm_calls (fst run) <= llm_calls w + 2 * n)%nat
  /\ (doc_calls w <= doc_calls (fst run) <= doc_calls w + n)%nat
  /\ forall i w1,
       let single := _generate_single_report env i provider w1 in
       (llm_calls w1 <= llm_calls (fst single) <= llm_calls w1 + 2)%nat
       /\ (doc_calls w1 <= doc_calls (fst single) <= doc_calls w1 + 1)%nat.
Proof.
  intros run n. destruct (batch_calls env provider limit w) as [L D].
  split; [exact L |]. split; [exact D |].
  intros i w1 single. apply single_report_calls.
Qed.

Example batch_cost_scenario :
  let w := world_of [paper_row 1 "A" "NEW"; paper_row 2 "B" "COMPLETED";
                     paper_row 3 "C" "NEW"] in
  let run := generate_reports_batch (env_with [] [lit "oops"; lit "oops"; lit "oops"])
               None None w in
  llm_calls (fst run) = 4%nat /\ doc_calls (fst run) = 1%nat.
Proof. vm_compute. done. Qed.
